(** * Embassy backend: request handlers over a relational store

    A shallow embedding of the Express server (the [index.js] file of the
    repository, with [auth.js] and the schema of [db.js]) and the properties
    of its status workflow, ownership checks, chat get-or-create and token
    issuing; then of its accounts, of what each route may change, of the
    keys and references of the tables, of the other chat routes and of the
    analytics series.

    Conventions of the model
    - a table is the list of its rows, in insertion order; [SELECT] filters
      it, [UPDATE] maps over it, [INSERT] appends a row under the table's
      [AUTO_INCREMENT] counter;
    - [pool.query] always reaches the database: connection failures are not
      part of the model, SQL errors the handlers react to (a duplicate key)
      are;
    - the schema is that of [db.js] after [add-shipping-carrier.js] has
      added the [shipping_carrier] column to the four application tables;
      of its constraints the store keeps the PRIMARY and UNIQUE keys and
      the names of the columns, not the types, widths and NOT NULL marks;
    - the driver writes a string, a number, a boolean or [null] into a
      statement as one literal, an array as a list of literals and an
      object as a list of [`key` = value] assignments.  Where that changes
      what a statement does (the carrier of the tracking UPDATE, the
      session id of the chat SELECT) the outcome is a parameter of the
      model; a parameter of a VALUES list is taken to be a scalar, and an
      array or an object there is kept as the empty text;
    - strings are ASCII text: [toLowerCase], [toUpperCase] and [trim] are
      those of JavaScript on such text, and a WHERE clause compares two
      strings character by character (the case-insensitive comparison of
      the tables' collation is not modelled);
    - a request is one that the rate limiters, [helmet] and [cors] ahead of
      the routes let through;
    - a handler is a computation in a state-and-exception monad over the
      world (database, mail outbox, console, query log); an early
      [return res.status(..).json(..)] ends it, a [throw] is caught by the
      enclosing [try];
    - the console keeps one line per [console.error]: the message the code
      gives, or the name of the handler whose [catch] logged the error;
    - [JSON.parse], [JSON.stringify], [bcrypt], [jsonwebtoken] and the
      request validators of [express-validator] are library code: the
      handlers are parametrised by them, and tokens do not age. *)

From Stdlib Require Import String Ascii List ZArith Bool Lia Sorted Permutation.
From Stdlib Require Import DecimalString DecimalPos.
Import ListNotations.
Open Scope string_scope.
Open Scope Z_scope.

Set Implicit Arguments.
Set Warnings "-register-all".

(** ** JavaScript values and strings *)

Module JS.

(** Values that travel in request bodies, responses and serialized
    columns.  Numeric literals are kept as integers: no handler computes
    with fractions. *)
Inductive JSON : Type :=
| JNull
| JBool (b : bool)
| JNum (n : Z)
| JStr (s : string)
| JArr (items : list JSON)
| JObj (fields : list (string * JSON)).

(** A possibly [undefined] value: a property read of an object. *)
Definition Value := option JSON.

(** [!!v]: [undefined], [null], [false], [0] and [''] are falsy. *)
Definition truthy (v : Value) : bool :=
  match v with
  | None => false
  | Some JNull => false
  | Some (JBool b) => b
  | Some (JNum n) => negb (n =? 0)
  | Some (JStr s) => negb (s =? "")%string
  | Some (JArr _) => true
  | Some (JObj _) => true
  end.

(** [v || null], as handed to the SQL driver. *)
Definition or_null (v : Value) : JSON :=
  if truthy v then match v with Some j => j | None => JNull end else JNull.

(** [obj.key] *)
Fixpoint get (key : string) (fields : list (string * JSON)) : Value :=
  match fields with
  | [] => None
  | (k, v) :: rest => if (k =? key)%string then Some v else get key rest
  end.

(** [arr.includes(v)] for an array of string literals: [includes] compares
    with SameValueZero, so only a string equal to a member is found. *)
Definition includes (arr : list string) (v : Value) : bool :=
  match v with
  | Some (JStr s) => existsb (String.eqb s) arr
  | _ => false
  end.

(** [typeof v === 'string'] *)
Definition is_string (v : Value) : bool :=
  match v with
  | Some (JStr _) => true
  | _ => false
  end.

(** The characters of a value known to be a string. *)
Definition str (v : Value) : string :=
  match v with
  | Some (JStr s) => s
  | _ => ""
  end.

(** [arr.push(x)]: defined on arrays only; on any other value the call is
    a [TypeError]. *)
Definition push (arr : JSON) (x : JSON) : option JSON :=
  match arr with
  | JArr items => Some (JArr (items ++ [x]))
  | _ => None
  end.

(** [String(n)] for an integer. *)
Definition String_of (n : Z) : string := NilZero.string_of_int (Z.to_int n).

Definition lower_ascii (c : ascii) : ascii :=
  let n := nat_of_ascii c in
  if (Nat.leb 65 n && Nat.leb n 90)%bool then ascii_of_nat (n + 32) else c.

Definition upper_ascii (c : ascii) : ascii :=
  let n := nat_of_ascii c in
  if (Nat.leb 97 n && Nat.leb n 122)%bool then ascii_of_nat (n - 32) else c.

Fixpoint map_chars (f : ascii -> ascii) (s : string) : string :=
  match s with
  | EmptyString => EmptyString
  | String c rest => String (f c) (map_chars f rest)
  end.

(** [s.toLowerCase()] and [s.toUpperCase()], on the ASCII letters. *)
Definition toLowerCase (s : string) : string := map_chars lower_ascii s.
Definition toUpperCase (s : string) : string := map_chars upper_ascii s.

(** [s.startsWith(p)] *)
Definition startsWith (p s : string) : bool := String.prefix p s.

(** [s.includes(sub)]: [sub] occurs somewhere in [s]. *)
Fixpoint str_includes (sub s : string) : bool :=
  (String.prefix sub s ||
   match s with
   | EmptyString => false
   | String _ rest => str_includes sub rest
   end)%bool.

(** [s.replace(a, b)] with a one-character pattern: the first occurrence
    only. *)
Fixpoint replace_first (a b : ascii) (s : string) : string :=
  match s with
  | EmptyString => EmptyString
  | String c rest =>
      if Ascii.eqb c a then String b rest else String c (replace_first a b rest)
  end.

Definition is_space (c : ascii) : bool :=
  let n := nat_of_ascii c in
  (Nat.eqb n 32 || (Nat.leb 9 n && Nat.leb n 13))%bool.

Fixpoint trim_start (s : string) : string :=
  match s with
  | String c rest => if is_space c then trim_start rest else s
  | EmptyString => EmptyString
  end.

Fixpoint trim_end (s : string) : string :=
  match s with
  | EmptyString => EmptyString
  | String c rest =>
      match trim_end rest with
      | EmptyString => if is_space c then EmptyString else String c EmptyString
      | kept => String c kept
      end
  end.

(** [s.trim()], on ASCII text: tab, line feed, vertical tab, form feed,
    carriage return and space are the white space. *)
Definition trim (s : string) : string := trim_end (trim_start s).

(** [arr.join(sep)] *)
Definition join (sep : string) (arr : list string) : string := String.concat sep arr.

End JS.

Import JS.

(** ** The relational store ([db.js]) *)

(** The four application tables. *)
Inductive AppTable : Type :=
| visa_applications
| marriage_applications
| birth_certificate_applications
| travel_pass_applications.

Definition table_name (t : AppTable) : string :=
  match t with
  | visa_applications => "visa_applications"
  | marriage_applications => "marriage_applications"
  | birth_certificate_applications => "birth_certificate_applications"
  | travel_pass_applications => "travel_pass_applications"
  end.

(** A row of an application table.  The columns every table has are
    fields; the columns of the form ([visa_type], [first_name],
    [spouse1_first_name], ...) are kept by name in [form]. *)
Record Application : Type := {
  id : Z;
  user_name : string;
  status : string;
  tracking_number : option string;
  shipping_carrier : option string;
  status_history : option string;
  form : list (string * JSON);
  created_at : string;
  updated_at : string
}.

(** A row of [login]. *)
Record User : Type := {
  user_id : Z;
  username : string;
  password : string;
  firstname : string;
  lastname : string
}.

(** A row of [chat_conversations]. *)
Record Conversation : Type := {
  conv_id : Z;
  session_id : string;
  conv_user_name : string;
  conv_user_email : string;
  conv_status : string;
  last_message_at : string;
  conv_created_at : string
}.

(** A row of [chat_messages]. *)
Record Message : Type := {
  msg_id : Z;
  conversation_id : Z;
  sender_type : string;
  sender_name : option string;
  message : string;
  msg_created_at : string
}.

Record Store : Type := {
  login : list User;
  visa : list Application;
  marriage : list Application;
  birth_certificate : list Application;
  travel_pass : list Application;
  chat_conversations : list Conversation;
  chat_messages : list Message
}.

(** The schema right after [initDB] on a fresh database. *)
Definition empty_store : Store :=
  {| login := []; visa := []; marriage := []; birth_certificate := [];
     travel_pass := []; chat_conversations := []; chat_messages := [] |}.

Definition table_rows (t : AppTable) (s : Store) : list Application :=
  match t with
  | visa_applications => visa s
  | marriage_applications => marriage s
  | birth_certificate_applications => birth_certificate s
  | travel_pass_applications => travel_pass s
  end.

Definition set_rows (t : AppTable) (l : list Application) (s : Store) : Store :=
  match t with
  | visa_applications =>
      {| login := login s; visa := l; marriage := marriage s;
         birth_certificate := birth_certificate s; travel_pass := travel_pass s;
         chat_conversations := chat_conversations s; chat_messages := chat_messages s |}
  | marriage_applications =>
      {| login := login s; visa := visa s; marriage := l;
         birth_certificate := birth_certificate s; travel_pass := travel_pass s;
         chat_conversations := chat_conversations s; chat_messages := chat_messages s |}
  | birth_certificate_applications =>
      {| login := login s; visa := visa s; marriage := marriage s;
         birth_certificate := l; travel_pass := travel_pass s;
         chat_conversations := chat_conversations s; chat_messages := chat_messages s |}
  | travel_pass_applications =>
      {| login := login s; visa := visa s; marriage := marriage s;
         birth_certificate := birth_certificate s; travel_pass := l;
         chat_conversations := chat_conversations s; chat_messages := chat_messages s |}
  end.

Definition set_login (l : list User) (s : Store) : Store :=
  {| login := l; visa := visa s; marriage := marriage s;
     birth_certificate := birth_certificate s; travel_pass := travel_pass s;
     chat_conversations := chat_conversations s; chat_messages := chat_messages s |}.

Definition set_chat_conversations (l : list Conversation) (s : Store) : Store :=
  {| login := login s; visa := visa s; marriage := marriage s;
     birth_certificate := birth_certificate s; travel_pass := travel_pass s;
     chat_conversations := l; chat_messages := chat_messages s |}.

(** [AUTO_INCREMENT]: no handler deletes a row, so the next key is one more
    than the largest key present. *)
Definition next_key (keys : list Z) : Z := 1 + fold_right Z.max 0 keys.

(** [UPDATE t SET ... WHERE id = ?] on the rows of a table. *)
Definition update_where_id (key : Z) (f : Application -> Application)
    (l : list Application) : list Application :=
  map (fun r => if id r =? key then f r else r) l.

(** [SELECT ... FROM t WHERE id = ?] *)
Definition select_where_id (key : Z) (l : list Application) : list Application :=
  filter (fun r => id r =? key) l.

(** A PRIMARY KEY: no key occurs twice. *)
Fixpoint distinct (keys : list Z) : bool :=
  match keys with
  | [] => true
  | k :: rest => (negb (existsb (Z.eqb k) rest) && distinct rest)%bool
  end.

(** An UPDATE that may fail on a row: it changes the table only when it
    succeeds on every row it reaches. *)
Fixpoint update_each (f : Application -> option Application) (l : list Application)
  : option (list Application) :=
  match l with
  | [] => Some []
  | r :: rest =>
      match f r, update_each f rest with
      | Some r', Some rest' => Some (r' :: rest')
      | _, _ => None
      end
  end.

(** [SELECT ... FROM t WHERE user_name = ?] *)
Definition select_where_user_name (name : string) (l : list Application) : list Application :=
  filter (fun r => (user_name r =? name)%string) l.

(** ** Responses, mail and the world a handler runs in *)

(** What [bwipjs] and [pdfkit] are given: the barcode text and the row. *)
Record PdfDocument : Type := {
  filename : string;
  barcode_text : string;
  rendered : Application
}.

Inductive Body : Type :=
| Json (j : JSON)
| Pdf (doc : PdfDocument).

Record Response : Type := {
  code : Z;
  body : Body
}.

(** The JSON a response carries, if it is not a document. *)
Definition body_of (r : Response) : option JSON :=
  match body r with
  | Json j => Some j
  | Pdf _ => None
  end.

(** [res.json(j)] and [res.status(c).json(j)] *)
Definition json (c : Z) (j : JSON) : Response := {| code := c; body := Json j |}.

(** [res.status(c).json({ error: msg })] *)
Definition error (c : Z) (msg : string) : Response := json c (JObj [("error", JStr msg)]).

(** A message handed to [sgMail.send].  [html] lists the values
    interpolated into the HTML template, in order; the fixed markup around
    them is not reproduced. *)
Record Email : Type := {
  to : string;
  from : string;
  subject : string;
  html : list string
}.

(** Exceptions the handlers can meet. *)
Inductive Error : Type :=
| SyntaxError          (* JSON.parse on text that is not JSON *)
| TypeError            (* a method call on a value that lacks it *)
| ER_DUP_ENTRY         (* a statement violating a PRIMARY or UNIQUE key *)
| ER_BAD_FIELD_ERROR   (* a statement naming a column the table lacks *)
| ER_OTHER             (* any other statement the database rejects *)
| MailError.           (* sgMail.send rejected *)

(** The statements sent through [pool.query], by kind and table. *)
Inductive Sql : Type :=
| SELECT (table : string)
| INSERT (table : string)
| UPDATE (table : string).

Record World : Type := {
  db : Store;
  outbox : list Email;        (* mails SendGrid accepted, oldest first *)
  console : list string;      (* console.error lines, oldest first *)
  queries : list Sql          (* statements issued, oldest first *)
}.

Definition fresh_world : World :=
  {| db := empty_store; outbox := []; console := []; queries := [] |}.

(** Process configuration ([process.env]) and the mail provider's verdict
    on each message. *)
Record Env : Type := {
  SENDGRID_API_KEY : option string;
  CONTACT_FROM : string;
  JWT_SECRET : string;
  JWT_EXPIRES_IN : string;
  sgMail_accepts : Email -> bool
}.

(** ** The handler monad *)

Inductive Outcome (A : Type) : Type :=
| Next (a : A)               (* the statement completed with a value *)
| Responded (r : Response)   (* [return res...]: the handler is over *)
| Thrown (e : Error).        (* an exception is propagating *)

Arguments Next {A} a.
Arguments Responded {A} r.
Arguments Thrown {A} e.

Definition Handler (A : Type) : Type := World -> Outcome A * World.

Definition ret {A} (a : A) : Handler A := fun w => (Next a, w).

Definition bind {A B} (m : Handler A) (k : A -> Handler B) : Handler B :=
  fun w =>
    match m w with
    | (Next a, w') => k a w'
    | (Responded r, w') => (Responded r, w')
    | (Thrown e, w') => (Thrown e, w')
    end.

Declare Scope handler_scope.
Delimit Scope handler_scope with handler.
Notation "x <- m ;; k" := (bind m (fun x => k))
  (at level 100, m at next level, right associativity) : handler_scope.
Notation "m ;; k" := (bind m (fun _ => k))
  (at level 100, right associativity) : handler_scope.
Open Scope handler_scope.

(** [return res.status(..).json(..)] *)
Definition respond {A} (r : Response) : Handler A := fun w => (Responded r, w).

(** [throw e] *)
Definition throw {A} (e : Error) : Handler A := fun w => (Thrown e, w).

(** [try { body } catch (e) { handler(e) }] *)
Definition try_catch {A} (body : Handler A) (handler : Error -> Handler A) : Handler A :=
  fun w =>
    match body w with
    | (Thrown e, w') => handler e w'
    | done => done
    end.

(** [console.error(line)] *)
Definition console_error (line : string) : Handler unit :=
  fun w => (Next tt, {| db := db w; outbox := outbox w;
                        console := console w ++ [line]; queries := queries w |}).

(** [await pool.query(..)]: the statement is logged and run on the store. *)
Definition pool_query {A} (q : Sql) (run : Store -> Outcome A * Store) : Handler A :=
  fun w =>
    let (o, s) := run (db w) in
    (o, {| db := s; outbox := outbox w; console := console w;
           queries := queries w ++ [q] |}).

(** The response a request gets.  Every handler catches what it throws; an
    exception that escaped would leave the request unanswered (code 0). *)
Definition unanswered : Response := error 0 "no response".

Definition answer (h : Handler Response) (w : World) : Response * World :=
  match h w with
  | (Next r, w') => (r, w')
  | (Responded r, w') => (r, w')
  | (Thrown _, w') => (unanswered, w')
  end.

(** Method calls on request values: a receiver of the wrong type is a
    [TypeError]. *)
Definition call_toLowerCase (v : Value) : Handler string :=
  match v with
  | Some (JStr s) => ret (toLowerCase s)
  | _ => throw TypeError
  end.

Definition call_trim (v : Value) : Handler string :=
  match v with
  | Some (JStr s) => ret (trim s)
  | _ => throw TypeError
  end.

Definition call_toUpperCase (v : Value) : Handler string :=
  match v with
  | Some (JStr s) => ret (toUpperCase s)
  | _ => throw TypeError
  end.

(** Whether the driver writes a parameter as one SQL literal.  It does so
    for [null], strings, numbers and booleans; an array it writes as a
    comma-separated list of literals and an object as a list of
    [`key` = value] assignments, so that the statement the database gets
    is another one. *)
Definition scalar (j : JSON) : bool :=
  match j with
  | JArr _ => false
  | JObj _ => false
  | _ => true
  end.

(** The text a column holds after a scalar parameter is stored in it.
    Where a parameter of a VALUES list is an array or an object the store
    keeps the empty text; in a SET list or a WHERE clause such a parameter
    is not bound through this function (see [update_tracking] and
    [select_conversation_by]). *)
Definition sql_text (j : JSON) : option string :=
  match j with
  | JNull => None
  | JStr s => Some s
  | JNum n => Some (String_of n)
  | JBool true => Some "1"
  | JBool false => Some "0"
  | JArr _ => Some ""
  | JObj _ => Some ""
  end.

(** A parameter of a VALUES list stored in a text column that is NOT NULL. *)
Definition bound (v : Value) : string :=
  match v with
  | Some j =>
      match sql_text j with
      | Some text => text
      | None => ""
      end
  | None => ""
  end.

(** A nullable text column read in a condition: NULL and [''] are falsy. *)
Definition present (c : option string) : option string :=
  match c with
  | Some s => if (s =? "")%string then None else Some s
  | None => None
  end.

(** The JSON a text column reads back as. *)
Definition text_json (c : option string) : JSON :=
  match c with
  | Some s => JStr s
  | None => JNull
  end.

(** A row as [SELECT *] returns it. *)
Definition row_json (r : Application) : JSON :=
  JObj ([("id", JNum (id r)); ("user_name", JStr (user_name r))] ++ form r ++
        [("status", JStr (status r));
         ("tracking_number", text_json (tracking_number r));
         ("shipping_carrier", text_json (shipping_carrier r));
         ("status_history", text_json (status_history r));
         ("created_at", JStr (created_at r));
         ("updated_at", JStr (updated_at r))]).

(** A named column of a row. *)
Definition column (name : string) (r : Application) : Value :=
  match row_json r with
  | JObj fields => get name fields
  | _ => None
  end.

(** [`${v || ''}`] for a text column. *)
Definition or_empty (v : Value) : string := if truthy v then str v else "".

(** The payload of an identity token. *)
Record Claims : Type := {
  claim_id : Z;
  claim_username : string;
  isAdmin : bool
}.

(** The credentials a request carries. *)
Record Credentials : Type := {
  authorization : option string;   (* req.headers.authorization *)
  cookie_token : option string     (* req.cookies?.token *)
}.

(** The rule sets of [validation.js]. *)
Inductive Validation : Type :=
| signupValidation
| loginValidation
| contactValidation
| visaApplicationValidation.

(** A request to one of the routes above.  [key] is the number the
    database reads in the [:id] segment of the path. *)
Inductive Request : Type :=
| POST_signup (body : list (string * JSON))
| POST_login (body : list (string * JSON))
| POST_application (t : AppTable) (cred : Credentials) (body : list (string * JSON))
| PUT_status (t : AppTable) (cred : Credentials) (key : Z) (body : list (string * JSON))
| PUT_tracking (t : AppTable) (cred : Credentials) (key : Z) (body : list (string * JSON))
| GET_application (t : AppTable) (cred : Credentials) (key : Z)
| GET_application_pdf (t : AppTable) (cred : Credentials) (key : Z)
| GET_applications_of_user (t : AppTable) (cred : Credentials) (username : string)
| POST_chat_conversation (body : list (string * JSON)).

(** ** Reference instances of the library code

    A small JSON codec, a token format, a password hash and a permissive
    validator, used to run the server on concrete requests. *)

Module Ref.

Definition dquote : ascii := "034"%char.
Definition backslash : ascii := "092"%char.

Fixpoint escape (s : string) : string :=
  match s with
  | EmptyString => EmptyString
  | String c rest =>
      if (Ascii.eqb c dquote || Ascii.eqb c backslash)%bool
      then String backslash (String c (escape rest))
      else String c (escape rest)
  end.

Definition quoted (s : string) : string :=
  String dquote (escape s ++ String dquote EmptyString).

(** Serialization without insignificant white space, as [JSON.stringify]
    prints it. *)
Fixpoint stringify (j : JSON) : string :=
  match j with
  | JNull => "null"
  | JBool true => "true"
  | JBool false => "false"
  | JNum n => String_of n
  | JStr s => quoted s
  | JArr items => "[" ++ join "," (map stringify items) ++ "]"
  | JObj fields =>
      "{" ++ join "," (map (fun kv => quoted (fst kv) ++ ":" ++ stringify (snd kv)) fields)
          ++ "}"
  end.

Fixpoint skip_ws (s : string) : string :=
  match s with
  | String c rest => if is_space c then skip_ws rest else s
  | EmptyString => EmptyString
  end.

(** The characters of a string literal after its opening quote, and what
    follows the closing quote. *)
Fixpoint string_body (s : string) : option (string * string) :=
  match s with
  | EmptyString => None
  | String c rest =>
      if Ascii.eqb c dquote then Some (EmptyString, rest)
      else if Ascii.eqb c backslash then
        match rest with
        | String e rest' =>
            match string_body rest' with
            | Some (chars, after) => Some (String e chars, after)
            | None => None
            end
        | EmptyString => None
        end
      else
        match string_body rest with
        | Some (chars, after) => Some (String c chars, after)
        | None => None
        end
  end.

Definition digit (c : ascii) : option Z :=
  let n := nat_of_ascii c in
  if (Nat.leb 48 n && Nat.leb n 57)%bool then Some (Z.of_nat (n - 48)) else None.

(** The digits at the head of [s], read after the value [acc]. *)
Fixpoint digits (acc : Z) (s : string) : Z * string :=
  match s with
  | String c rest =>
      match digit c with
      | Some d => digits (10 * acc + d) rest
      | None => (acc, s)
      end
  | EmptyString => (acc, s)
  end.

Definition number (s : string) : option (Z * string) :=
  match s with
  | String c rest =>
      if Ascii.eqb c "-"%char then
        match rest with
        | String d _ =>
            match digit d with
            | Some _ => let (n, after) := digits 0 rest in Some (- n, after)
            | None => None
            end
        | EmptyString => None
        end
      else
        match digit c with
        | Some _ => Some (digits 0 s)
        | None => None
        end
  | EmptyString => None
  end.

Definition literal (word : string) (v : JSON) (s : string) : option (JSON * string) :=
  if String.prefix word s
  then Some (v, String.substring (String.length word)
                                 (String.length s - String.length word) s)
  else None.

(** Recursive descent; [fuel] bounds the nesting and the number of
    elements read. *)
Fixpoint value (fuel : nat) (s : string) : option (JSON * string) :=
  match fuel with
  | O => None
  | S fuel =>
      match skip_ws s with
      | EmptyString => None
      | String c rest =>
          if Ascii.eqb c "n"%char then literal "null" JNull (String c rest)
          else if Ascii.eqb c "t"%char then literal "true" (JBool true) (String c rest)
          else if Ascii.eqb c "f"%char then literal "false" (JBool false) (String c rest)
          else if Ascii.eqb c dquote then
            match string_body rest with
            | Some (chars, after) => Some (JStr chars, after)
            | None => None
            end
          else if Ascii.eqb c "["%char then
            match skip_ws rest with
            | String c' after =>
                if Ascii.eqb c' "]"%char then Some (JArr [], after)
                else
                  match elements fuel rest with
                  | Some (items, after') => Some (JArr items, after')
                  | None => None
                  end
            | EmptyString => None
            end
          else if Ascii.eqb c "{"%char then
            match skip_ws rest with
            | String c' after =>
                if Ascii.eqb c' "}"%char then Some (JObj [], after)
                else
                  match members fuel rest with
                  | Some (fields, after') => Some (JObj fields, after')
                  | None => None
                  end
            | EmptyString => None
            end
          else
            match number (String c rest) with
            | Some (n, after) => Some (JNum n, after)
            | None => None
            end
      end
  end
with elements (fuel : nat) (s : string) : option (list JSON * string) :=
  match fuel with
  | O => None
  | S fuel =>
      match value fuel s with
      | Some (v, after) =>
          match skip_ws after with
          | String c rest =>
              if Ascii.eqb c ","%char then
                match elements fuel rest with
                | Some (vs, after') => Some (v :: vs, after')
                | None => None
                end
              else if Ascii.eqb c "]"%char then Some ([v], rest)
              else None
          | EmptyString => None
          end
      | None => None
      end
  end
with members (fuel : nat) (s : string) : option (list (string * JSON) * string) :=
  match fuel with
  | O => None
  | S fuel =>
      match skip_ws s with
      | String q rest =>
          if Ascii.eqb q dquote then
            match string_body rest with
            | Some (key, after) =>
                match skip_ws after with
                | String colon rest' =>
                    if Ascii.eqb colon ":"%char then
                      match value fuel rest' with
                      | Some (v, after') =>
                          match skip_ws after' with
                          | String c rest'' =>
                              if Ascii.eqb c ","%char then
                                match members fuel rest'' with
                                | Some (kvs, after'') => Some ((key, v) :: kvs, after'')
                                | None => None
                                end
                              else if Ascii.eqb c "}"%char then Some ([(key, v)], rest'')
                              else None
                          | EmptyString => None
                          end
                      | None => None
                      end
                    else None
                | EmptyString => None
                end
            | None => None
            end
          else None
      | EmptyString => None
      end
  end.

(** [None] where [JSON.parse] throws a [SyntaxError]. *)
Definition parse (text : string) : option JSON :=
  match value (2 * String.length text + 2) text with
  | Some (v, after) =>
      match skip_ws after with
      | EmptyString => Some v
      | String _ _ => None
      end
  | None => None
  end.

(** A token is the secret, the admin flag, the id and the user name,
    separated by dots; the secret contains no dot. *)
Definition sign (payload : Claims) (secret expiresIn : string) : string :=
  secret ++ "." ++ (if isAdmin payload then "1" else "0") ++ "." ++
  String_of (claim_id payload) ++ "." ++ claim_username payload.

Definition verify (token secret : string) : option Claims :=
  if String.prefix (secret ++ ".") token then
    match String.substring (String.length secret + 1)
                           (String.length token - (String.length secret + 1)) token with
    | String flag (String dot rest) =>
        if Ascii.eqb dot "."%char then
          match number rest with
          | Some (n, String dot' name) =>
              if Ascii.eqb dot' "."%char then
                if Ascii.eqb flag "1"%char then
                  Some {| claim_id := n; claim_username := name; isAdmin := true |}
                else if Ascii.eqb flag "0"%char then
                  Some {| claim_id := n; claim_username := name; isAdmin := false |}
                else None
              else None
          | _ => None
          end
        else None
    | _ => None
    end
  else None.

Definition hash (plain : string) : string := "$2b$10$" ++ plain.

Definition compare (plain hashed : string) : bool := (hashed =? hash plain)%string.

(** A database in strict mode on the UPDATE of a tracking route whose
    carrier the driver expanded.  An array of one string is written as
    that string.  An object [{ k1: v1, k2: v2, .. }] arrives as
    [shipping_carrier = `k1` = v1, `k2` = v2, ..]: the carrier column gets
    the truth value of the comparison, which the column reads as an index
    of its enum ['usps', 'ups', 'fedex'], and the other fields are
    assigned to their columns.  The reference knows an array of one
    carrier of that enum, a comparison of [id] with the number the row
    has (true, index 1, ['usps']) and assignments of strings to [status]
    (within the column's enum) and to [user_name]; it rejects every other
    carrier. *)
Definition status_column (t : AppTable) : list string :=
  match t with
  | travel_pass_applications =>
      ["pending"; "under_review"; "approved"; "denied"; "issued"; "collected"]
  | _ => ["pending"; "under_review"; "approved"; "denied"; "shipped"]
  end.

Fixpoint assign (t : AppTable) (fields : list (string * JSON)) (r : Application)
  : option Application :=
  match fields with
  | [] => Some r
  | (column, JStr text) :: rest =>
      if (column =? "status")%string then
        if existsb (String.eqb text) (status_column t) then
          assign t rest
            {| id := id r; user_name := user_name r; status := text;
               tracking_number := tracking_number r; shipping_carrier := shipping_carrier r;
               status_history := status_history r; form := form r;
               created_at := created_at r; updated_at := updated_at r |}
        else None
      else if (column =? "user_name")%string then
        assign t rest
          {| id := id r; user_name := text; status := status r;
             tracking_number := tracking_number r; shipping_carrier := shipping_carrier r;
             status_history := status_history r; form := form r;
             created_at := created_at r; updated_at := updated_at r |}
      else None
  | _ => None
  end.

Definition set_expanded (t : AppTable) (number : string) (carrier : JSON) (now : string)
    (r : Application) : option Application :=
  let tracked (c : option string) :=
    {| id := id r; user_name := user_name r; status := status r;
       tracking_number := Some number; shipping_carrier := c;
       status_history := status_history r; form := form r;
       created_at := created_at r; updated_at := now |} in
  match carrier with
  | JArr [JStr c] =>
      if existsb (String.eqb c) ["usps"; "ups"; "fedex"] then Some (tracked (Some c))
      else None
  | JObj ((column, JNum n) :: rest) =>
      if ((column =? "id")%string && (id r =? n))%bool
      then assign t rest (tracked (Some "usps"))
      else None
  | _ => None
  end.

(** The same database comparing [session_id] with a number, alone or as
    the one element of an array, or with [true], which it reads as 1: the
    stored text is read as a number first, and text that does not start
    with digits reads as 0.  The reference reads the whole number a text
    starts with and rejects every other parameter. *)
Definition to_number (text : string) : Z :=
  match number (skip_ws text) with
  | Some (n, _) => n
  | None => 0
  end.

Definition where_session (sessionId : JSON) : option (Conversation -> bool) :=
  match sessionId with
  | JNum n => Some (fun c => to_number (session_id c) =? n)
  | JArr [JNum n] => Some (fun c => to_number (session_id c) =? n)
  | JBool true => Some (fun c => to_number (session_id c) =? 1)
  | _ => None
  end.

(** Every body passes, unchanged. *)
Definition validator (rules : Validation) (body : list (string * JSON))
  : string + list (string * JSON) := inr body.

(** A deployment with mail configured and a provider that accepts mail. *)
Definition env : Env :=
  {| SENDGRID_API_KEY := Some "SG.key";
     CONTACT_FROM := "no-reply@usrcaembassy.org";
     JWT_SECRET := "your-secret-key-change-in-production";
     JWT_EXPIRES_IN := "7d";
     sgMail_accepts := fun _ => true |}.

(** The same deployment with a provider that rejects every message. *)
Definition env_mail_down : Env :=
  {| SENDGRID_API_KEY := Some "SG.key";
     CONTACT_FROM := "no-reply@usrcaembassy.org";
     JWT_SECRET := "your-secret-key-change-in-production";
     JWT_EXPIRES_IN := "7d";
     sgMail_accepts := fun _ => false |}.

(** Sample data. *)
Definition now : string := "2025-03-01T10:00:00.000Z".

Definition alice : Claims :=
  {| claim_id := 1; claim_username := "alice@example.com"; isAdmin := false |}.

Definition admin : Claims :=
  {| claim_id := 3; claim_username := "admin@embassy.org"; isAdmin := true |}.

(** An application of [owner] with the given status and stored history. *)
Definition application (key : Z) (owner st : string) (history : option string)
  : Application :=
  {| id := key; user_name := owner; status := st;
     tracking_number := None; shipping_carrier := None;
     status_history := history;
     form := [("first_name", JStr "Alice"); ("last_name", JStr "Martin")];
     created_at := "2025-02-01 09:00:00"; updated_at := "2025-02-01 09:00:00" |}.

(** A quiet world whose only rows are [l], in table [t]. *)
Definition holding (t : AppTable) (l : list Application) : World :=
  {| db := set_rows t l empty_store; outbox := []; console := []; queries := [] |}.

(** [{ status: 'approved' }] *)
Definition approve : list (string * JSON) := [("status", JStr "approved")].

(** A chat widget's first message for a session. *)
Definition hello (sid name : string) : list (string * JSON) :=
  [("sessionId", JStr sid); ("userName", JStr name);
   ("userEmail", JStr "visitor@example.com")].

(** A signup form. *)
Definition signup_form (email : string) : list (string * JSON) :=
  [("username", JStr email); ("password", JStr "S3cret!pass");
   ("firstName", JStr "Ada"); ("lastName", JStr "Admin")].

(** A header carrying a token signed with the deployment's secret. *)
Definition bearer (who : Claims) : Credentials :=
  {| authorization := Some ("Bearer " ++ sign who (JWT_SECRET env) (JWT_EXPIRES_IN env));
     cookie_token := None |}.

(** Alice submits a short-stay visa application. *)
Definition submit_visa : Request :=
  POST_application visa_applications (bearer alice)
    [("userName", JStr "alice@example.com"); ("visaType", JStr "shortStay");
     ("firstName", JStr "Alice"); ("lastName", JStr "Martin")].

(** An administrator approves application 1. *)
Definition approve_visa : Request := PUT_status visa_applications (bearer admin) 1 approve.

End Ref.

(** ** The server *)

Section Server.

(** Library code the server calls. *)
Variable JSON_parse : string -> option JSON.     (* [None]: it throws *)
Variable JSON_stringify : JSON -> string.
Variable bcrypt_hash : string -> string.
Variable bcrypt_compare : string -> string -> bool.
Variable jwt_sign : Claims -> string -> string -> string.
Variable jwt_verify : string -> string -> option Claims.   (* [None]: it throws *)
(** [express-validator] running a rule set on a body: the message of the
    first violated rule, or the sanitized body. *)
Variable express_validator : Validation -> list (string * JSON) -> string + list (string * JSON).
(** The driver and the database on the two statements of the server whose
    text changes with the shape of a parameter.
    [UPDATE t SET tracking_number = ?, shipping_carrier = ?, updated_at = NOW() WHERE id = ?]
    with an array or an object as the carrier: what the statement makes of
    a row that has the id, given the table, the tracking number, the
    carrier and the time; [None] when the database rejects the statement.
    An object carrier [{ k1: v1, k2: v2, .. }] reaches the database as
    [shipping_carrier = `k1` = v1, `k2` = v2, ..]: further columns of the
    row are assigned. *)
Variable sql_set_expanded : AppTable -> string -> JSON -> string -> Application -> option Application.
(** [SELECT .. FROM chat_conversations WHERE session_id = ?] with a
    parameter that is not a string (a number is compared as a number, an
    array or an object is expanded): the rows the database finds the
    condition true of; [None] when it rejects the statement. *)
Variable sql_where_session : JSON -> option (Conversation -> bool).

Variable env : Env.

Set Default Proof Using "Type".

(** *** auth.js *)

Definition generateToken (payload : Claims) : string :=
  jwt_sign payload (JWT_SECRET env) (JWT_EXPIRES_IN env).

Definition verifyToken (token : string) : option Claims :=
  jwt_verify token (JWT_SECRET env).

(** The token a request presents: the bearer token of the authorization
    header, else the [token] cookie. *)
Definition presented_token (cred : Credentials) : option string :=
  match authorization cred with
  | Some authHeader =>
      if ((negb (authHeader =? "")%string) && startsWith "Bearer " authHeader)%bool
      then Some (String.substring 7 (String.length authHeader - 7) authHeader)
      else cookie_token cred
  | None => cookie_token cred
  end.

Definition authMiddleware (cred : Credentials) (next : Claims -> Handler Response)
  : Handler Response :=
  match presented_token cred with
  | None => respond (error 401 "Authentication required")
  | Some token =>
      if (token =? "")%string then respond (error 401 "Authentication required")
      else
        match verifyToken token with
        | None => respond (error 401 "Invalid or expired token")
        | Some decoded => next decoded
        end
  end.

Definition adminMiddleware (user : option Claims) (next : Handler Response)
  : Handler Response :=
  match user with
  | None => respond (error 403 "Admin access required")
  | Some u =>
      if negb (isAdmin u) then respond (error 403 "Admin access required")
      else next
  end.

(** A rule set of [validation.js] ahead of a handler, ending in
    [handleValidationErrors]. *)
Definition validated (rules : Validation) (body : list (string * JSON))
    (next : list (string * JSON) -> Handler Response) : Handler Response :=
  match express_validator rules body with
  | inl msg => respond (error 400 msg)
  | inr sanitized => next sanitized
  end.

(** [JSON.parse(text)] *)
Definition parse (text : string) : Handler JSON :=
  match JSON_parse text with
  | Some j => ret j
  | None => throw SyntaxError
  end.

(** [await sgMail.send(mail)] *)
Definition sgMail_send (mail : Email) : Handler unit :=
  fun w =>
    if sgMail_accepts env mail
    then (Next tt, {| db := db w; outbox := outbox w ++ [mail];
                      console := console w; queries := queries w |})
    else (Thrown MailError, w).

(** [if (SENDGRID_API_KEY)] *)
Definition mail_configured : bool :=
  match SENDGRID_API_KEY env with
  | Some key => negb (key =? "")%string
  | None => false
  end.

(** *** POST /api/signup and POST /api/login *)

(** [await bcrypt.hash(data, 10)] and [await bcrypt.compare(data, hash)]:
    data that is not a string is refused with an exception. *)
Definition call_hash (data : Value) : Handler string :=
  match data with
  | Some (JStr plain) => ret (bcrypt_hash plain)
  | _ => throw TypeError
  end.

Definition call_compare (data : Value) (hashed : string) : Handler bool :=
  match data with
  | Some (JStr plain) => ret (bcrypt_compare plain hashed)
  | _ => throw TypeError
  end.

Definition claims_json (c : Claims) (fullName : string) : JSON :=
  JObj [("id", JNum (claim_id c)); ("username", JStr (claim_username c));
        ("fullName", JStr fullName); ("isAdmin", JBool (isAdmin c))].

(** [INSERT INTO login (username, password, firstname, lastname)]:
    [username] is a UNIQUE key. *)
Definition insert_login (name hash first last : string) : Handler Z :=
  pool_query (INSERT "login") (fun s =>
    if existsb (fun u => (username u =? name)%string) (login s)
    then (Thrown ER_DUP_ENTRY, s)
    else
      let key := next_key (map user_id (login s)) in
      (Next key,
       set_login (login s ++ [{| user_id := key; username := name; password := hash;
                                 firstname := first; lastname := last |}]) s)).

Definition post_signup (body : list (string * JSON)) : Handler Response :=
  validated signupValidation body (fun body =>
    let body_username := get "username" body in
    let body_password := get "password" body in
    let firstName := get "firstName" body in
    let lastName := get "lastName" body in
    try_catch
      (hash <- call_hash body_password ;;
       name <- call_toLowerCase body_username ;;
       insertId <- insert_login name hash (str firstName) (str lastName) ;;
       let payload := {| claim_id := insertId; claim_username := name; isAdmin := false |} in
       let token := generateToken payload in
       ret (json 200 (JObj [("success", JBool true); ("token", JStr token);
                            ("user", claims_json payload
                                       (str firstName ++ " " ++ str lastName))])))
      (fun err =>
         match err with
         | ER_DUP_ENTRY => respond (error 409 "Email already registered")
         | _ => console_error "signup" ;; ret (error 500 "Server error")
         end)).

(** [SELECT * FROM login WHERE username = ?] *)
Definition select_login (name : string) : Handler (list User) :=
  pool_query (SELECT "login") (fun s =>
    (Next (filter (fun u => (username u =? name)%string) (login s)), s)).

Definition post_login (body : list (string * JSON)) : Handler Response :=
  validated loginValidation body (fun body =>
    let body_username := get "username" body in
    let body_password := get "password" body in
    try_catch
      (name <- call_toLowerCase body_username ;;
       rows <- select_login name ;;
       match rows with
       | [] => respond (error 401 "Invalid credentials")
       | user :: _ =>
           ok <- call_compare body_password (password user) ;;
           if negb ok then respond (error 401 "Invalid credentials")
           else
             let is_admin := str_includes "admin" (username user) in
             let payload := {| claim_id := user_id user;
                               claim_username := username user;
                               isAdmin := is_admin |} in
             let token := generateToken payload in
             ret (json 200 (JObj [("success", JBool true); ("token", JStr token);
                                  ("user", claims_json payload
                                             (firstname user ++ " " ++ lastname user))]))
       end)
      (fun _ => console_error "login" ;; ret (error 500 "Server error"))).

(** *** Queries on the application tables

    Of the constraints of the schema the store keeps the PRIMARY and
    UNIQUE keys and the names of the columns; the types, widths and
    NOT NULL marks of the columns are not modelled: the store accepts every
    value the handlers below send for a column the table has. *)

(** The columns of the form each table has besides [id], [user_name],
    [status], [tracking_number], [shipping_carrier], [status_history],
    [created_at] and [updated_at]: those of its CREATE TABLE in [db.js]. *)
Definition form_columns (t : AppTable) : list string :=
  match t with
  | visa_applications =>
      ["visa_type"; "first_name"; "last_name"; "gender"; "date_of_birth"; "place_of_birth";
       "city"; "country_of_birth"; "nationality_origin"; "nationality_current"; "address";
       "city_address"; "country_address"; "marital_status"; "father_name"; "profession";
       "employer"; "employer_address"]
  | birth_certificate_applications =>
      ["child_first_name"; "child_last_name"; "child_middle_name"; "child_birth_date";
       "child_birth_place"; "child_birth_country"; "child_gender"; "child_nationality";
       "father_first_name"; "father_last_name"; "father_birth_date"; "father_birth_place";
       "father_nationality"; "father_occupation"; "father_address";
       "mother_first_name"; "mother_last_name"; "mother_maiden_name"; "mother_birth_date";
       "mother_birth_place"; "mother_nationality"; "mother_occupation"; "mother_address";
       "applicant_relationship"; "applicant_first_name"; "applicant_last_name";
       "applicant_phone"; "applicant_email"; "applicant_address"; "certificate_purpose";
       "is_minor"; "original_registration_number"; "admin_notes"]
  | marriage_applications =>
      ["spouse1_first_name"; "spouse1_last_name"; "spouse1_birth_date"; "spouse1_birth_place";
       "spouse1_nationality"; "spouse1_passport_number"; "spouse1_address"; "spouse1_phone";
       "spouse1_email"; "spouse1_occupation"; "spouse1_father_name"; "spouse1_mother_name";
       "spouse2_first_name"; "spouse2_last_name"; "spouse2_birth_date"; "spouse2_birth_place";
       "spouse2_nationality"; "spouse2_passport_number"; "spouse2_address"; "spouse2_phone";
       "spouse2_email"; "spouse2_occupation"; "spouse2_father_name"; "spouse2_mother_name";
       "marriage_date"; "marriage_place"; "marriage_country"; "marriage_type";
       "certificate_purpose"; "admin_notes"]
  | travel_pass_applications =>
      ["first_name"; "last_name"; "maiden_name"; "date_of_birth"; "place_of_birth";
       "country_of_birth"; "gender"; "nationality"; "height"; "eye_color"; "hair_color";
       "distinguishing_marks"; "current_address"; "city"; "country"; "phone"; "email";
       "father_name"; "mother_name"; "mother_maiden_name"; "marital_status"; "spouse_name";
       "travel_reason"; "destination_country"; "destination_city"; "departure_date";
       "return_date"; "travel_duration"; "emergency_contact_name";
       "emergency_contact_relationship"; "emergency_contact_phone";
       "emergency_contact_address"; "passport_lost"; "passport_stolen"; "passport_expired";
       "previous_passport_number"; "passport_issue_date"; "passport_expiry_date";
       "police_report_number"; "police_report_date"; "admin_notes"; "issue_date";
       "expiry_date"; "document_number"]
  end.

(** Whether the table has every column an INSERT names. *)
Definition declared (t : AppTable) (columns : list (string * JSON)) : bool :=
  forallb (fun c => existsb (String.eqb (fst c)) (form_columns t)) columns.

(** [INSERT INTO t (...) VALUES (...)]: the row gets the next key, no
    tracking data and no history; the statement is refused when it names a
    column the table lacks. *)
Definition insert_application (t : AppTable) (owner : string) (initial : string)
    (columns : list (string * JSON)) (now : string) : Handler Z :=
  pool_query (INSERT (table_name t)) (fun s =>
    if declared t columns then
      let key := next_key (map id (table_rows t s)) in
      (Next key,
       set_rows t (table_rows t s ++ [{| id := key; user_name := owner; status := initial;
                                   tracking_number := None; shipping_carrier := None;
                                   status_history := None; form := columns;
                                   created_at := now; updated_at := now |}]) s)
    else (Thrown ER_BAD_FIELD_ERROR, s)).

(** [SELECT ... FROM t WHERE id = ?] *)
Definition select_application (t : AppTable) (key : Z) : Handler (list Application) :=
  pool_query (SELECT (table_name t)) (fun s => (Next (select_where_id key (table_rows t s)), s)).

(** [SELECT ... FROM t WHERE user_name = ? ORDER BY created_at DESC]:
    rows are created in insertion order, the newest comes first. *)
Definition select_by_user_name (t : AppTable) (name : string) : Handler (list Application) :=
  pool_query (SELECT (table_name t)) (fun s =>
    (Next (rev (select_where_user_name name (table_rows t s))), s)).

(** [UPDATE t SET status = ?, updated_at = NOW() WHERE id = ?] *)
Definition set_status (new_status now : string) (r : Application) : Application :=
  {| id := id r; user_name := user_name r; status := new_status;
     tracking_number := tracking_number r; shipping_carrier := shipping_carrier r;
     status_history := status_history r; form := form r;
     created_at := created_at r; updated_at := now |}.

(** [UPDATE t SET status = ?, status_history = ?, updated_at = NOW() WHERE id = ?] *)
Definition set_status_history (new_status history now : string) (r : Application)
  : Application :=
  {| id := id r; user_name := user_name r; status := new_status;
     tracking_number := tracking_number r; shipping_carrier := shipping_carrier r;
     status_history := Some history; form := form r;
     created_at := created_at r; updated_at := now |}.

(** [UPDATE t SET tracking_number = ?, shipping_carrier = ?, updated_at = NOW() WHERE id = ?] *)
Definition set_tracking (number : string) (carrier : option string) (now : string)
    (r : Application) : Application :=
  {| id := id r; user_name := user_name r; status := status r;
     tracking_number := Some number; shipping_carrier := carrier;
     status_history := status_history r; form := form r;
     created_at := created_at r; updated_at := now |}.

Definition update_application (t : AppTable) (key : Z) (f : Application -> Application)
  : Handler unit :=
  pool_query (UPDATE (table_name t)) (fun s =>
    (Next tt, set_rows t (update_where_id key f (table_rows t s)) s)).

(** [UPDATE t SET tracking_number = ?, shipping_carrier = ?, updated_at = NOW() WHERE id = ?]
    with the carrier as the handler passes it on.  A scalar carrier is
    stored in the column.  An array or an object is expanded by the driver
    and the rows with the id end up as [sql_set_expanded] says; the
    statement fails when the database rejects it or when it would leave a
    key twice in the table. *)
Definition update_tracking (t : AppTable) (key : Z) (number : string) (carrier : JSON)
    (now : string) : Handler unit :=
  if scalar carrier then
    update_application t key (set_tracking number (sql_text carrier) now)
  else
    pool_query (UPDATE (table_name t)) (fun s =>
      match update_each (fun r => if id r =? key
                                  then sql_set_expanded t number carrier now r
                                  else Some r)
                        (table_rows t s) with
      | Some rows =>
          if distinct (map id rows) then (Next tt, set_rows t rows s)
          else (Thrown ER_DUP_ENTRY, s)
      | None => (Thrown ER_OTHER, s)
      end).

(** A bound parameter: [undefined] is sent as NULL. *)
Definition param (v : Value) : JSON :=
  match v with
  | Some j => j
  | None => JNull
  end.

(** The columns filled from body fields: [raw] as given, [nullable] with
    [|| null].  Each pair is (column, body field). *)
Definition columns_of (body : list (string * JSON)) (raw nullable : list (string * string))
  : list (string * JSON) :=
  map (fun c => (fst c, param (get (snd c) body))) raw ++
  map (fun c => (fst c, or_null (get (snd c) body))) nullable.

Definition same (names : list string) : list (string * string) :=
  map (fun n => (n, n)) names.

(** *** POST /api/{type}-applications *)

Definition created (insertId : Z) : Response :=
  json 200 (JObj [("success", JBool true); ("id", JNum insertId)]).

Definition post_visa_application (user : Claims) (body : list (string * JSON))
    (now : string) : Handler Response :=
  validated visaApplicationValidation body (fun body =>
    let userName := claim_username user in
    try_catch
      (insertId <- insert_application visa_applications (toLowerCase userName) "pending"
         (columns_of body
            [("visa_type", "visaType")]
            [("first_name", "firstName"); ("last_name", "lastName"); ("gender", "gender");
             ("date_of_birth", "dateOfBirth"); ("place_of_birth", "placeOfBirth");
             ("city", "city"); ("country_of_birth", "countryOfBirth");
             ("nationality_origin", "nationalityOrigin");
             ("nationality_current", "nationalityCurrent"); ("address", "address");
             ("city_address", "cityAddress"); ("country_address", "countryAddress");
             ("marital_status", "maritalStatus"); ("father_name", "fatherName");
             ("profession", "profession"); ("employer", "employer");
             ("employer_address", "employerAddress")]) now ;;
       ret (created insertId))
      (fun _ => console_error "visa application" ;; ret (error 500 "Server error"))).

(** The INSERT names no [status]: the column default ['pending'] applies. *)
Definition post_marriage_application (user : Claims) (formData : list (string * JSON))
    (now : string) : Handler Response :=
  let userName := claim_username user in
  try_catch
    (insertId <- insert_application marriage_applications (toLowerCase userName) "pending"
       (columns_of formData
          (same ["spouse1_first_name"; "spouse1_last_name"; "spouse1_birth_date";
                 "spouse1_birth_place"; "spouse1_nationality"; "spouse1_address";
                 "spouse1_phone"; "spouse1_email";
                 "spouse2_first_name"; "spouse2_last_name"; "spouse2_birth_date";
                 "spouse2_birth_place"; "spouse2_nationality"; "spouse2_address";
                 "spouse2_phone"; "spouse2_email";
                 "marriage_date"; "marriage_place"; "marriage_country"; "marriage_type";
                 "certificate_purpose"])
          (same ["spouse1_passport_number"; "spouse1_occupation"; "spouse1_father_name";
                 "spouse1_mother_name"; "spouse2_passport_number"; "spouse2_occupation";
                 "spouse2_father_name"; "spouse2_mother_name"])) now ;;
     ret (created insertId))
    (fun _ => console_error "marriage application" ;; ret (error 500 "Server error")).

(** The INSERT names no [status]: the column default ['pending'] applies. *)
Definition post_birth_certificate_application (user : Claims)
    (formData : list (string * JSON)) (now : string) : Handler Response :=
  let userName := claim_username user in
  try_catch
    (insertId <- insert_application birth_certificate_applications (toLowerCase userName)
       "pending"
       (columns_of formData
          (same ["child_first_name"; "child_last_name"; "child_birth_date";
                 "child_birth_place"; "child_birth_country"; "child_gender";
                 "child_nationality"; "father_first_name"; "father_last_name";
                 "father_nationality"; "mother_first_name"; "mother_last_name";
                 "mother_nationality"; "applicant_phone"; "applicant_email";
                 "applicant_address"; "certificate_purpose"])
          (same ["child_middle_name"; "father_birth_date"; "father_birth_place";
                 "father_occupation"; "father_address"; "mother_maiden_name";
                 "mother_birth_date"; "mother_birth_place"; "mother_occupation";
                 "mother_address"; "applicant_first_name"; "applicant_last_name";
                 "original_registration_number"]) ++
        [("applicant_relationship",
          if truthy (get "applicant_relationship" formData)
          then param (get "applicant_relationship" formData) else JStr "parent");
         ("is_minor",
          JBool (match get "is_minor" formData with
                 | Some (JBool false) => false
                 | _ => true
                 end))]) now ;;
     ret (created insertId))
    (fun _ => console_error "birth certificate application" ;;
              ret (error 500 "Server error")).

Definition or_false (v : Value) : JSON := if truthy v then param v else JBool false.

(** The INSERT names a [user_id] column, which the CREATE TABLE of [db.js]
    does not declare and no migration adds: the database refuses the
    statement and the handler answers 500. *)
Definition post_travel_pass_application (user : Claims) (formData : list (string * JSON))
    (now : string) : Handler Response :=
  try_catch
    (insertId <- insert_application travel_pass_applications (claim_username user) "pending"
       ([("user_id", JNum (claim_id user))] ++
        columns_of formData
          (same ["first_name"; "last_name"; "date_of_birth"; "place_of_birth";
                 "country_of_birth"; "gender"; "nationality"; "current_address"; "city";
                 "country"; "phone"; "email"; "marital_status"; "travel_reason";
                 "destination_country"; "departure_date"; "emergency_contact_name";
                 "emergency_contact_relationship"; "emergency_contact_phone"])
          (same ["maiden_name"; "height"; "eye_color"; "hair_color";
                 "distinguishing_marks"; "father_name"; "mother_name";
                 "mother_maiden_name"; "spouse_name"; "destination_city"; "return_date";
                 "travel_duration"; "emergency_contact_address";
                 "previous_passport_number"; "passport_issue_date";
                 "passport_expiry_date"; "police_report_number"; "police_report_date"]) ++
        [("passport_lost", or_false (get "passport_lost" formData));
         ("passport_stolen", or_false (get "passport_stolen" formData));
         ("passport_expired", or_false (get "passport_expired" formData))]) now ;;
     ret (created insertId))
    (fun _ => console_error "travel pass application" ;;
              ret (error 500 "Failed to submit application")).

(** *** PUT /api/{type}-applications/:id/status *)

(** [validStatuses] of the visa, marriage and birth-certificate handlers. *)
Definition validStatuses : list string :=
  ["pending"; "under_review"; "approved"; "denied"; "shipped"].

(** [validStatuses] of the travel-pass handler. *)
Definition travel_validStatuses : list string :=
  ["pending"; "under_review"; "approved"; "denied"; "issued"; "collected"].

(** [statusMessages[status]] of the visa handler. *)
Definition statusMessages (new_status : string) : string :=
  if (new_status =? "pending")%string then
    "Your visa application is pending review."
  else if (new_status =? "under_review")%string then
    "Your visa application is now under review. We will notify you of any updates."
  else if (new_status =? "approved")%string then
    "Congratulations! Your visa application has been approved."
  else if (new_status =? "denied")%string then
    "We regret to inform you that your visa application has been denied. Please contact us for more information."
  else if (new_status =? "shipped")%string then
    "Your passport has been shipped. You will receive tracking information shortly."
  else "undefined".

(** The record pushed on the visa history. *)
Definition history_entry (new_status changedBy changedAt previousStatus : string) : JSON :=
  JObj [("status", JStr new_status); ("changedBy", JStr changedBy);
        ("changedAt", JStr changedAt); ("previousStatus", JStr previousStatus)].

(** The record pushed on the travel-pass history. *)
Definition travel_history_entry (new_status timestamp : string) : JSON :=
  JObj [("status", JStr new_status); ("timestamp", JStr timestamp)].

Definition status_mail (application : Application) (new_status : string) : Email :=
  let label := toUpperCase (replace_first "_" " " new_status) in
  {| to := user_name application;
     from := CONTACT_FROM env;
     subject := "Visa Application Status Update - " ++ label;
     html := [or_empty (column "first_name" application);
              or_empty (column "last_name" application);
              String_of (id application);
              label;
              statusMessages new_status] |}.

(** [statusHistory.push(entry)] *)
Definition call_push (arr entry : JSON) : Handler JSON :=
  match push arr entry with
  | Some pushed => ret pushed
  | None => throw TypeError
  end.

Definition put_visa_status (user : Claims) (key : Z) (body : list (string * JSON))
    (now : string) : Handler Response :=
  let new_status := get "status" body in
  if (negb (truthy new_status) || negb (includes validStatuses new_status))%bool then
    respond (error 400 ("Invalid status. Must be one of: " ++ join ", " validStatuses))
  else
    try_catch
      (found <- select_application visa_applications key ;;
       match found with
       | [] => respond (error 404 "Application not found")
       | application :: _ =>
           let oldStatus := status application in
           statusHistory <-
             (match present (status_history application) with
              | Some text => try_catch (parse text) (fun _ => ret (JArr []))
              | None => ret (JArr [])
              end) ;;
           statusHistory' <-
             call_push statusHistory
               (history_entry (str new_status) (claim_username user) now oldStatus) ;;
           update_application visa_applications key
             (set_status_history (str new_status) (JSON_stringify statusHistory') now) ;;
           (if mail_configured then
              try_catch (sgMail_send (status_mail application (str new_status)))
                        (fun _ => console_error "Failed to send status update email:")
            else ret tt) ;;
           ret (json 200 (JObj [("success", JBool true);
                                ("application",
                                 JObj [("id", JNum (id application));
                                       ("status", JStr (str new_status));
                                       ("previousStatus", JStr oldStatus)])]))
       end)
      (fun _ => console_error "visa status" ;; ret (error 500 "Server error")).

Definition put_marriage_status (key : Z) (body : list (string * JSON)) (now : string)
  : Handler Response :=
  let new_status := get "status" body in
  if (negb (truthy new_status) || negb (includes validStatuses new_status))%bool then
    respond (error 400 "Invalid status")
  else
    try_catch
      (update_application marriage_applications key (set_status (str new_status) now) ;;
       ret (json 200 (JObj [("success", JBool true)])))
      (fun _ => console_error "marriage status" ;; ret (error 500 "Server error")).

Definition put_birth_certificate_status (key : Z) (body : list (string * JSON))
    (now : string) : Handler Response :=
  let new_status := get "status" body in
  if (negb (truthy new_status) || negb (includes validStatuses new_status))%bool then
    respond (error 400 "Invalid status")
  else
    try_catch
      (update_application birth_certificate_applications key
         (set_status (str new_status) now) ;;
       ret (json 200 (JObj [("success", JBool true)])))
      (fun _ => console_error "birth certificate status" ;; ret (error 500 "Server error")).

Definition put_travel_pass_status (key : Z) (body : list (string * JSON)) (now : string)
  : Handler Response :=
  let new_status := get "status" body in
  if negb (includes travel_validStatuses new_status) then
    respond (error 400 "Invalid status")
  else
    try_catch
      (current <- select_application travel_pass_applications key ;;
       history <-
         (match current with
          | row :: _ =>
              match present (status_history row) with
              | Some text => parse text
              | None => ret (JArr [])
              end
          | [] => ret (JArr [])
          end) ;;
       history' <- call_push history (travel_history_entry (str new_status) now) ;;
       update_application travel_pass_applications key
         (set_status_history (str new_status) (JSON_stringify history') now) ;;
       ret (json 200 (JObj [("success", JBool true)])))
      (fun _ => console_error "travel pass status" ;; ret (error 500 "Server error")).

(** The status handler of each table, behind its two middlewares. *)
Definition put_status (t : AppTable) (user : Claims) (key : Z)
    (body : list (string * JSON)) (now : string) : Handler Response :=
  match t with
  | visa_applications => put_visa_status user key body now
  | marriage_applications => put_marriage_status key body now
  | birth_certificate_applications => put_birth_certificate_status key body now
  | travel_pass_applications => put_travel_pass_status key body now
  end.

(** *** PUT /api/{type}-applications/:id/tracking *)

Definition tracking_mail (application : Application) (number : string)
    (carrier : Value) : Handler Email :=
  carrierName <- (if truthy carrier then call_toUpperCase carrier else ret "your carrier") ;;
  ret {| to := user_name application;
         from := CONTACT_FROM env;
         subject := "Tracking Number Available - Visa Application";
         html := [or_empty (column "first_name" application);
                  or_empty (column "last_name" application);
                  String_of (id application);
                  (if truthy carrier then carrierName else "");
                  number] |}.

Definition put_visa_tracking (key : Z) (body : list (string * JSON)) (now : string)
  : Handler Response :=
  let trackingNumber := get "trackingNumber" body in
  let carrier := get "carrier" body in
  if (negb (truthy trackingNumber) || negb (is_string trackingNumber)
      || (String.length (trim (str trackingNumber)) =? 0)%nat)%bool then
    respond (error 400 "Tracking number is required")
  else
    try_catch
      (rows <- select_application visa_applications key ;;
       match rows with
       | [] => respond (error 404 "Application not found")
       | application :: _ =>
           number <- call_trim trackingNumber ;;
           update_tracking visa_applications key number (or_null carrier) now ;;
           (if mail_configured then
              try_catch (mail <- tracking_mail application number carrier ;;
                         sgMail_send mail)
                        (fun _ => console_error "Failed to send tracking number email:")
            else ret tt) ;;
           ret (json 200 (JObj [("success", JBool true);
                                ("application",
                                 JObj [("id", JNum (id application));
                                       ("trackingNumber", JStr number);
                                       ("carrier", or_null carrier)])]))
       end)
      (fun _ => console_error "visa tracking" ;; ret (error 500 "Server error")).

(** The marriage, birth-certificate and travel-pass tracking handlers
    differ in the table only. *)
Definition put_tracking_plain (t : AppTable) (key : Z) (body : list (string * JSON))
    (now : string) : Handler Response :=
  let trackingNumber := get "trackingNumber" body in
  let carrier := get "carrier" body in
  if (negb (truthy trackingNumber) || negb (is_string trackingNumber))%bool then
    respond (error 400 "Tracking number is required")
  else
    try_catch
      (number <- call_trim trackingNumber ;;
       update_tracking t key number (or_null carrier) now ;;
       ret (json 200 (JObj [("success", JBool true); ("carrier", or_null carrier)])))
      (fun _ => console_error "tracking" ;; ret (error 500 "Server error")).

Definition put_tracking (t : AppTable) (key : Z) (body : list (string * JSON))
    (now : string) : Handler Response :=
  match t with
  | visa_applications => put_visa_tracking key body now
  | _ => put_tracking_plain t key body now
  end.

(** *** GET /api/{type}-applications/:id and /:id/pdf *)

(** The four detail handlers differ in the table only. *)
Definition get_application (t : AppTable) (user : Claims) (key : Z) : Handler Response :=
  try_catch
    (rows <- select_application t key ;;
     match rows with
     | [] => respond (error 404 "Application not found")
     | application :: _ =>
         if (negb (isAdmin user)
             && negb (claim_username user =? user_name application)%string)%bool
         then respond (error 403 "Access denied")
         else ret (json 200 (row_json application))
     end)
    (fun _ => console_error "application" ;; ret (error 500 "Server error")).

Definition pdf_prefix (t : AppTable) : string :=
  match t with
  | visa_applications => "visa-"
  | marriage_applications => "marriage-certificate-"
  | birth_certificate_applications => "birth-certificate-"
  | travel_pass_applications => "travel-pass-"
  end.

(** The four PDF handlers differ in the table, the file name and the
    lines drawn from the row.  Rendering the barcode and the document does
    not fail in the model. *)
Definition get_application_pdf (t : AppTable) (user : Claims) (key : Z)
  : Handler Response :=
  try_catch
    (rows <- select_application t key ;;
     match rows with
     | [] => respond (error 404 "Not found")
     | application :: _ =>
         if (negb (isAdmin user)
             && negb (claim_username user =? user_name application)%string)%bool
         then respond (error 403 "Access denied")
         else
           ret {| code := 200;
                  body := Pdf {| filename := pdf_prefix t ++ String_of (id application)
                                             ++ ".pdf";
                                 barcode_text := String_of (id application);
                                 rendered := application |} |}
     end)
    (fun _ => console_error "pdf" ;; ret (error 500 "Server error")).

(** *** GET /api/{type}-applications/user/:username *)

(** The columns each list selects, as (alias, column). *)
Definition listed_columns (t : AppTable) : list (string * string) :=
  match t with
  | visa_applications =>
      [("id", "id"); ("userName", "user_name"); ("visaType", "visa_type");
       ("status", "status"); ("firstName", "first_name"); ("lastName", "last_name");
       ("tracking_number", "tracking_number"); ("createdAt", "created_at");
       ("updatedAt", "updated_at")]
  | marriage_applications =>
      [("id", "id"); ("firstName", "spouse1_first_name"); ("lastName", "spouse1_last_name");
       ("spouse2_first_name", "spouse2_first_name");
       ("spouse2_last_name", "spouse2_last_name"); ("marriage_date", "marriage_date");
       ("status", "status"); ("tracking_number", "tracking_number");
       ("createdAt", "created_at"); ("updatedAt", "updated_at")]
  | birth_certificate_applications =>
      [("id", "id"); ("firstName", "child_first_name"); ("lastName", "child_last_name");
       ("child_birth_date", "child_birth_date"); ("status", "status");
       ("tracking_number", "tracking_number"); ("createdAt", "created_at");
       ("updatedAt", "updated_at")]
  | travel_pass_applications => []
  end.

Definition listed (t : AppTable) (r : Application) : JSON :=
  JObj (map (fun c => (fst c, param (column (snd c) r))) (listed_columns t)).

(** The visa, marriage and birth-certificate lists. *)
Definition get_applications_of_user (t : AppTable) (user : Claims) (username : string)
  : Handler Response :=
  if (username =? "")%string then respond (error 400 "Missing username")
  else if (negb (isAdmin user)
           && negb (claim_username user =? toLowerCase username)%string)%bool
  then respond (error 403 "Access denied")
  else
    try_catch
      (rows <- select_by_user_name t (toLowerCase username) ;;
       ret (json 200 (JArr (map (listed t) rows))))
      (fun _ => console_error "applications of user" ;; ret (error 500 "Server error")).

(** The travel-pass list: the name is compared as given and whole rows
    are returned. *)
Definition get_travel_pass_applications_of_user (user : Claims) (username : string)
  : Handler Response :=
  if (negb (claim_username user =? username)%string && negb (isAdmin user))%bool
  then respond (error 403 "Forbidden")
  else
    try_catch
      (rows <- select_by_user_name travel_pass_applications username ;;
       ret (json 200 (JArr (map row_json rows))))
      (fun _ => console_error "travel pass applications of user" ;;
                ret (error 500 "Server error")).

Definition get_by_user (t : AppTable) (user : Claims) (username : string)
  : Handler Response :=
  match t with
  | travel_pass_applications => get_travel_pass_applications_of_user user username
  | _ => get_applications_of_user t user username
  end.

(** *** POST /api/chat/conversation *)

Definition conversation_json (c : Conversation) : JSON :=
  JObj [("id", JNum (conv_id c)); ("session_id", JStr (session_id c));
        ("user_name", JStr (conv_user_name c)); ("user_email", JStr (conv_user_email c));
        ("status", JStr (conv_status c)); ("last_message_at", JStr (last_message_at c));
        ("created_at", JStr (conv_created_at c))].

Definition message_json (m : Message) : JSON :=
  JObj [("id", JNum (msg_id m)); ("conversation_id", JNum (conversation_id m));
        ("sender_type", JStr (sender_type m)); ("sender_name", text_json (sender_name m));
        ("message", JStr (message m)); ("created_at", JStr (msg_created_at m))].

(** [SELECT * FROM chat_conversations WHERE session_id = ?] *)
Definition select_conversation (sid : string) : Handler (list Conversation) :=
  pool_query (SELECT "chat_conversations") (fun s =>
    (Next (filter (fun c => (session_id c =? sid)%string) (chat_conversations s)), s)).

(** The same SELECT with the [sessionId] of a request body as its
    parameter: a string is compared with the stored session ids, any other
    value as the database compares it. *)
Definition select_conversation_by (sessionId : JSON) : Handler (list Conversation) :=
  match sessionId with
  | JStr sid => select_conversation sid
  | _ =>
      pool_query (SELECT "chat_conversations") (fun s =>
        match sql_where_session sessionId with
        | Some found => (Next (filter found (chat_conversations s)), s)
        | None => (Thrown ER_OTHER, s)
        end)
  end.

(** [SELECT * FROM chat_messages WHERE conversation_id = ? ORDER BY created_at ASC] *)
Definition select_messages (conversation : Z) : Handler (list Message) :=
  pool_query (SELECT "chat_messages") (fun s =>
    (Next (filter (fun m => conversation_id m =? conversation) (chat_messages s)), s)).

(** [INSERT INTO chat_conversations (session_id, user_name, user_email)]:
    [session_id] is a UNIQUE key; the status defaults to ['active']. *)
Definition insert_conversation (sid name email now : string) : Handler Z :=
  pool_query (INSERT "chat_conversations") (fun s =>
    if existsb (fun c => (session_id c =? sid)%string) (chat_conversations s)
    then (Thrown ER_DUP_ENTRY, s)
    else
      let key := next_key (map conv_id (chat_conversations s)) in
      (Next key,
       set_chat_conversations
         (chat_conversations s ++
          [{| conv_id := key; session_id := sid; conv_user_name := name;
              conv_user_email := email; conv_status := "active";
              last_message_at := now; conv_created_at := now |}]) s)).

Definition post_chat_conversation (body : list (string * JSON)) (now : string)
  : Handler Response :=
  let sessionId := get "sessionId" body in
  let userName := get "userName" body in
  let userEmail := get "userEmail" body in
  if (negb (truthy sessionId) || negb (truthy userName) || negb (truthy userEmail))%bool
  then respond (error 400 "Missing required fields")
  else
    try_catch
      (existing <- select_conversation_by (param sessionId) ;;
       match existing with
       | first :: _ =>
           messages <- select_messages (conv_id first) ;;
           respond (json 200 (JObj [("conversation", conversation_json first);
                                    ("messages", JArr (map message_json messages))]))
       | [] =>
           insertId <- insert_conversation (bound sessionId) (bound userName)
                                           (bound userEmail) now ;;
           ret (json 200
                  (JObj [("conversation",
                          JObj [("id", JNum insertId); ("session_id", param sessionId);
                                ("user_name", param userName);
                                ("user_email", param userEmail);
                                ("status", JStr "active")]);
                         ("messages", JArr [])]))
       end)
      (fun _ => console_error "Chat conversation error:" ;;
                ret (error 500 "Server error")).

(** *** The routes *)

Definition post_application (t : AppTable) (user : Claims) (body : list (string * JSON))
    (now : string) : Handler Response :=
  match t with
  | visa_applications => post_visa_application user body now
  | marriage_applications => post_marriage_application user body now
  | birth_certificate_applications => post_birth_certificate_application user body now
  | travel_pass_applications => post_travel_pass_application user body now
  end.

(** The middleware chain and handler registered for each route.  Left out
    are the routes that only read (the administrator's lists, statistics
    and analytics, the chat reads), [POST /api/contact], which only sends a
    mail, and the chat message, reply and close routes, which write to the
    chat tables without creating a conversation. *)
Definition route (now : string) (req : Request) : Handler Response :=
  match req with
  | POST_signup body => post_signup body
  | POST_login body => post_login body
  | POST_application t cred body =>
      authMiddleware cred (fun user => post_application t user body now)
  | PUT_status t cred key body =>
      authMiddleware cred (fun user =>
        adminMiddleware (Some user) (put_status t user key body now))
  | PUT_tracking t cred key body =>
      authMiddleware cred (fun user =>
        adminMiddleware (Some user) (put_tracking t key body now))
  | GET_application t cred key =>
      authMiddleware cred (fun user => get_application t user key)
  | GET_application_pdf t cred key =>
      authMiddleware cred (fun user => get_application_pdf t user key)
  | GET_applications_of_user t cred username =>
      authMiddleware cred (fun user => get_by_user t user username)
  | POST_chat_conversation body => post_chat_conversation body now
  end.

(** The server answering a request received at time [now]. *)
Definition serve (now : string) (req : Request) (w : World) : Response * World :=
  answer (route now req) w.

(** The worlds the server can be in: started on a fresh database, it has
    answered some requests. *)
Inductive reachable : World -> Prop :=
| reachable_start : reachable fresh_world
| reachable_serve : forall w now req,
    reachable w -> reachable (snd (serve now req w)).

(** ** More of the server

    The chat routes beside get-or-create, and the pure part of the
    analytics route.  Still left out: [POST /api/contact], which only sends
    a mail; [POST /api/chat/admin-reply], which stores a message under a
    conversation id taken from the body; and the administrator's lists,
    user list and statistics, which only read. *)

(** *** POST /api/chat/message, PUT /api/chat/conversations/:id/close,
        GET /api/chat/session/:sessionId, GET /api/chat/conversations/:id/messages *)

Definition set_chat_messages (l : list Message) (s : Store) : Store :=
  {| login := login s; visa := visa s; marriage := marriage s;
     birth_certificate := birth_certificate s; travel_pass := travel_pass s;
     chat_conversations := chat_conversations s; chat_messages := l |}.

(** [INSERT INTO chat_messages (conversation_id, sender_type, sender_name, message)] *)
Definition insert_message (conversation : Z) (sender : string) (name : option string)
    (text now : string) : Handler Z :=
  pool_query (INSERT "chat_messages") (fun s =>
    let key := next_key (map msg_id (chat_messages s)) in
    (Next key,
     set_chat_messages
       (chat_messages s ++
        [{| msg_id := key; conversation_id := conversation; sender_type := sender;
            sender_name := name; message := text; msg_created_at := now |}]) s)).

(** [UPDATE chat_conversations SET ... WHERE id = ?] *)
Definition update_conversation (key : Z) (f : Conversation -> Conversation) : Handler unit :=
  pool_query (UPDATE "chat_conversations") (fun s =>
    (Next tt,
     set_chat_conversations
       (map (fun c => if conv_id c =? key then f c else c) (chat_conversations s)) s)).

(** [SET last_message_at = NOW()] *)
Definition touched (now : string) (c : Conversation) : Conversation :=
  {| conv_id := conv_id c; session_id := session_id c; conv_user_name := conv_user_name c;
     conv_user_email := conv_user_email c; conv_status := conv_status c;
     last_message_at := now; conv_created_at := conv_created_at c |}.

(** [SET status = 'closed']: a row that changes also gets its
    [last_message_at] refreshed, the column being declared
    [ON UPDATE CURRENT_TIMESTAMP]; a row already closed is left as it is. *)
Definition closed (now : string) (c : Conversation) : Conversation :=
  if (conv_status c =? "closed")%string then c
  else
    {| conv_id := conv_id c; session_id := session_id c; conv_user_name := conv_user_name c;
       conv_user_email := conv_user_email c; conv_status := "closed";
       last_message_at := now; conv_created_at := conv_created_at c |}.

Definition post_chat_message (body : list (string * JSON)) (now : string)
  : Handler Response :=
  let sessionId := get "sessionId" body in
  let senderType := get "senderType" body in
  let senderName := get "senderName" body in
  let message := get "message" body in
  if (negb (truthy sessionId) || negb (truthy senderType) || negb (truthy message))%bool
  then respond (error 400 "Missing required fields")
  else
    try_catch
      (conversations <- select_conversation_by (param sessionId) ;;
       match conversations with
       | [] => respond (error 404 "Conversation not found")
       | first :: _ =>
           let conversationId := conv_id first in
           insert_message conversationId (bound senderType) (sql_text (param senderName))
                          (bound message) now ;;
           update_conversation conversationId (touched now) ;;
           ret (json 200 (JObj [("success", JBool true)]))
       end)
      (fun _ => console_error "Save message error:" ;; ret (error 500 "Server error")).

Definition put_chat_close (key : Z) (now : string) : Handler Response :=
  try_catch
    (update_conversation key (closed now) ;;
     ret (json 200 (JObj [("success", JBool true)])))
    (fun _ => console_error "Close conversation error:" ;; ret (error 500 "Server error")).

Definition get_chat_session (sessionId : string) : Handler Response :=
  try_catch
    (conversations <- select_conversation sessionId ;;
     match conversations with
     | [] => respond (json 200 (JObj [("conversation", JNull); ("messages", JArr [])]))
     | first :: _ =>
         messages <- select_messages (conv_id first) ;;
         ret (json 200 (JObj [("conversation", conversation_json first);
                              ("messages", JArr (map message_json messages))]))
     end)
    (fun _ => console_error "Get session error:" ;; ret (error 500 "Server error")).

Definition get_chat_messages (key : Z) : Handler Response :=
  try_catch
    (messages <- select_messages key ;;
     ret (json 200 (JObj [("messages", JArr (map message_json messages))])))
    (fun _ => console_error "Get messages error:" ;; ret (error 500 "Server error")).

(** The routes of [route] and the four chat routes above. *)
Inductive Operation : Type :=
| Routed (req : Request)
| POST_chat_message (body : list (string * JSON))
| PUT_chat_close (cred : Credentials) (key : Z)
| GET_chat_session (sessionId : string)
| GET_chat_messages (cred : Credentials) (key : Z).

Definition route_all (now : string) (op : Operation) : Handler Response :=
  match op with
  | Routed req => route now req
  | POST_chat_message body => post_chat_message body now
  | PUT_chat_close cred key =>
      authMiddleware cred (fun user => adminMiddleware (Some user) (put_chat_close key now))
  | GET_chat_session sessionId => get_chat_session sessionId
  | GET_chat_messages cred key =>
      authMiddleware cred (fun user => adminMiddleware (Some user) (get_chat_messages key))
  end.

Definition serve_all (now : string) (op : Operation) (w : World) : Response * World :=
  answer (route_all now op) w.

(** The worlds the server can be in when these routes are used as well:
    started on a fresh database, it has answered requests to the routes of
    [route_all]. *)
Inductive reachable_all : World -> Prop :=
| reachable_all_start : reachable_all fresh_world
| reachable_all_serve : forall w now op,
    reachable_all w -> reachable_all (snd (serve_all now op w)).

(** *** GET /api/admin/analytics: combining the monthly series

    The four [...Trend] results are lists of (month, count) rows, one per
    month in which the table got rows. *)

Record MonthCount : Type := {
  month : string;     (* DATE_FORMAT(created_at, '%Y-%m') *)
  count : Z           (* COUNT( * ) *)
}.

(** [allMonths.add(m)]: a [Set] keeps the first insertion of each value. *)
Definition Set_add (seen : list string) (m : string) : list string :=
  if existsb (String.eqb m) seen then seen else seen ++ [m].

(** [allMonths] after the two nested [forEach]. *)
Definition allMonths (trends : list (list MonthCount)) : list string :=
  fold_left Set_add (map month (concat trends)) [].

(** [arr.sort()] on strings: ascending by code units. *)
Fixpoint insert_sorted (m : string) (sorted : list string) : list string :=
  match sorted with
  | [] => [m]
  | x :: rest => if String.leb m x then m :: sorted else x :: insert_sorted m rest
  end.

Definition sort_strings (l : list string) : list string := fold_right insert_sorted [] l.

(** [trend.find(t => t.month === m)?.count || 0] *)
Fixpoint count_in (trend : list MonthCount) (m : string) : Z :=
  match trend with
  | [] => 0
  | t :: rest => if (month t =? m)%string then count t else count_in rest m
  end.

(** An element of [applicationTrend]. *)
Record TrendPoint : Type := {
  point_month : string;
  total : Z;
  visa_count : Z;
  marriage_count : Z;
  birth_count : Z;
  travel_count : Z
}.

Definition applicationTrend (visaTrend marriageTrend birthTrend travelTrend : list MonthCount)
  : list TrendPoint :=
  map (fun m =>
         let v := count_in visaTrend m in
         let g := count_in marriageTrend m in
         let b := count_in birthTrend m in
         let p := count_in travelTrend m in
         {| point_month := m; total := v + g + b + p;
            visa_count := v; marriage_count := g; birth_count := b; travel_count := p |})
      (sort_strings (allMonths [visaTrend; marriageTrend; birthTrend; travelTrend])).

(** [arr.sort((a, b) => b.count - a.count)]: descending by count; the sort
    is stable, so equal counts keep their order. *)
Fixpoint insert_by_count (a : string * Z) (sorted : list (string * Z)) : list (string * Z) :=
  match sorted with
  | [] => [a]
  | b :: rest => if snd b <=? snd a then a :: sorted else b :: insert_by_count a rest
  end.

Definition sort_by_count (l : list (string * Z)) : list (string * Z) :=
  fold_right insert_by_count [] l.

Definition applicationTypes (totalVisa totalMarriage totalBirth totalTravel : Z)
  : list (string * Z) :=
  sort_by_count [("Visa", totalVisa); ("Marriage", totalMarriage);
                 ("Birth Certificate", totalBirth); ("Travel Pass", totalTravel)].

(** ** Properties *)

(** The enum each status handler checks against. *)
Definition status_enum (t : AppTable) : list string :=
  match t with
  | travel_pass_applications => travel_validStatuses
  | _ => validStatuses
  end.

(** The sequence a status handler finds in a row: empty when the column is
    NULL or empty, the parsed items when it holds an array; text that does
    not parse counts as empty for the visa handler.  [None] when the handler
    cannot append to what is stored. *)
Definition history_read (t : AppTable) (r : Application) : option (list JSON) :=
  match present (status_history r) with
  | None => Some []
  | Some text =>
      match JSON_parse text with
      | Some (JArr items) => Some items
      | Some _ => None
      | None =>
          match t with
          | visa_applications => Some []
          | _ => None
          end
      end
  end.

(** The record a status handler appends. *)
Definition pushed_entry (t : AppTable) (new_status : string) (user : Claims)
    (now : string) (application : Application) : JSON :=
  match t with
  | visa_applications =>
      history_entry new_status (claim_username user) now (status application)
  | _ => travel_history_entry new_status now
  end.

(** [entry.previousStatus] *)
Definition previousStatus_of (entry : JSON) : Value :=
  match entry with
  | JObj fields => get "previousStatus" fields
  | _ => None
  end.

(** The codec returns a value it has written. *)
Definition reads_back (v : JSON) : Prop :=
  JSON_stringify v <> "" /\ JSON_parse (JSON_stringify v) = Some v.

(** The world after the SELECT and the UPDATE of a status handler that
    keeps a history. *)
Definition status_written (t : AppTable) (key : Z) (new_status history now : string)
    (w : World) : World :=
  {| db := set_rows t (update_where_id key (set_status_history new_status history now)
                                       (table_rows t (db w))) (db w);
     outbox := outbox w;
     console := console w;
     queries := queries w ++ [SELECT (table_name t); UPDATE (table_name t)] |}.

(** The effect of the notification attempt of the visa handler. *)
Definition notified (mail : Email) (w : World) : World :=
  if mail_configured then
    if sgMail_accepts env mail then
      {| db := db w; outbox := outbox w ++ [mail]; console := console w;
         queries := queries w |}
    else
      {| db := db w; outbox := outbox w;
         console := console w ++ ["Failed to send status update email:"];
         queries := queries w |}
  else w.

(** The body of a successful visa status update. *)
Definition visa_status_updated (application : Application) (new_status : string) : Response :=
  json 200 (JObj [("success", JBool true);
                  ("application",
                   JObj [("id", JNum (id application));
                         ("status", JStr new_status);
                         ("previousStatus", JStr (status application))])]).

(** [{ success: true }] *)
Definition success : Response := json 200 (JObj [("success", JBool true)]).

(** The owner whose applications a list request selects. *)
Definition list_owner (t : AppTable) (username : string) : string :=
  match t with
  | travel_pass_applications => username
  | _ => toLowerCase username
  end.

(** The refusal of a list handler. *)
Definition forbidden (t : AppTable) : Response :=
  match t with
  | travel_pass_applications => error 403 "Forbidden"
  | _ => error 403 "Access denied"
  end.

(** The world after one SELECT on a table. *)
Definition selected (t : AppTable) (w : World) : World :=
  {| db := db w; outbox := outbox w; console := console w;
     queries := queries w ++ [SELECT (table_name t)] |}.

(** A non-empty string field. *)
Definition filled (v : Value) : bool := (is_string v && truthy v)%bool.

(** A chat body for session [sid], as the widget sends it: the three
    fields are non-empty strings. *)
Definition chat_body (sid : string) (body : list (string * JSON)) : bool :=
  (match get "sessionId" body with
   | Some (JStr s) => (s =? sid)%string && negb (s =? "")%string
   | _ => false
   end
   && filled (get "userName" body) && filled (get "userEmail" body))%bool.

(** [response.conversation.id] *)
Definition conversation_id_of (r : Response) : Value :=
  match body_of r with
  | Some (JObj fields) =>
      match get "conversation" fields with
      | Some (JObj conversation) => get "id" conversation
      | _ => None
      end
  | _ => None
  end.

(** The conversations a session id has. *)
Definition conversations_of (sid : string) (s : Store) : list Conversation :=
  filter (fun c => (session_id c =? sid)%string) (chat_conversations s).

(** Every row of every application table has a status of its enum. *)
Definition statuses_in_enum (s : Store) : Prop :=
  forall t r, In r (table_rows t s) -> In (status r) (status_enum t).

(** A handler that keeps a property of the store, along every path. *)
Definition preserves (P : Store -> Prop) {A} (h : Handler A) : Prop :=
  forall w, P (db w) -> P (db (snd (h w))).

(** [response.token] *)
Definition token_of (r : Response) : Value :=
  match body_of r with
  | Some (JObj fields) => get "token" fields
  | _ => None
  end.

(** The history a row holds, as a sequence: what is stored when it is an
    array, nothing otherwise. *)
Definition stored_history (r : Application) : list JSON :=
  match present (status_history r) with
  | Some text =>
      match JSON_parse text with
      | Some (JArr items) => items
      | _ => []
      end
  | None => []
  end.

(** [response.application.name] *)
Definition application_field (name : string) (r : Response) : Value :=
  match body_of r with
  | Some (JObj fields) =>
      match get "application" fields with
      | Some (JObj application) => get name application
      | _ => None
      end
  | _ => None
  end.

(** The statement of C1 at one request: the request finds a row, and after
    it the row's history is one longer and ends with an entry whose
    [previousStatus] is the status the row had. *)
Definition spec_history_appended (t : AppTable) (user : Claims) (key : Z)
    (body : list (string * JSON)) (now : string) (w : World) : Prop :=
  forall application others,
    select_where_id key (table_rows t (db w)) = application :: others ->
    exists application' others',
      select_where_id key
        (table_rows t (db (snd (answer (put_status t user key body now) w))))
        = application' :: others' /\
      List.length (stored_history application')
        = S (List.length (stored_history application)) /\
      previousStatus_of (List.last (stored_history application') JNull)
        = Some (JStr (status application)).

(** The statement of C2 at one request. *)
Definition spec_unknown_id_not_found (t : AppTable) (user : Claims) (key : Z)
    (body : list (string * JSON)) (now : string) (w : World) : Prop :=
  select_where_id key (table_rows t (db w)) = [] ->
  code (fst (answer (put_status t user key body now) w)) = 404.

(** The statement of C7 at one request: a success carries the new and the
    old status. *)
Definition spec_returns_old_and_new (t : AppTable) (user : Claims) (key : Z)
    (body : list (string * JSON)) (now : string) (w : World) : Prop :=
  code (fst (answer (put_status t user key body now) w)) = 200 ->
  exists application others,
    select_where_id key (table_rows t (db w)) = application :: others /\
    application_field "status" (fst (answer (put_status t user key body now) w))
      = get "status" body /\
    application_field "previousStatus" (fst (answer (put_status t user key body now) w))
      = Some (JStr (status application)).

(** The history the travel-pass handler starts from: that of the first row
    found, empty when there is none. *)
Definition travel_history_found (found : list Application) : option (list JSON) :=
  match found with
  | row :: _ => history_read travel_pass_applications row
  | [] => Some []
  end.

(** The row the handler inserts for a new session. *)
Definition new_conversation (sid : string) (body : list (string * JSON)) (now : string)
    (s : Store) : Conversation :=
  {| conv_id := next_key (map conv_id (chat_conversations s));
     session_id := sid;
     conv_user_name := bound (get "userName" body);
     conv_user_email := bound (get "userEmail" body);
     conv_status := "active";
     last_message_at := now;
     conv_created_at := now |}.

(** The credentials an operation carries, on the routes behind
    [authMiddleware]. *)
Definition credentials_of (op : Operation) : option Credentials :=
  match op with
  | Routed (POST_application _ cred _) => Some cred
  | Routed (PUT_status _ cred _ _) => Some cred
  | Routed (PUT_tracking _ cred _ _) => Some cred
  | Routed (GET_application _ cred _) => Some cred
  | Routed (GET_application_pdf _ cred _) => Some cred
  | Routed (GET_applications_of_user _ cred _) => Some cred
  | PUT_chat_close cred _ => Some cred
  | GET_chat_messages cred _ => Some cred
  | _ => None
  end.

(** The routes registered with [adminMiddleware]. *)
Definition admin_only (op : Operation) : bool :=
  match op with
  | Routed (PUT_status _ _ _ _) => true
  | Routed (PUT_tracking _ _ _ _) => true
  | PUT_chat_close _ _ => true
  | GET_chat_messages _ _ => true
  | _ => false
  end.

(** The claims a request's credentials stand for: those of the token it
    presents, when there is one and it verifies. *)
Definition authenticated (cred : Credentials) : option Claims :=
  match presented_token cred with
  | Some token => if (token =? "")%string then None else verifyToken token
  | None => None
  end.

(** The row signup inserts. *)
Definition new_user (name plain : string) (body : list (string * JSON)) (s : Store) : User :=
  {| user_id := next_key (map user_id (login s));
     username := toLowerCase name;
     password := bcrypt_hash plain;
     firstname := str (get "firstName" body);
     lastname := str (get "lastName" body) |}.

(** The payload login signs for a row of [login]. *)
Definition login_claims (u : User) : Claims :=
  {| claim_id := user_id u; claim_username := username u;
     isAdmin := str_includes "admin" (username u) |}.


(** What the schema's keys promise and the handlers rely on: primary keys
    and UNIQUE columns hold no value twice, user names are stored
    lower-cased, a conversation is ['active'] or ['closed'], and every
    message belongs to a conversation that exists. *)
Record consistent (s : Store) : Prop := {
  user_ids_unique : NoDup (map user_id (login s));
  usernames_unique : NoDup (map username (login s));
  usernames_lower : forall u, In u (login s) -> toLowerCase (username u) = username u;
  application_ids_unique : forall t, NoDup (map id (table_rows t s));
  conversation_ids_unique : NoDup (map conv_id (chat_conversations s));
  session_ids_unique : NoDup (map session_id (chat_conversations s));
  conversation_statuses :
    forall c, In c (chat_conversations s) ->
              conv_status c = "active" \/ conv_status c = "closed";
  message_ids_unique : NoDup (map msg_id (chat_messages s));
  messages_belong :
    forall m, In m (chat_messages s) ->
              In (conversation_id m) (map conv_id (chat_conversations s))
}.

(** The owner recorded for an application [user] submits: the travel-pass
    handler stores the name as the token has it, the others lower-case it. *)
Definition owner_of (t : AppTable) (user : Claims) : string :=
  match t with
  | travel_pass_applications => claim_username user
  | _ => toLowerCase (claim_username user)
  end.

(** Store [s] differs from [s0] at most in the rows of table [t] whose id
    is [key], and there only in columns that [view] does not show. *)
Definition changes_only (t : AppTable) (key : Z) (V : Type) (view : Application -> V)
    (s0 s : Store) : Prop :=
  login s = login s0 /\
  chat_conversations s = chat_conversations s0 /\
  chat_messages s = chat_messages s0 /\
  (forall t', t' <> t -> table_rows t' s = table_rows t' s0) /\
  map view (table_rows t s) = map view (table_rows t s0) /\
  filter (fun r => negb (id r =? key)) (table_rows t s)
    = filter (fun r => negb (id r =? key)) (table_rows t s0).

(** The columns a status update does not write. *)
Definition beside_status (r : Application) :=
  (id r, user_name r, tracking_number r, shipping_carrier r, form r, created_at r).

(** The columns a tracking update does not write. *)
Definition beside_tracking (r : Application) :=
  (id r, user_name r, status r, status_history r, form r, created_at r).

(** A handler that sends no mail, along every path. *)
Definition silent {A} (h : Handler A) : Prop :=
  forall w, outbox (snd (h w)) = outbox w.

(** The routes whose handlers call [sgMail.send]. *)
Definition sends_mail (op : Operation) : bool :=
  match op with
  | Routed (PUT_status visa_applications _ _ _) => true
  | Routed (PUT_tracking visa_applications _ _ _) => true
  | _ => false
  end.

(** The routes that only query: login and the GET routes. *)
Definition reads_only (op : Operation) : bool :=
  match op with
  | Routed (POST_login _) => true
  | Routed (GET_application _ _ _) => true
  | Routed (GET_application_pdf _ _ _) => true
  | Routed (GET_applications_of_user _ _ _) => true
  | GET_chat_session _ => true
  | GET_chat_messages _ _ => true
  | _ => false
  end.

(** How a list handler renders a row: the travel-pass list returns whole
    rows, the others the columns they select. *)
Definition list_item (t : AppTable) (r : Application) : JSON :=
  match t with
  | travel_pass_applications => row_json r
  | _ => listed t r
  end.

(** A message body for session [sid] that the table accepts: the session
    id and the text are non-empty strings and the sender type is one of the
    column's enum. *)
Definition message_body (sid : string) (body : list (string * JSON)) : bool :=
  match get "sessionId" body, get "senderType" body, get "message" body with
  | Some (JStr s), Some (JStr sender), Some (JStr text) =>
      ((s =? sid)%string && negb (s =? "")%string
       && existsb (String.eqb sender) ["user"; "bot"; "admin"]
       && negb (text =? "")%string)%bool
  | _, _, _ => false
  end.

(** The messages of a conversation, oldest first. *)
Definition messages_of (conversation : Z) (s : Store) : list Message :=
  filter (fun m => conversation_id m =? conversation) (chat_messages s).


(** The applications a monthly series counts, and those a combined trend
    counts. *)
Definition sum_counts (trend : list MonthCount) : Z :=
  fold_right Z.add 0 (map count trend).

Definition sum_totals (points : list TrendPoint) : Z :=
  fold_right Z.add 0 (map total points).

(** The four types as the handler lists them before sorting. *)
Definition types_listed (totalVisa totalMarriage totalBirth totalTravel : Z)
  : list (string * Z) :=
  [("Visa", totalVisa); ("Marriage", totalMarriage);
   ("Birth Certificate", totalBirth); ("Travel Pass", totalTravel)].

(** A carrier the [shipping_carrier] column takes: none, or one of its
    enum. *)
Definition carrier_accepted (carrier : Value) : bool :=
  (negb (truthy carrier) || includes ["usps"; "ups"; "fedex"] carrier)%bool.

(** Whether a request comes with a token that verifies and says
    [isAdmin: true]. *)
Definition caller_is_admin (op : Operation) : bool :=
  match credentials_of op with
  | Some cred =>
      match authenticated cred with
      | Some user => isAdmin user
      | None => false
      end
  | None => false
  end.


(** The conversations the SELECT of the message route finds for the
    [sessionId] of a body: for a string the rows of that session id, for
    any other value the rows the database's comparison holds of, none when
    it rejects the statement. *)
Definition addressed (sessionId : Value) (s : Store) : list Conversation :=
  match param sessionId with
  | JStr sid => conversations_of sid s
  | other =>
      match sql_where_session other with
      | Some found => filter found (chat_conversations s)
      | None => []
      end
  end.

(** A request whose tracking carrier, if it has one, is a value the
    driver sends as one value: no array, no object. *)
Definition plain_carrier (req : Request) : bool :=
  match req with
  | PUT_tracking _ _ _ body => scalar (or_null (get "carrier" body))
  | _ => true
  end.

(** The worlds the server reaches when every tracking carrier is such a
    value. *)
Inductive reachable_plain : World -> Prop :=
| reachable_plain_start : reachable_plain fresh_world
| reachable_plain_serve : forall w now req,
    reachable_plain w -> plain_carrier req = true ->
    reachable_plain (snd (serve now req w)).

(** Running the monad's combinators. *)
Ltac run :=
  unfold answer, try_catch, bind, ret, respond, throw, pool_query, console_error;
  simpl.

(** The two outcomes of a statement the database may refuse. *)
Ltac split_if :=
  repeat match goal with
         | |- context [snd (if ?c then _ else _)] => destruct c eqn:?; cbn [snd]
         end.

Lemma includes_In : forall arr v,
  includes arr v = true <-> exists s, v = Some (JStr s) /\ In s arr.
Proof.
  intros arr v; split.
  - destruct v as [[| | |s| |]|]; simpl; try discriminate.
    intros H. apply existsb_exists in H. destruct H as [x [Hin Heq]].
    apply String.eqb_eq in Heq. subst x. exists s. split; [reflexivity | assumption].
  - intros [s [-> Hin]]. simpl. apply existsb_exists. exists s.
    split; [assumption | apply String.eqb_refl].
Qed.

Lemma includes_outside : forall arr v,
  (forall s, v = Some (JStr s) -> ~ In s arr) -> includes arr v = false.
Proof.
  intros arr v H. destruct (includes arr v) eqn:E; [| reflexivity].
  apply includes_In in E. destruct E as [s [Hv Hin]]. exfalso. exact (H s Hv Hin).
Qed.

Lemma valid_status_truthy : forall t s,
  In s (status_enum t) -> truthy (Some (JStr s)) = true.
Proof.
  intros t s H.
  destruct t; simpl in H; repeat (destruct H as [<- | H]; [reflexivity |]); contradiction.
Qed.

Lemma valid_status_passes : forall t body s,
  get "status" body = Some (JStr s) -> In s (status_enum t) ->
  truthy (get "status" body) = true /\ includes (status_enum t) (get "status" body) = true
  /\ str (get "status" body) = s.
Proof.
  intros t body s Hget Hin. rewrite Hget. repeat split.
  - exact (valid_status_truthy t s Hin).
  - apply includes_In. exists s. split; [reflexivity | assumption].
Qed.

Lemma select_update_where_id : forall key f l,
  (forall r, id (f r) = id r) ->
  select_where_id key (update_where_id key f l) = map f (select_where_id key l).
Proof.
  intros key f l Hid. unfold select_where_id, update_where_id.
  induction l as [| r l IH]; simpl; [reflexivity |].
  destruct (id r =? key) eqn:E.
  - rewrite Hid, E. simpl. rewrite IH. reflexivity.
  - rewrite E. exact IH.
Qed.

Lemma update_where_id_absent : forall key f l,
  select_where_id key l = [] -> update_where_id key f l = l.
Proof.
  intros key f l. unfold select_where_id, update_where_id.
  induction l as [| r l IH]; simpl; [reflexivity |].
  destruct (id r =? key) eqn:E; [discriminate |].
  intros H. rewrite (IH H). reflexivity.
Qed.

Lemma set_rows_table_rows : forall t s, set_rows t (table_rows t s) s = s.
Proof. intros [] []; reflexivity. Qed.

(** What the visa handler does with a valid status on an application it
    finds and whose history it can extend. *)
Lemma put_visa_status_runs :
  forall user key body now w s application others h,
    get "status" body = Some (JStr s) -> In s validStatuses ->
    select_where_id key (visa (db w)) = application :: others ->
    history_read visa_applications application = Some h ->
    answer (put_visa_status user key body now) w =
      (visa_status_updated application s,
       notified (status_mail application s)
         (status_written visa_applications key s
            (JSON_stringify
               (JArr (h ++ [history_entry s (claim_username user) now (status application)])))
            now w)).
Proof.
  intros user key body now w s application others h Hget Hin Hsel Hread.
  destruct (valid_status_passes visa_applications body Hget Hin) as [Ht [Hi Hs]].
  simpl in Hi. unfold put_visa_status. rewrite Ht, Hi, Hs. simpl.
  unfold history_read in Hread.
  unfold select_application, parse, call_push, update_application, sgMail_send,
         status_written, notified.
  run. rewrite Hsel.
  destruct (present (status_history application)) as [text |] eqn:Hp.
  - destruct (JSON_parse text) as [[| | | | items |] |] eqn:Hparse; try discriminate;
      injection Hread as <-; simpl; rewrite <- app_assoc; simpl;
      (destruct mail_configured; [| reflexivity]);
      destruct (sgMail_accepts env (status_mail application s)); reflexivity.
  - injection Hread as <-; simpl; rewrite <- app_assoc; simpl;
      (destruct mail_configured; [| reflexivity]);
      destruct (sgMail_accepts env (status_mail application s)); reflexivity.
Qed.

(** The visa handler on an id no row has. *)
Lemma put_visa_status_missing :
  forall user key body now w s,
    get "status" body = Some (JStr s) -> In s validStatuses ->
    select_where_id key (visa (db w)) = [] ->
    answer (put_visa_status user key body now) w =
      (error 404 "Application not found",
       {| db := db w; outbox := outbox w; console := console w;
          queries := queries w ++ [SELECT "visa_applications"] |}).
Proof.
  intros user key body now w s Hget Hin Hsel.
  destruct (valid_status_passes visa_applications body Hget Hin) as [Ht [Hi Hs]].
  simpl in Hi. unfold put_visa_status. rewrite Ht, Hi. simpl.
  unfold select_application. run. rewrite Hsel. reflexivity.
Qed.

(** The visa handler on a row whose stored history parses to something
    that is not an array: [push] throws and the handler answers 500. *)
Lemma put_visa_status_unreadable :
  forall user key body now w s application others,
    get "status" body = Some (JStr s) -> In s validStatuses ->
    select_where_id key (visa (db w)) = application :: others ->
    history_read visa_applications application = None ->
    answer (put_visa_status user key body now) w =
      (error 500 "Server error",
       {| db := db w; outbox := outbox w; console := console w ++ ["visa status"];
          queries := queries w ++ [SELECT "visa_applications"] |}).
Proof.
  intros user key body now w s application others Hget Hin Hsel Hread.
  destruct (valid_status_passes visa_applications body Hget Hin) as [Ht [Hi Hs]].
  simpl in Hi. unfold put_visa_status. rewrite Ht, Hi, Hs. simpl.
  unfold history_read in Hread.
  unfold select_application, parse, call_push, update_application.
  run. rewrite Hsel.
  destruct (present (status_history application)) as [text |]; [| discriminate].
  destruct (JSON_parse text) as [[| | | | items |] |]; try discriminate; reflexivity.
Qed.

(** The marriage and birth-certificate handlers with a valid status: one
    UPDATE, whatever the table holds. *)
Lemma put_plain_status_runs :
  forall t user key body now w s,
    t = marriage_applications \/ t = birth_certificate_applications ->
    get "status" body = Some (JStr s) -> In s validStatuses ->
    answer (put_status t user key body now) w =
      (success,
       {| db := set_rows t (update_where_id key (set_status s now) (table_rows t (db w)))
                         (db w);
          outbox := outbox w; console := console w;
          queries := queries w ++ [UPDATE (table_name t)] |}).
Proof.
  intros t user key body now w s Ht Hget Hin.
  assert (Hv := valid_status_passes marriage_applications body Hget Hin).
  destruct Hv as [Htr [Hi Hs]]. simpl in Hi.
  destruct Ht as [-> | ->]; simpl;
    unfold put_marriage_status, put_birth_certificate_status;
    rewrite Htr, Hi, Hs; simpl; unfold update_application; run; reflexivity.
Qed.

Lemma put_travel_pass_status_runs :
  forall key body now w s h,
    get "status" body = Some (JStr s) -> In s travel_validStatuses ->
    travel_history_found (select_where_id key (travel_pass (db w))) = Some h ->
    answer (put_travel_pass_status key body now) w =
      (success,
       status_written travel_pass_applications key s
         (JSON_stringify (JArr (h ++ [travel_history_entry s now]))) now w).
Proof.
  intros key body now w s h Hget Hin Hread.
  destruct (valid_status_passes travel_pass_applications body Hget Hin) as [Ht [Hi Hs]].
  simpl in Hi. unfold put_travel_pass_status. rewrite Hi, Hs. simpl.
  unfold travel_history_found, history_read in Hread.
  unfold select_application, parse, call_push, update_application, status_written.
  run.
  destruct (select_where_id key (travel_pass (db w))) as [| row others].
  - injection Hread as <-. simpl. rewrite <- app_assoc. reflexivity.
  - destruct (present (status_history row)) as [text |].
    + destruct (JSON_parse text) as [[| | | | items |] |]; try discriminate.
      injection Hread as <-. simpl. rewrite <- app_assoc. reflexivity.
    + injection Hread as <-. simpl. rewrite <- app_assoc. reflexivity.
Qed.

(** The travel-pass handler on a row whose stored history does not parse,
    or parses to something that is not an array: the exception reaches the
    handler's [catch] and nothing is written. *)
Lemma put_travel_pass_status_unreadable :
  forall key body now w s,
    get "status" body = Some (JStr s) -> In s travel_validStatuses ->
    travel_history_found (select_where_id key (travel_pass (db w))) = None ->
    answer (put_travel_pass_status key body now) w =
      (error 500 "Server error",
       {| db := db w; outbox := outbox w; console := console w ++ ["travel pass status"];
          queries := queries w ++ [SELECT "travel_pass_applications"] |}).
Proof.
  intros key body now w s Hget Hin Hread.
  destruct (valid_status_passes travel_pass_applications body Hget Hin) as [Ht [Hi Hs]].
  simpl in Hi. unfold put_travel_pass_status. rewrite Hi, Hs. simpl.
  unfold travel_history_found, history_read in Hread.
  unfold select_application, parse, call_push, update_application.
  run.
  destruct (select_where_id key (travel_pass (db w))) as [| row others]; [discriminate |].
  destruct (present (status_history row)) as [text |]; [| discriminate].
  destruct (JSON_parse text) as [[| | | | items |] |]; try discriminate; reflexivity.
Qed.

(** A valid status for an id no row has, sent to the marriage,
    birth-certificate or travel-pass handler: the UPDATE matches nothing,
    every table stays as it was, and the answer is [{ success: true }]. *)
Lemma status_unknown_id_succeeds :
  forall t user key body now w s,
    t <> visa_applications ->
    get "status" body = Some (JStr s) -> In s (status_enum t) ->
    select_where_id key (table_rows t (db w)) = [] ->
    fst (answer (put_status t user key body now) w) = success /\
    db (snd (answer (put_status t user key body now) w)) = db w.
Proof.
  intros t user key body now w s Hne Hget Hin Hsel.
  destruct t.
  - contradiction (Hne eq_refl).
  - rewrite (put_plain_status_runs user key body now w (or_introl eq_refl) Hget Hin).
    cbn [fst snd db]. rewrite (update_where_id_absent _ _ _ Hsel).
    rewrite set_rows_table_rows. split; reflexivity.
  - rewrite (put_plain_status_runs user key body now w (or_intror eq_refl) Hget Hin).
    cbn [fst snd db]. rewrite (update_where_id_absent _ _ _ Hsel).
    rewrite set_rows_table_rows. split; reflexivity.
  - change (In s travel_validStatuses) in Hin. cbn [put_status].
    assert (Hfound : travel_history_found (select_where_id key (travel_pass (db w)))
                     = Some []).
    { cbn [table_rows] in Hsel. rewrite Hsel. reflexivity. }
    rewrite (put_travel_pass_status_runs key body now w Hget Hin Hfound).
    unfold status_written. cbn [fst snd db].
    rewrite (update_where_id_absent _ _ _ Hsel).
    rewrite set_rows_table_rows. split; reflexivity.
Qed.

Lemma db_notified : forall mail w, db (notified mail w) = db w.
Proof.
  intros mail w. unfold notified.
  destruct mail_configured; [| reflexivity].
  destruct (sgMail_accepts env mail); reflexivity.
Qed.

Lemma history_read_written : forall t s now r items,
  reads_back (JArr items) ->
  history_read t (set_status_history s (JSON_stringify (JArr items)) now r) = Some items.
Proof.
  intros t s now r items [Hne Hparse]. unfold history_read. simpl.
  destruct (JSON_stringify (JArr items) =? "")%string eqn:E.
  - apply String.eqb_eq in E. contradiction.
  - rewrite Hparse. reflexivity.
Qed.

(** C1, amended.  A valid status on an existing visa or travel-pass
    application whose stored history is absent, an array, or (visa only)
    unparseable text: the handler answers 200 and the row then holds the
    history it found with exactly one entry appended.  For a visa
    application that entry's [previousStatus] is the status the row had
    before; the travel-pass entry records the new status and a timestamp
    only. *)
Theorem status_history_appended :
  forall (t : AppTable) (user : Claims) (key : Z) (body : list (string * JSON))
         (now : string) (w : World) (s : string) (application : Application)
         (others : list Application) (h : list JSON),
    t = visa_applications \/ t = travel_pass_applications ->
    get "status" body = Some (JStr s) -> In s (status_enum t) ->
    select_where_id key (table_rows t (db w)) = application :: others ->
    history_read t application = Some h ->
    reads_back (JArr (h ++ [pushed_entry t s user now application])) ->
    exists application' others',
      code (fst (answer (put_status t user key body now) w)) = 200 /\
      select_where_id key
        (table_rows t (db (snd (answer (put_status t user key body now) w))))
        = application' :: others' /\
      status application' = s /\
      history_read t application'
        = Some (h ++ [pushed_entry t s user now application])%list /\
      List.length (h ++ [pushed_entry t s user now application]) = S (List.length h) /\
      (t = visa_applications ->
       previousStatus_of (pushed_entry t s user now application)
       = Some (JStr (status application))).
Proof.
  intros t user key body now w s application others h Ht Hget Hin Hsel Hread Hback.
  set (entry := pushed_entry t s user now application) in *.
  set (text := JSON_stringify (JArr (h ++ [entry]))).
  exists (set_status_history s text now application),
         (map (set_status_history s text now) others).
  assert (Hlen : List.length (h ++ [entry]) = S (List.length h)).
  { rewrite length_app. simpl. lia. }
  destruct Ht as [-> | ->]; simpl in *.
  - rewrite (put_visa_status_runs user key body now w Hget Hin Hsel Hread).
    simpl. rewrite db_notified. simpl.
    rewrite select_update_where_id by (intros; reflexivity). rewrite Hsel. simpl.
    repeat split; try assumption.
    apply history_read_written. exact Hback.
  - assert (Hfound : travel_history_found (select_where_id key (travel_pass (db w)))
                     = Some h).
    { rewrite Hsel. exact Hread. }
    rewrite (put_travel_pass_status_runs key body now w Hget Hin Hfound).
    simpl. rewrite select_update_where_id by (intros; reflexivity). rewrite Hsel. simpl.
    repeat split; try assumption.
    + apply history_read_written. exact Hback.
    + discriminate.
Qed.

(** C2, amended.  A valid status for a visa application id that no row
    has: the handler answers 404 and leaves every table as it was. *)
Theorem visa_status_unknown_id_not_found :
  forall (user : Claims) (key : Z) (body : list (string * JSON)) (now : string)
         (w : World) (s : string),
    get "status" body = Some (JStr s) -> In s (status_enum visa_applications) ->
    select_where_id key (table_rows visa_applications (db w)) = [] ->
    fst (answer (put_status visa_applications user key body now) w)
      = error 404 "Application not found" /\
    db (snd (answer (put_status visa_applications user key body now) w)) = db w.
Proof.
  intros user key body now w s Hget Hin Hsel. simpl in *.
  rewrite (put_visa_status_missing user key body now w Hget Hin Hsel).
  split; reflexivity.
Qed.

(** C6.  When the mail provider rejects the notification of a visa status
    update, the handler logs the failure and still answers with the success
    body; the new status and the extended history stay written, and nothing
    is added to the outbox. *)
Theorem mail_failure_swallowed :
  forall (user : Claims) (key : Z) (body : list (string * JSON)) (now : string)
         (w : World) (s : string) (application : Application)
         (others : list Application) (h : list JSON),
    get "status" body = Some (JStr s) -> In s validStatuses ->
    select_where_id key (visa (db w)) = application :: others ->
    history_read visa_applications application = Some h ->
    mail_configured = true ->
    sgMail_accepts env (status_mail application s) = false ->
    let text :=
      JSON_stringify
        (JArr (h ++ [history_entry s (claim_username user) now (status application)])) in
    answer (put_visa_status user key body now) w =
      (visa_status_updated application s,
       {| db := set_rows visa_applications
                  (update_where_id key (set_status_history s text now) (visa (db w))) (db w);
          outbox := outbox w;
          console := console w ++ ["Failed to send status update email:"];
          queries := queries w ++ [SELECT "visa_applications"; UPDATE "visa_applications"] |})
    /\ select_where_id key (visa (db (snd (answer (put_visa_status user key body now) w))))
       = map (set_status_history s text now) (application :: others).
Proof.
  intros user key body now w s application others h Hget Hin Hsel Hread Hconf Hrej text.
  rewrite (put_visa_status_runs user key body now w Hget Hin Hsel Hread).
  unfold notified. rewrite Hconf, Hrej. fold text. simpl. split; [reflexivity |].
  rewrite select_update_where_id by (intros; reflexivity). rewrite Hsel. reflexivity.
Qed.

(** A marriage, birth-certificate or travel-pass status update answered
    with 200 returns [{ success: true }] and nothing else. *)
Lemma plain_status_response :
  forall t user key body now w,
    t <> visa_applications ->
    code (fst (answer (put_status t user key body now) w)) = 200 ->
    body_of (fst (answer (put_status t user key body now) w))
    = Some (JObj [("success", JBool true)]).
Proof.
  intros t user key body now w Hne Hok.
  destruct (includes (status_enum t) (get "status" body)) eqn:Hinc.
  - apply includes_In in Hinc. destruct Hinc as [s [Hget Hin]].
    destruct t.
    + contradiction (Hne eq_refl).
    + rewrite (put_plain_status_runs user key body now w (or_introl eq_refl) Hget Hin).
      reflexivity.
    + rewrite (put_plain_status_runs user key body now w (or_intror eq_refl) Hget Hin).
      reflexivity.
    + change (In s travel_validStatuses) in Hin. cbn [put_status] in *.
      destruct (travel_history_found (select_where_id key (travel_pass (db w))))
        as [h |] eqn:Hfound.
      * rewrite (put_travel_pass_status_runs key body now w Hget Hin Hfound). reflexivity.
      * rewrite (put_travel_pass_status_unreadable key body now w Hget Hin Hfound) in Hok.
        discriminate.
  - exfalso.
    destruct t; simpl in Hinc, Hok;
      unfold put_visa_status, put_marriage_status, put_birth_certificate_status,
             put_travel_pass_status in Hok;
      rewrite Hinc, ?orb_true_r in Hok; discriminate.
Qed.

(** C7, amended.  Every visa status update answered with 200 returns the
    id of the application, the status requested and the status the row had
    before. *)
Theorem successful_status_response :
  forall (user : Claims) (key : Z) (body : list (string * JSON)) (now : string)
         (w : World),
    code (fst (answer (put_status visa_applications user key body now) w)) = 200 ->
    exists s application others,
      get "status" body = Some (JStr s) /\ In s validStatuses /\
      select_where_id key (visa (db w)) = application :: others /\
      body_of (fst (answer (put_status visa_applications user key body now) w))
      = Some (JObj [("success", JBool true);
                    ("application",
                     JObj [("id", JNum (id application));
                           ("status", JStr s);
                           ("previousStatus", JStr (status application))])]).
Proof.
  intros user key body now w Hok. cbn [put_status] in *.
  destruct (includes validStatuses (get "status" body)) eqn:Hinc.
  - apply includes_In in Hinc. destruct Hinc as [s [Hget Hin]].
    destruct (select_where_id key (visa (db w))) as [| application others] eqn:Hsel.
    + rewrite (put_visa_status_missing user key body now w Hget Hin Hsel) in Hok.
      discriminate.
    + destruct (history_read visa_applications application) as [h |] eqn:Hread.
      * exists s, application, others.
        rewrite (put_visa_status_runs user key body now w Hget Hin Hsel Hread).
        repeat split; assumption.
      * rewrite (put_visa_status_unreadable user key body now w Hget Hin Hsel Hread)
          in Hok.
        discriminate.
  - unfold put_visa_status in Hok. rewrite Hinc, orb_true_r in Hok. discriminate.
Qed.

(** A request whose token verifies reaches the handler, which sees the
    decoded claims as [req.user]. *)
Lemma authMiddleware_decoded : forall cred token user next,
  presented_token cred = Some token -> token <> "" ->
  verifyToken token = Some user ->
  authMiddleware cred next = next user.
Proof.
  intros cred token user next Hcred Hne Hverify. unfold authMiddleware.
  rewrite Hcred. apply String.eqb_neq in Hne. rewrite Hne, Hverify. reflexivity.
Qed.

Lemma authMiddleware_untouched : forall cred next w,
  (forall user, snd (answer (next user) w) = w) ->
  snd (answer (authMiddleware cred next) w) = w.
Proof.
  intros cred next w Hnext. unfold authMiddleware.
  destruct (presented_token cred) as [token |]; [| reflexivity].
  destruct (token =? "")%string; [reflexivity |].
  destruct (verifyToken token) as [decoded |]; [apply Hnext | reflexivity].
Qed.

Lemma adminMiddleware_untouched : forall user next w,
  snd (answer next w) = w -> snd (answer (adminMiddleware user next) w) = w.
Proof.
  intros user next w Hnext. unfold adminMiddleware.
  destruct user as [u |]; [| reflexivity].
  destruct (negb (isAdmin u)); [reflexivity | exact Hnext].
Qed.

(** C4.  A status outside the enum of the application type (a missing
    status and a value that is not a string included) is answered with
    400 by each of the four handlers, and the world is left as it was:
    no row changes and no statement reaches the database.  The same holds
    of the whole route, whoever sends the request. *)
Theorem invalid_status_rejected :
  forall (t : AppTable) (user : Claims) (key : Z) (body : list (string * JSON))
         (now : string) (w : World),
    (forall s, get "status" body = Some (JStr s) -> ~ In s (status_enum t)) ->
    (exists msg, answer (put_status t user key body now) w = (error 400 msg, w)) /\
    (forall cred, snd (serve now (PUT_status t cred key body) w) = w).
Proof.
  intros t user key body now w Hout.
  apply includes_outside in Hout.
  assert (Hhandler : forall u,
            exists msg, answer (put_status t u key body now) w = (error 400 msg, w)).
  { intros u.
    destruct t; simpl in Hout; simpl;
      unfold put_visa_status, put_marriage_status, put_birth_certificate_status,
             put_travel_pass_status;
      rewrite Hout; rewrite ?orb_true_r; simpl; run; eexists; reflexivity. }
  split; [apply Hhandler |].
  intros cred. unfold serve. cbn [route].
  apply authMiddleware_untouched. intros u. apply adminMiddleware_untouched.
  destruct (Hhandler u) as [msg ->]. reflexivity.
Qed.

Lemma chat_body_fields : forall sid body,
  chat_body sid body = true ->
  (get "sessionId" body = Some (JStr sid) /\ sid <> "") /\
  truthy (get "userName" body) = true /\ truthy (get "userEmail" body) = true.
Proof.
  intros sid body H. unfold chat_body, filled in H.
  apply andb_prop in H. destruct H as [H He].
  apply andb_prop in H. destruct H as [Hs Hn].
  apply andb_prop in Hn. apply andb_prop in He.
  destruct (get "sessionId" body) as [[| | | s | |] |]; try discriminate.
  apply andb_prop in Hs. destruct Hs as [Heq Hne].
  apply String.eqb_eq in Heq. subst s.
  destruct Hn as [_ Hn]. destruct He as [_ He].
  repeat split; try assumption.
  intros ->. simpl in Hne. discriminate.
Qed.

(** C5.  A caller who is not an administrator and asks for what another
    user owns is answered 403 with a fixed error body by each list, detail
    and PDF handler: the list handlers answer before any query, the detail
    and PDF handlers after the one SELECT that tells them the owner, and no
    part of a row enters the response. *)
Theorem non_owner_reads_forbidden :
  forall (t : AppTable) (user : Claims) (w : World),
    isAdmin user = false ->
    (forall username,
        username <> "" ->
        claim_username user <> list_owner t username ->
        answer (get_by_user t user username) w = (forbidden t, w)) /\
    (forall key application others,
        select_where_id key (table_rows t (db w)) = application :: others ->
        claim_username user <> user_name application ->
        answer (get_application t user key) w
          = (error 403 "Access denied", selected t w) /\
        answer (get_application_pdf t user key) w
          = (error 403 "Access denied", selected t w)).
Proof.
  intros t user w Hadmin. split.
  - intros username Hne Hother.
    apply String.eqb_neq in Hne. apply String.eqb_neq in Hother.
    destruct t; simpl in *;
      unfold get_applications_of_user, get_travel_pass_applications_of_user;
      rewrite ?Hne, Hadmin, Hother; reflexivity.
  - intros key application others Hsel Hother.
    apply String.eqb_neq in Hother.
    unfold get_application, get_application_pdf, select_application, selected.
    run. rewrite Hsel, Hadmin, Hother. simpl. split; reflexivity.
Qed.

(** The get-or-create handler on a session that has a conversation. *)
Lemma post_chat_conversation_found :
  forall body now w sid found more,
    chat_body sid body = true ->
    conversations_of sid (db w) = found :: more ->
    answer (post_chat_conversation body now) w =
      (json 200
         (JObj [("conversation", conversation_json found);
                ("messages",
                 JArr (map message_json
                         (filter (fun m => conversation_id m =? conv_id found)
                                 (chat_messages (db w)))))]),
       {| db := db w; outbox := outbox w; console := console w;
          queries := queries w ++ [SELECT "chat_conversations"; SELECT "chat_messages"] |}).
Proof.
  intros body now w sid found more Hbody Hfound.
  apply chat_body_fields in Hbody. destruct Hbody as [[Hsid Hne] [Hn He]].
  unfold conversations_of in Hfound.
  unfold post_chat_conversation. rewrite Hsid, Hn, He.
  apply String.eqb_neq in Hne. simpl. rewrite Hne. simpl.
  unfold select_conversation, select_messages. run.
  rewrite Hfound. simpl. rewrite <- app_assoc. reflexivity.
Qed.

(** The get-or-create handler on a session that has no conversation. *)
Lemma post_chat_conversation_created :
  forall body now w sid,
    chat_body sid body = true ->
    conversations_of sid (db w) = [] ->
    answer (post_chat_conversation body now) w =
      (json 200
         (JObj [("conversation",
                 JObj [("id", JNum (next_key (map conv_id (chat_conversations (db w)))));
                       ("session_id", JStr sid);
                       ("user_name", param (get "userName" body));
                       ("user_email", param (get "userEmail" body));
                       ("status", JStr "active")]);
                ("messages", JArr [])]),
       {| db := set_chat_conversations
                  (chat_conversations (db w) ++ [new_conversation sid body now (db w)])
                  (db w);
          outbox := outbox w; console := console w;
          queries := queries w ++ [SELECT "chat_conversations";
                                   INSERT "chat_conversations"] |}).
Proof.
  intros body now w sid Hbody Hfound.
  apply chat_body_fields in Hbody. destruct Hbody as [[Hsid Hne] [Hn He]].
  unfold conversations_of in Hfound.
  assert (Hnone : existsb (fun c => (session_id c =? sid)%string)
                          (chat_conversations (db w)) = false).
  { destruct (existsb (fun c => (session_id c =? sid)%string)
                      (chat_conversations (db w))) eqn:E; [| reflexivity].
    apply existsb_exists in E. destruct E as [c [Hin Hc]].
    assert (Hf : In c (filter (fun c => (session_id c =? sid)%string)
                              (chat_conversations (db w)))).
    { apply filter_In. split; assumption. }
    rewrite Hfound in Hf. contradiction. }
  unfold post_chat_conversation. rewrite Hsid, Hn, He.
  apply String.eqb_neq in Hne. simpl. rewrite Hne. simpl.
  unfold select_conversation, insert_conversation, new_conversation. run.
  rewrite Hfound. simpl. rewrite Hnone. simpl. rewrite <- app_assoc. reflexivity.
Qed.

(** C9.  Two calls of the chat get-or-create with the same session id,
    whatever names and times they carry: both are answered 200 with the
    same conversation id, the second call changes no table, and a session
    that had no conversation has exactly one afterwards. *)
Theorem chat_conversation_idempotent :
  forall (body1 body2 : list (string * JSON)) (now1 now2 : string) (w : World)
         (sid : string),
    chat_body sid body1 = true -> chat_body sid body2 = true ->
    let first := answer (post_chat_conversation body1 now1) w in
    let second := answer (post_chat_conversation body2 now2) (snd first) in
    exists cid,
      code (fst first) = 200 /\ code (fst second) = 200 /\
      conversation_id_of (fst first) = Some (JNum cid) /\
      conversation_id_of (fst second) = Some (JNum cid) /\
      db (snd second) = db (snd first) /\
      (conversations_of sid (db w) = [] ->
       List.length (conversations_of sid (db (snd second))) = 1%nat) /\
      (conversations_of sid (db w) <> [] -> db (snd second) = db w).
Proof.
  intros body1 body2 now1 now2 w sid H1 H2 first second.
  destruct (conversations_of sid (db w)) as [| found more] eqn:Hfound.
  - assert (Hfirst := post_chat_conversation_created body1 now1 w sid H1 Hfound).
    fold first in Hfirst.
    assert (Hnow : conversations_of sid (db (snd first))
                   = [new_conversation sid body1 now1 (db w)]).
    { rewrite Hfirst. unfold conversations_of in *. simpl.
      rewrite filter_app, Hfound. simpl. rewrite String.eqb_refl. reflexivity. }
    assert (Hsecond := post_chat_conversation_found body2 now2 (snd first) sid H2 Hnow).
    fold second in Hsecond.
    exists (next_key (map conv_id (chat_conversations (db w)))).
    rewrite Hsecond. simpl. rewrite Hnow. rewrite Hfirst. simpl.
    repeat split; try reflexivity. intros Habs. contradiction Habs; reflexivity.
  - assert (Hfirst := post_chat_conversation_found body1 now1 w sid H1 Hfound).
    fold first in Hfirst.
    assert (Hnow : conversations_of sid (db (snd first)) = found :: more).
    { rewrite Hfirst. exact Hfound. }
    assert (Hsecond := post_chat_conversation_found body2 now2 (snd first) sid H2 Hnow).
    fold second in Hsecond.
    exists (conv_id found).
    rewrite Hsecond. rewrite Hfirst. simpl.
    repeat split; try reflexivity. intros Habs. discriminate.
Qed.

(** *** Handlers that keep a property of the store *)

Lemma preserves_ret : forall P A (a : A), preserves P (ret a).
Proof. intros P A a w H. exact H. Qed.

Lemma preserves_respond : forall P A r, preserves P (@respond A r).
Proof. intros P A r w H. exact H. Qed.

Lemma preserves_throw : forall P A e, preserves P (@throw A e).
Proof. intros P A e w H. exact H. Qed.

Lemma preserves_console_error : forall P line, preserves P (console_error line).
Proof. intros P line w H. exact H. Qed.

Lemma preserves_bind : forall P A B (m : Handler A) (k : A -> Handler B),
  preserves P m -> (forall a, preserves P (k a)) -> preserves P (bind m k).
Proof.
  intros P A B m k Hm Hk w H. unfold bind.
  specialize (Hm w H). destruct (m w) as [[a | r | e] w']; simpl in *.
  - apply Hk. exact Hm.
  - exact Hm.
  - exact Hm.
Qed.

Lemma preserves_try_catch : forall P A (m : Handler A) (handler : Error -> Handler A),
  preserves P m -> (forall e, preserves P (handler e)) -> preserves P (try_catch m handler).
Proof.
  intros P A m handler Hm Hh w H. unfold try_catch.
  specialize (Hm w H). destruct (m w) as [[a | r | e] w']; simpl in *.
  - exact Hm.
  - exact Hm.
  - apply Hh. exact Hm.
Qed.

Lemma preserves_pool_query : forall P A q (run : Store -> Outcome A * Store),
  (forall s, P s -> P (snd (run s))) -> preserves P (pool_query q run).
Proof.
  intros P A q run Hrun w H. unfold pool_query.
  specialize (Hrun (db w) H). destruct (run (db w)) as [o s]. exact Hrun.
Qed.

Lemma preserves_sgMail_send : forall P mail, preserves P (sgMail_send mail).
Proof.
  intros P mail w H. unfold sgMail_send.
  destruct (sgMail_accepts env mail); exact H.
Qed.

Lemma preserves_answer : forall P (h : Handler Response) w,
  preserves P h -> P (db w) -> P (db (snd (answer h w))).
Proof.
  intros P h w Hh H. unfold answer. specialize (Hh w H).
  destruct (h w) as [[a | r | e] w']; exact Hh.
Qed.

(** A SELECT writes nothing, whatever its parameter. *)
Lemma preserves_select_conversation_by : forall P sessionId,
  preserves P (select_conversation_by sessionId).
Proof.
  intros P sessionId. unfold select_conversation_by, select_conversation.
  destruct sessionId; apply preserves_pool_query; intros store H;
    try destruct (sql_where_session _); exact H.
Qed.

(** One step through a handler's text. *)
Ltac preserve_step :=
  match goal with
  | |- preserves _ (select_conversation_by _) => apply preserves_select_conversation_by
  | |- preserves _ (bind _ _) => apply preserves_bind; [| intro]
  | |- preserves _ (try_catch _ _) => apply preserves_try_catch; [| intro]
  | |- preserves _ (ret _) => apply preserves_ret
  | |- preserves _ (respond _) => apply preserves_respond
  | |- preserves _ (throw _) => apply preserves_throw
  | |- preserves _ (console_error _) => apply preserves_console_error
  | |- preserves _ (sgMail_send _) => apply preserves_sgMail_send
  | |- preserves _ (pool_query _ _) =>
      apply preserves_pool_query; intros ? ?; cbv beta zeta; cbn [snd]
  | |- preserves _ (match ?x with _ => _ end) => destruct x
  end.

Lemma statuses_set_login : forall l s, statuses_in_enum s -> statuses_in_enum (set_login l s).
Proof. intros l s H t r Hin. apply (H t). destruct t; exact Hin. Qed.

Lemma statuses_set_chat_conversations : forall l s,
  statuses_in_enum s -> statuses_in_enum (set_chat_conversations l s).
Proof. intros l s H t r Hin. apply (H t). destruct t; exact Hin. Qed.

Lemma statuses_set_rows : forall t l s,
  statuses_in_enum s ->
  (forall r, In r l -> In (status r) (status_enum t)) ->
  statuses_in_enum (set_rows t l s).
Proof.
  intros t l s H Hl t' r Hin.
  destruct t, t'; simpl in Hin;
    first [ exact (Hl r Hin) | apply (H _ r); exact Hin ].
Qed.

(** A row inserted with a status of the enum keeps the invariant. *)
Lemma statuses_insert : forall t row s,
  statuses_in_enum s -> In (status row) (status_enum t) ->
  statuses_in_enum (set_rows t (table_rows t s ++ [row]) s).
Proof.
  intros t row s H Hrow. apply statuses_set_rows; [exact H |].
  intros r Hin. apply in_app_or in Hin. destruct Hin as [Hin | [<- | []]].
  - exact (H t r Hin).
  - exact Hrow.
Qed.

(** An UPDATE that writes statuses of the enum keeps the invariant. *)
Lemma statuses_update : forall t key f s,
  statuses_in_enum s ->
  (forall r, In (status r) (status_enum t) -> In (status (f r)) (status_enum t)) ->
  statuses_in_enum (set_rows t (update_where_id key f (table_rows t s)) s).
Proof.
  intros t key f s H Hf. apply statuses_set_rows; [exact H |].
  intros r Hin. unfold update_where_id in Hin. apply in_map_iff in Hin.
  destruct Hin as [r0 [Heq Hin0]]. specialize (H t r0 Hin0).
  destruct (id r0 =? key); subst r; [apply Hf |]; exact H.
Qed.

Lemma pending_in_enum : forall t, In "pending" (status_enum t).
Proof. intros []; simpl; auto. Qed.

(** Creation writes ['pending']. *)
Lemma post_application_preserves : forall t user body now,
  preserves statuses_in_enum (post_application t user body now).
Proof.
  intros t user body now.
  destruct t; simpl;
    unfold post_visa_application, post_marriage_application,
           post_birth_certificate_application, post_travel_pass_application,
           validated, insert_application;
    repeat preserve_step; split_if; try assumption;
    (apply statuses_insert; [assumption | apply pending_in_enum]).
Qed.

Lemma checked_status_in_enum : forall arr v,
  includes arr v = true -> In (str v) arr.
Proof.
  intros arr v H. apply includes_In in H. destruct H as [s [-> Hin]]. exact Hin.
Qed.

(** A status update writes a value that passed the membership check. *)
Lemma put_status_preserves : forall t user key body now,
  preserves statuses_in_enum (put_status t user key body now).
Proof.
  intros t user key body now.
  destruct t; simpl;
    unfold put_visa_status, put_marriage_status, put_birth_certificate_status,
           put_travel_pass_status.
  - destruct (includes validStatuses (get "status" body)) eqn:Hinc;
      [| rewrite orb_true_r; apply preserves_respond].
    apply checked_status_in_enum in Hinc.
    destruct (negb (truthy (get "status" body))); simpl; [apply preserves_respond |].
    unfold select_application, update_application, parse, call_push.
    repeat preserve_step; try assumption;
      try (apply (statuses_update visa_applications); [assumption | intros; exact Hinc]).
  - destruct (includes validStatuses (get "status" body)) eqn:Hinc;
      [| rewrite orb_true_r; apply preserves_respond].
    apply checked_status_in_enum in Hinc.
    destruct (negb (truthy (get "status" body))); simpl; [apply preserves_respond |].
    unfold update_application.
    repeat preserve_step;
      apply (statuses_update marriage_applications); [assumption | intros; exact Hinc].
  - destruct (includes validStatuses (get "status" body)) eqn:Hinc;
      [| rewrite orb_true_r; apply preserves_respond].
    apply checked_status_in_enum in Hinc.
    destruct (negb (truthy (get "status" body))); simpl; [apply preserves_respond |].
    unfold update_application.
    repeat preserve_step;
      apply (statuses_update birth_certificate_applications);
      [assumption | intros; exact Hinc].
  - destruct (includes travel_validStatuses (get "status" body)) eqn:Hinc;
      simpl; [| apply preserves_respond].
    apply checked_status_in_enum in Hinc.
    unfold select_application, update_application, parse, call_push.
    repeat preserve_step; try assumption;
      apply (statuses_update travel_pass_applications); [assumption | intros; exact Hinc].
Qed.

(** Tracking data with a carrier the driver sends as one value leaves the
    status alone. *)
Lemma put_tracking_preserves : forall t key body now,
  scalar (or_null (get "carrier" body)) = true ->
  preserves statuses_in_enum (put_tracking t key body now).
Proof.
  intros t key body now Hscalar.
  destruct t; simpl; unfold put_visa_tracking, put_tracking_plain, update_tracking;
    rewrite Hscalar;
    match goal with |- preserves _ (if ?c then _ else _) => destruct c end;
    try apply preserves_respond;
    unfold select_application, update_application, call_trim, tracking_mail,
           call_toUpperCase;
    repeat preserve_step; try assumption;
    try (match goal with
         | |- statuses_in_enum (set_rows ?t _ _) =>
             apply (statuses_update t); [assumption | intros r Hr; exact Hr]
         end);
    repeat (match goal with
            | |- preserves _ (if ?c then _ else _) => destruct c
            end; repeat preserve_step).
Qed.

Lemma preserves_authMiddleware : forall P cred next,
  (forall user, preserves P (next user)) -> preserves P (authMiddleware cred next).
Proof.
  intros P cred next Hnext. unfold authMiddleware.
  repeat preserve_step; apply Hnext.
Qed.

Lemma preserves_adminMiddleware : forall P user next,
  preserves P next -> preserves P (adminMiddleware user next).
Proof.
  intros P user next Hnext. unfold adminMiddleware.
  repeat preserve_step; exact Hnext.
Qed.

(** The read handlers write nothing. *)
Lemma reads_preserve : forall P t user key username,
  preserves P (get_application t user key) /\
  preserves P (get_application_pdf t user key) /\
  preserves P (get_by_user t user username).
Proof.
  intros P t user key username.
  unfold get_application, get_application_pdf, get_by_user, get_applications_of_user,
         get_travel_pass_applications_of_user, select_application, select_by_user_name.
  repeat split; repeat preserve_step; assumption.
Qed.

(** Signup, login and the chat touch no application table. *)
Lemma accounts_and_chat_preserve : forall body now,
  preserves statuses_in_enum (post_signup body) /\
  preserves statuses_in_enum (post_login body) /\
  preserves statuses_in_enum (post_chat_conversation body now).
Proof.
  intros body now.
  unfold post_signup, post_login, post_chat_conversation, validated, call_toLowerCase,
         call_hash, call_compare, insert_login, select_login, select_conversation, select_messages,
         insert_conversation.
  repeat split; repeat preserve_step; try assumption;
    match goal with |- _ (snd (if ?c then _ else _)) => destruct c end;
    cbn [snd]; try assumption;
    first [ apply statuses_set_login | apply statuses_set_chat_conversations ];
    assumption.
Qed.

Lemma route_preserves : forall now req,
  plain_carrier req = true -> preserves statuses_in_enum (route now req).
Proof.
  intros now req Hplain.
  destruct req as [body | body | t cred body | t cred key body | t cred key body
                   | t cred key | t cred key | t cred username | body];
    cbn [route]; cbn [plain_carrier] in Hplain.
  - apply (accounts_and_chat_preserve body now).
  - apply (accounts_and_chat_preserve body now).
  - apply preserves_authMiddleware. intros user. apply post_application_preserves.
  - apply preserves_authMiddleware. intros user. apply preserves_adminMiddleware.
    apply put_status_preserves.
  - apply preserves_authMiddleware. intros user. apply preserves_adminMiddleware.
    apply put_tracking_preserves. exact Hplain.
  - apply preserves_authMiddleware. intros user.
    apply (reads_preserve statuses_in_enum t user key "").
  - apply preserves_authMiddleware. intros user.
    apply (reads_preserve statuses_in_enum t user key "").
  - apply preserves_authMiddleware. intros user.
    apply (reads_preserve statuses_in_enum t user 0 username).
  - apply (accounts_and_chat_preserve body now).
Qed.

(** What creation does to its table: nothing, or one more row, with status
    ['pending']. *)
Lemma post_application_rows : forall t user body now w,
  table_rows t (db (snd (answer (post_application t user body now) w)))
    = table_rows t (db w) \/
  exists row,
    status row = "pending" /\
    table_rows t (db (snd (answer (post_application t user body now) w)))
      = (table_rows t (db w) ++ [row])%list.
Proof.
  intros t user body now w.
  destruct t; cbn [post_application];
    unfold post_visa_application, post_marriage_application,
           post_birth_certificate_application, post_travel_pass_application,
           validated, insert_application;
    try (destruct (express_validator visaApplicationValidation body) as [msg | sanitized];
         [left; reflexivity |]);
    first [ left; reflexivity
          | right; run; eexists; (split; [| reflexivity]); reflexivity ].
Qed.

(** What a status update does to the store: nothing, or an UPDATE of the
    rows with the given id that writes a status found in the enum. *)
Lemma put_status_writes : forall t user key body now w,
  db (snd (answer (put_status t user key body now) w)) = db w \/
  (includes (status_enum t) (get "status" body) = true /\
   exists f,
     (forall r, status (f r) = str (get "status" body)) /\
     db (snd (answer (put_status t user key body now) w))
       = set_rows t (update_where_id key f (table_rows t (db w))) (db w)).
Proof.
  intros t user key body now w.
  destruct (includes (status_enum t) (get "status" body)) eqn:Hinc.
  - assert (Hinc' := Hinc). apply includes_In in Hinc'. destruct Hinc' as [s [Hget Hin]].
    assert (Hs : str (get "status" body) = s) by (rewrite Hget; reflexivity).
    rewrite Hs. destruct t.
    + change (In s validStatuses) in Hin. cbn [put_status].
      destruct (select_where_id key (visa (db w))) as [| application others] eqn:Hsel.
      * left. rewrite (put_visa_status_missing user key body now w Hget Hin Hsel).
        reflexivity.
      * destruct (history_read visa_applications application) as [h |] eqn:Hread.
        -- right. split; [reflexivity |].
           rewrite (put_visa_status_runs user key body now w Hget Hin Hsel Hread).
           eexists. split; [| cbn [snd]; rewrite db_notified; reflexivity].
           intros r. reflexivity.
        -- left.
           rewrite (put_visa_status_unreadable user key body now w Hget Hin Hsel Hread).
           reflexivity.
    + right. split; [reflexivity |].
      rewrite (put_plain_status_runs user key body now w (or_introl eq_refl) Hget Hin).
      eexists. split; [| reflexivity]. intros r. reflexivity.
    + right. split; [reflexivity |].
      rewrite (put_plain_status_runs user key body now w (or_intror eq_refl) Hget Hin).
      eexists. split; [| reflexivity]. intros r. reflexivity.
    + change (In s travel_validStatuses) in Hin. cbn [put_status].
      destruct (travel_history_found (select_where_id key (travel_pass (db w))))
        as [h |] eqn:Hfound.
      * right. split; [reflexivity |].
        rewrite (put_travel_pass_status_runs key body now w Hget Hin Hfound).
        eexists. split; [| reflexivity]. intros r. reflexivity.
      * left. rewrite (put_travel_pass_status_unreadable key body now w Hget Hin Hfound).
        reflexivity.
  - left.
    destruct t; simpl in Hinc; cbn [put_status];
      unfold put_visa_status, put_marriage_status, put_birth_certificate_status,
             put_travel_pass_status;
      rewrite Hinc, ?orb_true_r; reflexivity.
Qed.

(** With carriers the driver sends as one value, every row of every
    application table keeps a status of the enum its status handler
    checks. *)
Lemma plain_statuses_in_enum : forall w, reachable_plain w -> statuses_in_enum (db w).
Proof.
  intros w Hreach. induction Hreach as [| w now req Hreach IH Hplain].
  - intros t r Hin. destruct t; contradiction.
  - unfold serve. apply preserves_answer; [apply route_preserves; exact Hplain | exact IH].
Qed.

(** What a tracking update with an array or an object as its carrier does
    to the store: nothing, or the rows the expanded statement leaves. *)
Lemma put_tracking_plain_expanded : forall t key body now w,
  scalar (or_null (get "carrier" body)) = false ->
  db (snd (answer (put_tracking_plain t key body now) w)) = db w \/
  exists rows,
    update_each (fun r => if id r =? key
                          then sql_set_expanded t (trim (str (get "trackingNumber" body)))
                                                (or_null (get "carrier" body)) now r
                          else Some r)
                (table_rows t (db w)) = Some rows /\
    db (snd (answer (put_tracking_plain t key body now) w)) = set_rows t rows (db w).
Proof.
  intros t key body now w Hscalar.
  unfold put_tracking_plain, update_tracking. rewrite Hscalar.
  destruct (get "trackingNumber" body) as [[| | | number | |] |];
    cbn [is_string negb]; rewrite ?orb_true_r; try (left; reflexivity).
  rewrite orb_false_r.
  destruct (negb (truthy (Some (JStr number)))); [left; reflexivity |].
  unfold call_trim. run.
  destruct (update_each _ (table_rows t (db w))) as [rows |] eqn:Hrows;
    [| left; reflexivity].
  destruct (distinct (map id rows)); [| left; reflexivity].
  right. exists rows. split; reflexivity.
Qed.

(** The token a response carries. *)
Lemma signup_token : forall body w,
  code (fst (answer (post_signup body) w)) = 200 ->
  exists insertId name,
    token_of (fst (answer (post_signup body) w))
    = Some (JStr (generateToken {| claim_id := insertId; claim_username := name;
                                   isAdmin := false |})).
Proof.
  intros body w. unfold post_signup, validated.
  destruct (express_validator signupValidation body) as [msg | sanitized];
    [intros H; discriminate |].
  unfold call_hash, call_toLowerCase, insert_login.
  destruct (get "password" sanitized) as [[| | | plain | |] |]; run;
    try (intros H; discriminate).
  destruct (get "username" sanitized) as [[| | | name | |] |]; simpl;
    try (intros H; discriminate).
  destruct (existsb _ (login (db w))); simpl; [intros H; discriminate |].
  intros _. eexists. eexists. reflexivity.
Qed.

Lemma login_token : forall body w,
  code (fst (answer (post_login body) w)) = 200 ->
  exists user,
    In user (login (db w)) /\
    token_of (fst (answer (post_login body) w))
    = Some (JStr (generateToken {| claim_id := user_id user;
                                   claim_username := username user;
                                   isAdmin := str_includes "admin" (username user) |})).
Proof.
  intros body w. unfold post_login, validated.
  destruct (express_validator loginValidation body) as [msg | sanitized];
    [intros H; discriminate |].
  unfold call_toLowerCase, select_login.
  destruct (get "username" sanitized) as [[| | | name | |] |]; run;
    try (intros H; discriminate).
  destruct (filter (fun u => (username u =? toLowerCase name)%string) (login (db w)))
    as [| user others] eqn:Hrows; simpl; [intros H; discriminate |].
  unfold call_compare.
  destruct (get "password" sanitized) as [[| | | plain | |] |]; simpl;
    try (intros H; discriminate).
  destruct (bcrypt_compare plain (password user)); simpl;
    [| intros H; discriminate].
  intros _. exists user. split; [| reflexivity].
  assert (Hin : In user (user :: others)) by (left; reflexivity).
  rewrite <- Hrows in Hin. apply filter_In in Hin. destruct Hin as [Hin _]. exact Hin.
Qed.

(** C10.  With a token library that verifies, under the server's secret,
    what it signed under it: the token of every signup answered 200
    verifies to claims with [isAdmin: false], whatever the user name, also
    one that contains ["admin"]; the token of every login answered 200
    verifies to the id and the name of a stored account and to the flag
    recomputed from that stored name: whether it contains ["admin"]. *)
Theorem tokens_admin_flag :
  forall (body : list (string * JSON)) (w : World),
    (forall payload : Claims,
        jwt_verify (jwt_sign payload (JWT_SECRET env) (JWT_EXPIRES_IN env)) (JWT_SECRET env)
        = Some payload) ->
    (code (fst (answer (post_signup body) w)) = 200 ->
     exists token decoded,
       token_of (fst (answer (post_signup body) w)) = Some (JStr token) /\
       verifyToken token = Some decoded /\
       isAdmin decoded = false) /\
    (code (fst (answer (post_login body) w)) = 200 ->
     exists token decoded user,
       token_of (fst (answer (post_login body) w)) = Some (JStr token) /\
       verifyToken token = Some decoded /\
       In user (login (db w)) /\
       claim_id decoded = user_id user /\
       claim_username decoded = username user /\
       isAdmin decoded = str_includes "admin" (username user)).
Proof.
  intros body w Hjwt. split.
  - intros Hok. destruct (signup_token body w Hok) as [insertId [name Htoken]].
    eexists. eexists. split; [exact Htoken |].
    split; [apply Hjwt | reflexivity].
  - intros Hok. destruct (login_token body w Hok) as [user [Hin Htoken]].
    eexists. eexists. exists user. split; [exact Htoken |].
    split; [apply Hjwt |]. repeat split. exact Hin.
Qed.

(** *** Authentication and authorization *)

Lemma substring_whole : forall s, String.substring 0 (String.length s) s = s.
Proof. induction s as [| c s IH]; simpl; [reflexivity | rewrite IH; reflexivity]. Qed.

Lemma presented_bearer : forall token cookie,
  presented_token {| authorization := Some ("Bearer " ++ token); cookie_token := cookie |}
  = Some token.
Proof.
  intros token cookie. unfold presented_token, startsWith. simpl.
  rewrite Nat.sub_0_r.
  destruct token as [| c token]; simpl; [reflexivity |].
  rewrite substring_whole. reflexivity.
Qed.

(** X1.  A header [Bearer <token>] with a token in it decides the token a
    request presents, whatever the cookie holds.  When that token does not
    verify, the request is refused with 401 'Invalid or expired token' and
    nothing is touched, even when the cookie carries a token that would
    verify; when it verifies, the handler runs for the claims of the
    header's token. *)
Theorem bearer_header_precedes_cookie :
  forall (token : string) (cookie : option string) (next : Claims -> Handler Response)
         (w : World),
    token <> "" ->
    let cred := {| authorization := Some ("Bearer " ++ token); cookie_token := cookie |} in
    presented_token cred = Some token /\
    (verifyToken token = None ->
     answer (authMiddleware cred next) w = (error 401 "Invalid or expired token", w)) /\
    (forall decoded, verifyToken token = Some decoded ->
                     authMiddleware cred next = next decoded).
Proof.
  intros token cookie next w Hne cred. apply String.eqb_neq in Hne.
  split; [apply presented_bearer |].
  unfold authMiddleware, cred. rewrite presented_bearer, Hne.
  split.
  - intros ->. reflexivity.
  - intros decoded ->. reflexivity.
Qed.

Lemma authMiddleware_refuses : forall cred next w,
  authenticated cred = None ->
  exists msg, answer (authMiddleware cred next) w = (error 401 msg, w).
Proof.
  intros cred next w H. unfold authenticated in H. unfold authMiddleware.
  destruct (presented_token cred) as [token |]; [| eexists; reflexivity].
  destruct (token =? "")%string; [eexists; reflexivity |].
  rewrite H. eexists; reflexivity.
Qed.

Lemma authMiddleware_admits : forall cred user next,
  authenticated cred = Some user -> authMiddleware cred next = next user.
Proof.
  intros cred user next H. unfold authenticated in H. unfold authMiddleware.
  destruct (presented_token cred) as [token |]; [| discriminate].
  destruct (token =? "")%string; [discriminate |].
  rewrite H. reflexivity.
Qed.

(** X2.  On each route of [route_all] behind [authMiddleware] (submission,
    status, tracking, detail, PDF, list by user, closing a conversation,
    a conversation's messages), a request whose credentials present no
    token, an empty token or a token that does not verify is answered 401
    with an error body, before the handler runs: the world is left exactly
    as it was. *)
Theorem unauthenticated_request_refused :
  forall (now : string) (op : Operation) (cred : Credentials) (w : World),
    credentials_of op = Some cred ->
    authenticated cred = None ->
    exists msg, serve_all now op w = (error 401 msg, w).
Proof.
  intros now op cred w Hcred Hauth. unfold serve_all.
  destruct op as [[body | body | t c body | t c key body | t c key body
                   | t c key | t c key | t c username | body]
                  | body | c key | sid | c key];
    simpl in Hcred; try discriminate; injection Hcred as ->;
    cbn [route_all route]; apply authMiddleware_refuses; exact Hauth.
Qed.

(** X3.  On the routes registered with [adminMiddleware] (status,
    tracking, closing a conversation, reading a conversation's messages), a
    caller whose verified token says [isAdmin: false] is answered 403
    'Admin access required' and the world is left exactly as it was. *)
Theorem admin_route_refuses_non_admin :
  forall (now : string) (op : Operation) (cred : Credentials) (user : Claims) (w : World),
    credentials_of op = Some cred ->
    admin_only op = true ->
    authenticated cred = Some user ->
    isAdmin user = false ->
    serve_all now op w = (error 403 "Admin access required", w).
Proof.
  intros now op cred user w Hcred Hadmin Hauth Hflag. unfold serve_all.
  destruct op as [[body | body | t c body | t c key body | t c key body
                   | t c key | t c key | t c username | body]
                  | body | c key | sid | c key];
    simpl in Hcred; try discriminate; simpl in Hadmin; try discriminate;
    injection Hcred as ->; cbn [route_all route];
    rewrite (authMiddleware_admits _ _ Hauth); unfold adminMiddleware;
    rewrite Hflag; reflexivity.
Qed.


(** *** Accounts *)

Lemma existsb_username : forall name l,
  existsb (fun u => (username u =? name)%string) l = true <->
  exists u, In u l /\ username u = name.
Proof.
  intros name l. rewrite existsb_exists. split; intros [u [Hin Hu]]; exists u;
    (split; [exact Hin |]); apply String.eqb_eq; exact Hu.
Qed.

Lemma filter_username_none : forall name l,
  (forall u, In u l -> username u <> name) ->
  filter (fun u => (username u =? name)%string) l = [].
Proof.
  intros name l H. induction l as [| u l IH]; simpl; [reflexivity |].
  destruct (username u =? name)%string eqn:E.
  - apply String.eqb_eq in E. exfalso. apply (H u); [left; reflexivity | exact E].
  - apply IH. intros u' Hin. apply H. right. exact Hin.
Qed.

(** Signup with a name no account has. *)
Lemma post_signup_runs : forall body sanitized name plain w,
  express_validator signupValidation body = inr sanitized ->
  get "username" sanitized = Some (JStr name) ->
  get "password" sanitized = Some (JStr plain) ->
  (forall u, In u (login (db w)) -> username u <> toLowerCase name) ->
  answer (post_signup body) w =
    (json 200
       (JObj [("success", JBool true);
              ("token",
               JStr (generateToken {| claim_id := next_key (map user_id (login (db w)));
                                      claim_username := toLowerCase name;
                                      isAdmin := false |}));
              ("user",
               claims_json {| claim_id := next_key (map user_id (login (db w)));
                              claim_username := toLowerCase name;
                              isAdmin := false |}
                           (str (get "firstName" sanitized) ++ " "
                            ++ str (get "lastName" sanitized)))]),
     {| db := set_login (login (db w) ++ [new_user name plain sanitized (db w)]) (db w);
        outbox := outbox w; console := console w;
        queries := queries w ++ [INSERT "login"] |}).
Proof.
  intros body sanitized name plain w Hv Hname Hplain Hfresh.
  assert (Hnone : existsb (fun u => (username u =? toLowerCase name)%string)
                          (login (db w)) = false).
  { destruct (existsb (fun u => (username u =? toLowerCase name)%string)
                      (login (db w))) eqn:E; [| reflexivity].
    apply existsb_username in E. destruct E as [u [Hin Hu]].
    exfalso. exact (Hfresh u Hin Hu). }
  unfold post_signup, validated. rewrite Hv, Hname, Hplain.
  unfold call_hash, call_toLowerCase, insert_login, new_user. run.
  rewrite Hnone. reflexivity.
Qed.

(** X4.  Signup with a user name that, lower-cased, is already registered:
    the INSERT fails on the UNIQUE key, the answer is 409
    'Email already registered', and no table changes. *)
Theorem signup_duplicate_conflict :
  forall (body sanitized : list (string * JSON)) (name plain : string) (w : World),
    express_validator signupValidation body = inr sanitized ->
    get "username" sanitized = Some (JStr name) ->
    get "password" sanitized = Some (JStr plain) ->
    (exists u, In u (login (db w)) /\ username u = toLowerCase name) ->
    answer (post_signup body) w =
      (error 409 "Email already registered",
       {| db := db w; outbox := outbox w; console := console w;
          queries := queries w ++ [INSERT "login"] |}).
Proof.
  intros body sanitized name plain w Hv Hname Hplain Hdup.
  apply existsb_username in Hdup.
  unfold post_signup, validated. rewrite Hv, Hname, Hplain.
  unfold call_hash, call_toLowerCase, insert_login. run.
  rewrite Hdup. reflexivity.
Qed.

(** Login with the password of the first row found for the name. *)
Lemma post_login_runs : forall body sanitized name plain w user others,
  express_validator loginValidation body = inr sanitized ->
  get "username" sanitized = Some (JStr name) ->
  get "password" sanitized = Some (JStr plain) ->
  filter (fun u => (username u =? toLowerCase name)%string) (login (db w)) = user :: others ->
  bcrypt_compare plain (password user) = true ->
  answer (post_login body) w =
    (json 200
       (JObj [("success", JBool true);
              ("token", JStr (generateToken (login_claims user)));
              ("user", claims_json (login_claims user)
                                   (firstname user ++ " " ++ lastname user))]),
     {| db := db w; outbox := outbox w; console := console w;
        queries := queries w ++ [SELECT "login"] |}).
Proof.
  intros body sanitized name plain w user others Hv Hname Hplain Hrows Hok.
  unfold post_login, validated. rewrite Hv, Hname, Hplain.
  unfold call_toLowerCase, select_login, call_compare, login_claims. run.
  rewrite Hrows. simpl. rewrite Hok. reflexivity.
Qed.

Lemma post_signup_fresh : forall body sanitized name plain w,
  express_validator signupValidation body = inr sanitized ->
  get "username" sanitized = Some (JStr name) ->
  get "password" sanitized = Some (JStr plain) ->
  code (fst (answer (post_signup body) w)) = 200 ->
  forall u, In u (login (db w)) -> username u <> toLowerCase name.
Proof.
  intros body sanitized name plain w Hv Hname Hplain Hok u Hin Hu.
  assert (Hdup : exists u, In u (login (db w)) /\ username u = toLowerCase name)
    by (exists u; split; assumption).
  apply existsb_username in Hdup.
  unfold post_signup, validated in Hok. rewrite Hv, Hname, Hplain in Hok.
  unfold call_hash, call_toLowerCase, insert_login in Hok. revert Hok. run.
  rewrite Hdup. simpl. discriminate.
Qed.

(** X5.  Signup followed by login.  An account whose signup was answered
    200 can log in with the same password under any spelling of the name
    that lower-cases to the same text, provided the hash library accepts
    the password it hashed: login answers 200 with a token for the id
    signup assigned, the lower-cased name, and the administrator flag
    recomputed from that name; and login changes no table. *)
Theorem signup_then_login :
  forall (body sanitized body' sanitized' : list (string * JSON))
         (name name' plain : string) (w : World),
    express_validator signupValidation body = inr sanitized ->
    get "username" sanitized = Some (JStr name) ->
    get "password" sanitized = Some (JStr plain) ->
    code (fst (answer (post_signup body) w)) = 200 ->
    express_validator loginValidation body' = inr sanitized' ->
    get "username" sanitized' = Some (JStr name') ->
    get "password" sanitized' = Some (JStr plain) ->
    toLowerCase name' = toLowerCase name ->
    bcrypt_compare plain (bcrypt_hash plain) = true ->
    let registered := snd (answer (post_signup body) w) in
    let payload := {| claim_id := next_key (map user_id (login (db w)));
                      claim_username := toLowerCase name;
                      isAdmin := str_includes "admin" (toLowerCase name) |} in
    code (fst (answer (post_login body') registered)) = 200 /\
    token_of (fst (answer (post_login body') registered))
      = Some (JStr (generateToken payload)) /\
    db (snd (answer (post_login body') registered)) = db registered.
Proof.
  intros body sanitized body' sanitized' name name' plain w
         Hv Hname Hplain Hok200 Hv' Hname' Hplain' Hsame Hok registered payload.
  assert (Hfresh := @post_signup_fresh body sanitized name plain w Hv Hname Hplain Hok200).
  assert (Hreg : registered =
                 {| db := set_login (login (db w) ++ [new_user name plain sanitized (db w)])
                                    (db w);
                    outbox := outbox w; console := console w;
                    queries := queries w ++ [INSERT "login"] |}).
  { unfold registered.
    rewrite (@post_signup_runs body sanitized name plain w Hv Hname Hplain Hfresh).
    reflexivity. }
  assert (Hrows : filter (fun u => (username u =? toLowerCase name')%string)
                         (login (db registered))
                  = [new_user name plain sanitized (db w)]).
  { rewrite Hreg, Hsame. simpl. rewrite filter_app.
    rewrite (@filter_username_none _ _ Hfresh). simpl.
    rewrite String.eqb_refl. reflexivity. }
  rewrite (@post_login_runs body' sanitized' name' plain registered _ _
             Hv' Hname' Hplain' Hrows Hok).
  repeat split; reflexivity.
Qed.

(** X6.  Login refuses an unknown name and a wrong password in the same
    words: whenever no account of the (lower-cased) name accepts the
    password, the answer is 401 'Invalid credentials', and no table
    changes. *)
Theorem login_refusal_uniform :
  forall (body sanitized : list (string * JSON)) (name plain : string) (w : World),
    express_validator loginValidation body = inr sanitized ->
    get "username" sanitized = Some (JStr name) ->
    get "password" sanitized = Some (JStr plain) ->
    (forall u, In u (login (db w)) -> username u = toLowerCase name ->
               bcrypt_compare plain (password u) = false) ->
    fst (answer (post_login body) w) = error 401 "Invalid credentials" /\
    db (snd (answer (post_login body) w)) = db w.
Proof.
  intros body sanitized name plain w Hv Hname Hplain Hno.
  unfold post_login, validated. rewrite Hv, Hname, Hplain.
  unfold call_toLowerCase, select_login, call_compare. run.
  destruct (filter (fun u => (username u =? toLowerCase name)%string) (login (db w)))
    as [| user others] eqn:Hrows; simpl; [split; reflexivity |].
  assert (Hin : In user (filter (fun u => (username u =? toLowerCase name)%string)
                                (login (db w)))).
  { rewrite Hrows. left. reflexivity. }
  apply filter_In in Hin. destruct Hin as [Hin Hu]. apply String.eqb_eq in Hu.
  rewrite (Hno user Hin Hu). simpl. split; reflexivity.
Qed.


(** *** Keys, unique columns and references *)

Lemma next_key_above : forall keys k, In k keys -> k < next_key keys.
Proof.
  intros keys k H. unfold next_key.
  induction keys as [| x keys IH]; [contradiction |].
  cbn [fold_right]. destruct H as [-> | H]; [lia |].
  specialize (IH H). lia.
Qed.

Lemma next_key_fresh : forall keys, ~ In (next_key keys) keys.
Proof. intros keys H. apply next_key_above in H. lia. Qed.

Lemma NoDup_snoc : forall (A : Type) (l : list A) (x : A),
  NoDup l -> ~ In x l -> NoDup (l ++ [x]).
Proof.
  intros A l x Hl Hx. induction Hl as [| y l Hy Hl IH]; simpl.
  - constructor; [intros [] | constructor].
  - constructor.
    + intros Hin. apply in_app_or in Hin. destruct Hin as [Hin | [-> | []]].
      * exact (Hy Hin).
      * apply Hx. left. reflexivity.
    + apply IH. intros Hin. apply Hx. right. exact Hin.
Qed.

Lemma lower_ascii_idempotent : forall c, lower_ascii (lower_ascii c) = lower_ascii c.
Proof. intros [[] [] [] [] [] [] [] []]; reflexivity. Qed.

Lemma toLowerCase_idempotent : forall s, toLowerCase (toLowerCase s) = toLowerCase s.
Proof.
  unfold toLowerCase. induction s as [| c s IH]; simpl; [reflexivity |].
  rewrite lower_ascii_idempotent, IH. reflexivity.
Qed.

Lemma table_rows_set_rows : forall t l s, table_rows t (set_rows t l s) = l.
Proof. intros [] l s; reflexivity. Qed.

Lemma table_rows_set_rows_other : forall t t' l s,
  t' <> t -> table_rows t' (set_rows t l s) = table_rows t' s.
Proof. intros [] [] l s H; try reflexivity; contradiction H; reflexivity. Qed.

Lemma map_id_update_where_id : forall key f l,
  (forall r, id (f r) = id r) -> map id (update_where_id key f l) = map id l.
Proof.
  intros key f l Hid. unfold update_where_id. rewrite map_map.
  apply map_ext. intros r. destruct (id r =? key); [apply Hid | reflexivity].
Qed.

Lemma consistent_empty : consistent empty_store.
Proof.
  constructor; simpl; try constructor; try contradiction.
  intros []; constructor.
Qed.

Lemma consistent_insert_login : forall s name hash first last,
  consistent s ->
  existsb (fun u => (username u =? toLowerCase name)%string) (login s) = false ->
  consistent (set_login (login s ++ [{| user_id := next_key (map user_id (login s));
                                        username := toLowerCase name; password := hash;
                                        firstname := first; lastname := last |}]) s).
Proof.
  intros s name hash first last H Hnone. destruct H. constructor; simpl; try assumption.
  - rewrite map_app. apply NoDup_snoc; [assumption | apply next_key_fresh].
  - rewrite map_app. apply NoDup_snoc; [assumption |].
    intros Hin. apply in_map_iff in Hin. destruct Hin as [u [Hu Hin]].
    assert (E : existsb (fun u => (username u =? toLowerCase name)%string) (login s) = true).
    { apply existsb_exists. exists u. split; [exact Hin | apply String.eqb_eq; exact Hu]. }
    rewrite Hnone in E. discriminate.
  - intros u Hin. apply in_app_or in Hin. destruct Hin as [Hin | [<- | []]].
    + apply usernames_lower0. exact Hin.
    + simpl. apply toLowerCase_idempotent.
Qed.

Lemma consistent_set_rows : forall s t l,
  consistent s -> NoDup (map id l) -> consistent (set_rows t l s).
Proof.
  intros s t l H Hl. destruct H.
  constructor; try (destruct t; simpl; assumption).
  intros t'. specialize (application_ids_unique0 t').
  destruct t, t'; simpl; assumption.
Qed.

Lemma consistent_insert_application : forall s t owner initial columns now,
  consistent s ->
  consistent
    (set_rows t (table_rows t s ++
                 [{| id := next_key (map id (table_rows t s)); user_name := owner;
                     status := initial; tracking_number := None;
                     shipping_carrier := None; status_history := None; form := columns;
                     created_at := now; updated_at := now |}]) s).
Proof.
  intros s t owner initial columns now H. apply consistent_set_rows; [exact H |].
  rewrite map_app. apply NoDup_snoc; [apply (application_ids_unique H) | apply next_key_fresh].
Qed.

Lemma consistent_update_application : forall s t key f,
  consistent s -> (forall r, id (f r) = id r) ->
  consistent (set_rows t (update_where_id key f (table_rows t s)) s).
Proof.
  intros s t key f H Hid. apply consistent_set_rows; [exact H |].
  rewrite (map_id_update_where_id _ _ _ Hid). apply (application_ids_unique H).
Qed.

Lemma consistent_insert_conversation : forall s sid name email now,
  consistent s ->
  existsb (fun c => (session_id c =? sid)%string) (chat_conversations s) = false ->
  consistent
    (set_chat_conversations
       (chat_conversations s ++
        [{| conv_id := next_key (map conv_id (chat_conversations s)); session_id := sid;
            conv_user_name := name; conv_user_email := email; conv_status := "active";
            last_message_at := now; conv_created_at := now |}]) s).
Proof.
  intros s sid name email now H Hnone. destruct H. constructor; simpl; try assumption.
  - rewrite map_app. apply NoDup_snoc; [assumption | apply next_key_fresh].
  - rewrite map_app. apply NoDup_snoc; [assumption |].
    intros Hin. apply in_map_iff in Hin. destruct Hin as [c [Hc Hin]].
    assert (E : existsb (fun c => (session_id c =? sid)%string) (chat_conversations s) = true).
    { apply existsb_exists. exists c. split; [exact Hin | apply String.eqb_eq; exact Hc]. }
    rewrite Hnone in E. discriminate.
  - intros c Hin. apply in_app_or in Hin. destruct Hin as [Hin | [<- | []]].
    + apply conversation_statuses0. exact Hin.
    + left. reflexivity.
  - intros m Hin. rewrite map_app. apply in_or_app. left.
    apply messages_belong0. exact Hin.
Qed.

Lemma consistent_update_conversation : forall s key f,
  consistent s ->
  (forall c, conv_id (f c) = conv_id c) ->
  (forall c, session_id (f c) = session_id c) ->
  (forall c, conv_status c = "active" \/ conv_status c = "closed" ->
             conv_status (f c) = "active" \/ conv_status (f c) = "closed") ->
  consistent
    (set_chat_conversations
       (map (fun c => if conv_id c =? key then f c else c) (chat_conversations s)) s).
Proof.
  intros s key f H Hid Hsid Hst. destruct H.
  assert (Eid : map conv_id (map (fun c => if conv_id c =? key then f c else c)
                                 (chat_conversations s))
                = map conv_id (chat_conversations s)).
  { rewrite map_map. apply map_ext. intros c.
    destruct (conv_id c =? key); [apply Hid | reflexivity]. }
  assert (Esid : map session_id (map (fun c => if conv_id c =? key then f c else c)
                                     (chat_conversations s))
                 = map session_id (chat_conversations s)).
  { rewrite map_map. apply map_ext. intros c.
    destruct (conv_id c =? key); [apply Hsid | reflexivity]. }
  constructor; simpl; try assumption.
  - rewrite Eid. assumption.
  - rewrite Esid. assumption.
  - intros c Hin. apply in_map_iff in Hin. destruct Hin as [c0 [<- Hin]].
    specialize (conversation_statuses0 c0 Hin).
    destruct (conv_id c0 =? key); [apply Hst |]; assumption.
  - rewrite Eid. assumption.
Qed.

Lemma consistent_insert_message : forall s conversation sender name text now,
  consistent s ->
  In conversation (map conv_id (chat_conversations s)) ->
  consistent
    (set_chat_messages
       (chat_messages s ++
        [{| msg_id := next_key (map msg_id (chat_messages s));
            conversation_id := conversation; sender_type := sender; sender_name := name;
            message := text; msg_created_at := now |}]) s).
Proof.
  intros s conversation sender name text now H Hin. destruct H.
  constructor; simpl; try assumption.
  - rewrite map_app. apply NoDup_snoc; [assumption | apply next_key_fresh].
  - intros m Hm. apply in_app_or in Hm. destruct Hm as [Hm | [<- | []]].
    + apply messages_belong0. exact Hm.
    + exact Hin.
Qed.


Lemma post_signup_consistent : forall body, preserves consistent (post_signup body).
Proof.
  intros body w H. unfold post_signup, validated.
  destruct (express_validator signupValidation body) as [msg | sanitized]; [exact H |].
  unfold call_hash, call_toLowerCase, insert_login.
  destruct (get "password" sanitized) as [[| | | plain | |] |]; run; try exact H.
  destruct (get "username" sanitized) as [[| | | name | |] |]; simpl; try exact H.
  destruct (existsb (fun u => (username u =? toLowerCase name)%string) (login (db w)))
    eqn:E; simpl; [exact H |].
  apply consistent_insert_login; assumption.
Qed.

Lemma post_login_consistent : forall body, preserves consistent (post_login body).
Proof.
  intros body.
  unfold post_login, validated, call_toLowerCase, call_compare, select_login.
  repeat preserve_step; assumption.
Qed.

Lemma post_application_consistent : forall t user body now,
  preserves consistent (post_application t user body now).
Proof.
  intros t user body now.
  destruct t; simpl;
    unfold post_visa_application, post_marriage_application,
           post_birth_certificate_application, post_travel_pass_application,
           validated, insert_application;
    repeat preserve_step; split_if; try assumption;
    apply consistent_insert_application; assumption.
Qed.

Ltac consistent_update :=
  match goal with
  | |- consistent (set_rows _ (update_where_id _ _ _) _) =>
      apply consistent_update_application; [assumption | intros r; reflexivity]
  | |- consistent _ => assumption
  end.

Lemma put_status_consistent : forall t user key body now,
  preserves consistent (put_status t user key body now).
Proof.
  intros t user key body now.
  destruct t; simpl;
    unfold put_visa_status, put_marriage_status, put_birth_certificate_status,
           put_travel_pass_status;
    match goal with |- preserves _ (if ?c then _ else _) => destruct c end;
    try apply preserves_respond;
    unfold select_application, update_application, parse, call_push;
    repeat preserve_step; consistent_update.
Qed.

Lemma distinct_NoDup : forall keys, distinct keys = true -> NoDup keys.
Proof.
  induction keys as [| k rest IH]; simpl; intros H; [constructor |].
  apply andb_prop in H. destruct H as [Hk Hrest].
  constructor; [| apply IH; exact Hrest].
  intros Hin.
  assert (E : existsb (Z.eqb k) rest = true).
  { apply existsb_exists. exists k. split; [exact Hin | apply Z.eqb_refl]. }
  rewrite E in Hk. discriminate.
Qed.

(** The UPDATE of a tracking route keeps the keys of its table distinct,
    whatever its carrier. *)
Lemma update_tracking_consistent : forall t key number carrier now,
  preserves consistent (update_tracking t key number carrier now).
Proof.
  intros t key number carrier now. unfold update_tracking, update_application.
  destruct (scalar carrier); apply preserves_pool_query; intros s H; cbv beta zeta.
  - cbn [snd]. apply consistent_update_application; [exact H | intros r; reflexivity].
  - destruct (update_each _ (table_rows t s)) as [rows |]; [| exact H].
    destruct (distinct (map id rows)) eqn:Hkeys; cbn [snd]; [| exact H].
    apply consistent_set_rows; [exact H | apply distinct_NoDup; exact Hkeys].
Qed.

Lemma put_tracking_consistent : forall t key body now,
  preserves consistent (put_tracking t key body now).
Proof.
  intros t key body now.
  destruct t; simpl; unfold put_visa_tracking, put_tracking_plain;
    match goal with |- preserves _ (if ?c then _ else _) => destruct c end;
    try apply preserves_respond;
    unfold select_application, call_trim, tracking_mail, call_toUpperCase;
    repeat preserve_step; try apply update_tracking_consistent; try consistent_update;
    repeat (match goal with
            | |- preserves _ (if ?c then _ else _) => destruct c
            end; repeat preserve_step).
Qed.

Lemma post_chat_conversation_consistent : forall body now,
  preserves consistent (post_chat_conversation body now).
Proof.
  intros body now.
  unfold post_chat_conversation, select_conversation, select_messages, insert_conversation.
  repeat preserve_step; try assumption.
  match goal with |- _ (snd (if ?c then _ else _)) => destruct c eqn:E end;
    cbn [snd]; [assumption |].
  apply consistent_insert_conversation; assumption.
Qed.

Lemma closed_keeps : forall now c,
  conv_id (closed now c) = conv_id c /\ session_id (closed now c) = session_id c /\
  conv_status (closed now c) = "closed".
Proof.
  intros now c. unfold closed.
  destruct (conv_status c =? "closed")%string eqn:E; simpl; repeat split.
  apply String.eqb_eq. exact E.
Qed.

Lemma chat_reads_and_close_consistent : forall key sid now,
  preserves consistent (put_chat_close key now) /\
  preserves consistent (get_chat_session sid) /\
  preserves consistent (get_chat_messages key).
Proof.
  intros key sid now.
  unfold put_chat_close, get_chat_session, get_chat_messages, update_conversation,
         select_conversation, select_messages.
  split; [| split]; repeat preserve_step; try assumption.
  apply consistent_update_conversation; [assumption | | |]; intros c.
  - apply closed_keeps.
  - apply closed_keeps.
  - intros _. right. apply closed_keeps.
Qed.

Lemma filter_head_In : forall (A : Type) (p : A -> bool) (l : list A) (x : A) (rest : list A),
  filter p l = x :: rest -> In x l /\ p x = true.
Proof.
  intros A p l x rest H. apply filter_In. rewrite H. left. reflexivity.
Qed.

Lemma post_chat_message_consistent : forall body now,
  preserves consistent (post_chat_message body now).
Proof.
  intros body now w H. unfold post_chat_message.
  match goal with |- context [if ?c then _ else _] => destruct c end; [exact H |].
  unfold select_conversation_by, select_conversation, insert_message, update_conversation.
  destruct (param (get "sessionId" body)); run;
    try (destruct (sql_where_session _); simpl; [| exact H]);
    match goal with
    | |- context [filter ?p (chat_conversations (db w))] =>
        destruct (filter p (chat_conversations (db w))) as [| found more] eqn:Hfound
    end;
    simpl; try exact H;
    apply filter_head_In in Hfound; destruct Hfound as [Hin _];
    (apply (@consistent_update_conversation (set_chat_messages _ (db w)) (conv_id found)
              (touched now));
     [ apply consistent_insert_message; [exact H | apply in_map; exact Hin]
     | intros c; reflexivity
     | intros c; reflexivity
     | intros c Hc; exact Hc ]).
Qed.

Lemma route_all_consistent : forall now op, preserves consistent (route_all now op).
Proof.
  intros now op.
  destruct op as [[body | body | t cred body | t cred key body | t cred key body
                   | t cred key | t cred key | t cred username | body]
                  | body | cred key | sid | cred key];
    cbn [route_all route].
  - apply post_signup_consistent.
  - apply post_login_consistent.
  - apply preserves_authMiddleware. intros user. apply post_application_consistent.
  - apply preserves_authMiddleware. intros user. apply preserves_adminMiddleware.
    apply put_status_consistent.
  - apply preserves_authMiddleware. intros user. apply preserves_adminMiddleware.
    apply put_tracking_consistent.
  - apply preserves_authMiddleware. intros user.
    apply (reads_preserve consistent t user key "").
  - apply preserves_authMiddleware. intros user.
    apply (reads_preserve consistent t user key "").
  - apply preserves_authMiddleware. intros user.
    apply (reads_preserve consistent t user 0 username).
  - apply post_chat_conversation_consistent.
  - apply post_chat_message_consistent.
  - apply preserves_authMiddleware. intros user. apply preserves_adminMiddleware.
    apply (chat_reads_and_close_consistent key "" now).
  - apply (chat_reads_and_close_consistent 0 sid now).
  - apply preserves_authMiddleware. intros user. apply preserves_adminMiddleware.
    apply (chat_reads_and_close_consistent key "" now).
Qed.

Lemma reachable_all_consistent : forall w, reachable_all w -> consistent (db w).
Proof.
  intros w Hreach. induction Hreach as [| w now op Hreach IH].
  - apply consistent_empty.
  - unfold serve_all. apply preserves_answer; [apply route_all_consistent | exact IH].
Qed.


Lemma filter_at_most_one :
  forall (A B : Type) (f : A -> B) (p : A -> bool) (l : list A),
    NoDup (map f l) ->
    (forall x y, p x = true -> p y = true -> f x = f y) ->
    (List.length (filter p l) <= 1)%nat.
Proof.
  intros A B f p l Hnd Hp. induction l as [| a l IH]; simpl; [lia |].
  inversion Hnd as [| ? ? Hout Hrest]; subst.
  destruct (p a) eqn:E; [| apply IH; exact Hrest].
  destruct (filter p l) as [| y rest] eqn:Hf; simpl; [lia |].
  exfalso. apply Hout.
  destruct (filter_head_In p l Hf) as [Hin Hy].
  rewrite (Hp a y E Hy). apply in_map. exact Hin.
Qed.

Lemma filter_the_one :
  forall (A B : Type) (f : A -> B) (p : A -> bool) (l : list A) (x : A),
    NoDup (map f l) ->
    (forall y z, p y = true -> p z = true -> f y = f z) ->
    In x l -> p x = true -> filter p l = [x].
Proof.
  intros A B f p l x Hnd Hp Hin Hx.
  assert (Hlen := filter_at_most_one f p l Hnd Hp).
  assert (Hx' : In x (filter p l)) by (apply filter_In; split; assumption).
  destruct (filter p l) as [| y [| z rest]]; simpl in *.
  - contradiction.
  - destruct Hx' as [-> | []]. reflexivity.
  - lia.
Qed.

(** X7.  Primary keys.  In every world the server can reach from a fresh
    database through the routes of [route_all], no table holds an id twice;
    so the [rows[0]] a handler takes from a [SELECT ... WHERE id = ?] is
    the only row there is. *)
Theorem reachable_keys_unique :
  forall w : World,
    reachable_all w ->
    NoDup (map user_id (login (db w))) /\
    NoDup (map conv_id (chat_conversations (db w))) /\
    NoDup (map msg_id (chat_messages (db w))) /\
    (forall t, NoDup (map id (table_rows t (db w)))) /\
    (forall t key, (List.length (select_where_id key (table_rows t (db w))) <= 1)%nat).
Proof.
  intros w Hreach. apply reachable_all_consistent in Hreach. destruct Hreach.
  repeat split; try assumption.
  intros t key. unfold select_where_id.
  apply (filter_at_most_one id); [apply application_ids_unique0 |].
  intros x y Hx Hy. apply Z.eqb_eq in Hx. apply Z.eqb_eq in Hy. congruence.
Qed.

(** X8.  Accounts.  In every world reachable through the routes of
    [route_all] the user names of [login] are pairwise distinct and stored
    lower-cased; so the query login runs for an account's own name, in any
    spelling, returns that account and nothing else. *)
Theorem reachable_accounts_distinct :
  forall w : World,
    reachable_all w ->
    NoDup (map username (login (db w))) /\
    (forall u, In u (login (db w)) -> toLowerCase (username u) = username u) /\
    (forall u name,
        In u (login (db w)) -> toLowerCase name = username u ->
        filter (fun u' => (username u' =? toLowerCase name)%string) (login (db w)) = [u]).
Proof.
  intros w Hreach. apply reachable_all_consistent in Hreach. destruct Hreach.
  repeat split; try assumption.
  intros u name Hin Hname.
  apply (filter_the_one username); try assumption.
  - intros y z Hy Hz. apply String.eqb_eq in Hy. apply String.eqb_eq in Hz. congruence.
  - apply String.eqb_eq. symmetry. exact Hname.
Qed.

(** X9.  Chat tables.  In every world reachable through the routes of
    [route_all] a session id has at most one conversation, every
    conversation is ['active'] or ['closed'], and every message belongs to
    a conversation that exists. *)
Theorem reachable_chat_consistent :
  forall w : World,
    reachable_all w ->
    (forall sid, (List.length (conversations_of sid (db w)) <= 1)%nat) /\
    (forall c, In c (chat_conversations (db w)) ->
               conv_status c = "active" \/ conv_status c = "closed") /\
    (forall m, In m (chat_messages (db w)) ->
               exists c, In c (chat_conversations (db w)) /\ conv_id c = conversation_id m).
Proof.
  intros w Hreach. apply reachable_all_consistent in Hreach. destruct Hreach.
  repeat split; try assumption.
  - intros sid. unfold conversations_of.
    apply (filter_at_most_one session_id); [assumption |].
    intros x y Hx Hy. apply String.eqb_eq in Hx. apply String.eqb_eq in Hy. congruence.
  - intros m Hin. specialize (messages_belong0 m Hin).
    apply in_map_iff in messages_belong0. destruct messages_belong0 as [c [Hc Hcin]].
    exists c. split; assumption.
Qed.


(** *** What an update leaves alone *)

Lemma changes_only_refl : forall t key (V : Type) (view : Application -> V) s,
  changes_only t key view s s.
Proof. intros. unfold changes_only. repeat split; reflexivity. Qed.

Lemma filter_other_update_where_id : forall key f l,
  (forall r, id (f r) = id r) ->
  filter (fun r => negb (id r =? key)) (update_where_id key f l)
  = filter (fun r => negb (id r =? key)) l.
Proof.
  intros key f l Hid. unfold update_where_id.
  induction l as [| r l IH]; simpl; [reflexivity |].
  destruct (id r =? key) eqn:E.
  - rewrite Hid, E. simpl. exact IH.
  - rewrite E. simpl. rewrite IH. reflexivity.
Qed.

Lemma changes_only_update :
  forall t key (V : Type) (view : Application -> V) f s0 s,
    changes_only t key view s0 s ->
    (forall r, id (f r) = id r) -> (forall r, view (f r) = view r) ->
    changes_only t key view s0 (set_rows t (update_where_id key f (table_rows t s)) s).
Proof.
  intros t key V view f s0 s [Hl [Hc [Hm [Ht [Hv Hf]]]]] Hid Hview.
  unfold changes_only. rewrite table_rows_set_rows.
  repeat split.
  - rewrite <- Hl. destruct t; reflexivity.
  - rewrite <- Hc. destruct t; reflexivity.
  - rewrite <- Hm. destruct t; reflexivity.
  - intros t' Hne. rewrite (table_rows_set_rows_other _ _ Hne). apply Ht. exact Hne.
  - rewrite <- Hv. unfold update_where_id. rewrite map_map.
    apply map_ext. intros r. destruct (id r =? key); [apply Hview | reflexivity].
  - rewrite <- Hf. apply filter_other_update_where_id. exact Hid.
Qed.

Ltac local_update :=
  match goal with
  | |- changes_only _ _ _ _ (set_rows _ (update_where_id _ _ _) _) =>
      apply changes_only_update; [assumption | intros r; reflexivity | intros r; reflexivity]
  | |- changes_only _ _ _ _ _ => assumption
  end.

Lemma put_status_local : forall t user key body now s0,
  preserves (changes_only t key beside_status s0) (put_status t user key body now).
Proof.
  intros t user key body now s0.
  destruct t; simpl;
    unfold put_visa_status, put_marriage_status, put_birth_certificate_status,
           put_travel_pass_status;
    match goal with |- preserves _ (if ?c then _ else _) => destruct c end;
    try apply preserves_respond;
    unfold select_application, update_application, parse, call_push;
    repeat preserve_step; local_update.
Qed.

Lemma put_tracking_local : forall t key body now s0,
  scalar (or_null (get "carrier" body)) = true ->
  preserves (changes_only t key beside_tracking s0) (put_tracking t key body now).
Proof.
  intros t key body now s0 Hscalar.
  destruct t; simpl; unfold put_visa_tracking, put_tracking_plain, update_tracking;
    rewrite Hscalar;
    match goal with |- preserves _ (if ?c then _ else _) => destruct c end;
    try apply preserves_respond;
    unfold select_application, update_application, call_trim, tracking_mail,
           call_toUpperCase;
    repeat preserve_step; try local_update;
    repeat (match goal with
            | |- preserves _ (if ?c then _ else _) => destruct c
            end; repeat preserve_step).
Qed.

(** X10.  A status update is local.  Whatever the request and whatever it
    is answered, [PUT /:id/status] on table [t] leaves the accounts, the
    chat and the other three tables as they were, keeps the number and
    order of the rows of [t], changes no row with another id, and in the
    rows it does change leaves id, owner, tracking data, form and creation
    time alone. *)
Theorem status_update_is_local :
  forall (t : AppTable) (user : Claims) (key : Z) (body : list (string * JSON))
         (now : string) (w : World),
    changes_only t key beside_status (db w)
      (db (snd (answer (put_status t user key body now) w))).
Proof.
  intros t user key body now w.
  apply (preserves_answer (P := changes_only t key beside_status (db w))).
  - apply put_status_local.
  - apply changes_only_refl.
Qed.

(** X11.  A tracking update whose carrier is absent, [null], a string, a
    number or a boolean never touches a status or a history.  Whatever
    else the request holds and whatever it is answered,
    [PUT /:id/tracking] on table [t] then leaves every other table as it
    was, changes no row with another id, and in the rows it does change
    leaves id, owner, status, status history, form and creation time
    alone.  A carrier that is an array or an object is outside this
    statement: the driver expands it into the text of the UPDATE, where an
    object assigns further columns. *)
Theorem tracking_update_keeps_status :
  forall (t : AppTable) (key : Z) (body : list (string * JSON)) (now : string) (w : World),
    scalar (or_null (get "carrier" body)) = true ->
    changes_only t key beside_tracking (db w)
      (db (snd (answer (put_tracking t key body now) w))).
Proof.
  intros t key body now w Hscalar.
  apply (preserves_answer (P := changes_only t key beside_tracking (db w))).
  - apply put_tracking_local. exact Hscalar.
  - apply changes_only_refl.
Qed.


(** *** Creating and reading applications *)

Lemma select_where_id_none : forall key l,
  (forall r, In r l -> id r <> key) -> select_where_id key l = [].
Proof.
  intros key l H. unfold select_where_id.
  induction l as [| r l IH]; simpl; [reflexivity |].
  assert (Hr : id r <> key) by (apply H; left; reflexivity).
  apply Z.eqb_neq in Hr. rewrite Hr.
  apply IH. intros r' Hin. apply H. right. exact Hin.
Qed.

Lemma select_where_id_fresh : forall l row,
  id row = next_key (map id l) ->
  select_where_id (next_key (map id l)) (l ++ [row]) = [row].
Proof.
  intros l row Hid. unfold select_where_id. rewrite filter_app. simpl.
  rewrite Hid, Z.eqb_refl.
  fold (select_where_id (next_key (map id l)) l).
  rewrite select_where_id_none; [reflexivity |].
  intros r Hin Heq. apply (next_key_fresh (map id l)).
  rewrite <- Heq. apply in_map. exact Hin.
Qed.

(** Creation of a visa, marriage or birth-certificate application, when
    the body passes the rules registered for the route: one INSERT of a
    ['pending'] row owned by the caller. *)
Lemma post_application_runs : forall t user body now w,
  t <> travel_pass_applications ->
  (t = visa_applications ->
   exists sanitized, express_validator visaApplicationValidation body = inr sanitized) ->
  exists row,
    answer (post_application t user body now) w =
      (created (next_key (map id (table_rows t (db w)))),
       {| db := set_rows t (table_rows t (db w) ++ [row]) (db w);
          outbox := outbox w; console := console w;
          queries := queries w ++ [INSERT (table_name t)] |}) /\
    id row = next_key (map id (table_rows t (db w))) /\
    user_name row = owner_of t user /\ status row = "pending" /\
    tracking_number row = None /\ status_history row = None /\ created_at row = now.
Proof.
  intros t user body now w Htable Hvalid.
  destruct t; try (exfalso; apply Htable; reflexivity); cbn [post_application];
    unfold post_visa_application, post_marriage_application,
           post_birth_certificate_application, validated, insert_application;
    try (destruct (Hvalid eq_refl) as [sanitized ->]);
    run; eexists; (split; [reflexivity | repeat split]).
Qed.

(** The travel-pass INSERT names [user_id], a column its table lacks: the
    database refuses it and the handler answers 500, storing nothing. *)
Lemma post_travel_pass_application_refused : forall user body now w,
  answer (post_travel_pass_application user body now) w =
    (error 500 "Failed to submit application",
     {| db := db w; outbox := outbox w;
        console := console w ++ ["travel pass application"];
        queries := queries w ++ [INSERT "travel_pass_applications"] |}).
Proof.
  intros user body now w.
  unfold post_travel_pass_application, insert_application. run. reflexivity.
Qed.

Lemma post_application_accepted : forall t user body now w,
  code (fst (answer (post_application t user body now) w)) = 200 ->
  t <> travel_pass_applications /\
  (t = visa_applications ->
   exists sanitized, express_validator visaApplicationValidation body = inr sanitized).
Proof.
  intros t user body now w Hok. split.
  - intros ->. cbn [post_application] in Hok.
    rewrite post_travel_pass_application_refused in Hok. discriminate.
  - intros ->. cbn [post_application] in Hok.
    unfold post_visa_application, validated in Hok.
    destruct (express_validator visaApplicationValidation body) as [msg | sanitized];
      [discriminate | exists sanitized; reflexivity].
Qed.

(** X12.  Create, then read.  When a submission is answered 200, by a
    caller whose token carries a lower-case user name, the answer names the
    next free id of the table, and the same caller reading that id right
    away gets 200 and the row just stored: owned by the caller,
    ['pending'], without tracking data or history.  (A travel-pass
    submission is never answered 200: its INSERT names [user_id], a column
    the table lacks.) *)
Theorem created_application_reads_back :
  forall (t : AppTable) (user : Claims) (body : list (string * JSON)) (now : string)
         (w : World),
    owner_of t user = claim_username user ->
    let posted := answer (post_application t user body now) w in
    code (fst posted) = 200 ->
    exists row,
      fst posted = created (next_key (map id (table_rows t (db w)))) /\
      id row = next_key (map id (table_rows t (db w))) /\
      user_name row = claim_username user /\ status row = "pending" /\
      tracking_number row = None /\ status_history row = None /\
      answer (get_application t user (id row)) (snd posted)
        = (json 200 (row_json row), selected t (snd posted)).
Proof.
  intros t user body now w Howner posted Hok.
  destruct (@post_application_accepted t user body now w Hok) as [Htable Hvalid].
  destruct (@post_application_runs t user body now w Htable Hvalid)
    as [row [Hrun [Hid [Hname [Hstatus [Htrack [Hhist _]]]]]]].
  exists row. unfold posted. rewrite Hrun. cbn [fst snd].
  rewrite Howner in Hname.
  repeat split; try assumption.
  unfold get_application, select_application, selected. run.
  rewrite table_rows_set_rows. rewrite Hid.
  rewrite (select_where_id_fresh _ _ Hid). simpl.
  rewrite Hname, String.eqb_refl, andb_false_r. reflexivity.
Qed.


(** *** Handlers that send no mail *)

Lemma silent_ret : forall A (a : A), silent (ret a).
Proof. intros A a w. reflexivity. Qed.

Lemma silent_respond : forall A r, silent (@respond A r).
Proof. intros A r w. reflexivity. Qed.

Lemma silent_throw : forall A e, silent (@throw A e).
Proof. intros A e w. reflexivity. Qed.

Lemma silent_console_error : forall line, silent (console_error line).
Proof. intros line w. reflexivity. Qed.

Lemma silent_pool_query : forall A q (run : Store -> Outcome A * Store),
  silent (pool_query q run).
Proof. intros A q run w. unfold pool_query. destruct (run (db w)). reflexivity. Qed.

Lemma silent_bind : forall A B (m : Handler A) (k : A -> Handler B),
  silent m -> (forall a, silent (k a)) -> silent (bind m k).
Proof.
  intros A B m k Hm Hk w. unfold bind. specialize (Hm w).
  destruct (m w) as [[a | r | e] w']; simpl in *; try exact Hm.
  rewrite Hk. exact Hm.
Qed.

Lemma silent_try_catch : forall A (m : Handler A) (handler : Error -> Handler A),
  silent m -> (forall e, silent (handler e)) -> silent (try_catch m handler).
Proof.
  intros A m handler Hm Hh w. unfold try_catch. specialize (Hm w).
  destruct (m w) as [[a | r | e] w']; simpl in *; try exact Hm.
  rewrite Hh. exact Hm.
Qed.

Lemma silent_answer : forall (h : Handler Response) w,
  silent h -> outbox (snd (answer h w)) = outbox w.
Proof.
  intros h w Hh. unfold answer. specialize (Hh w).
  destruct (h w) as [[a | r | e] w']; exact Hh.
Qed.

Lemma silent_update_tracking : forall t key number carrier now,
  silent (update_tracking t key number carrier now).
Proof.
  intros t key number carrier now. unfold update_tracking, update_application.
  destruct (scalar carrier); apply silent_pool_query.
Qed.

Lemma silent_select_conversation_by : forall sessionId,
  silent (select_conversation_by sessionId).
Proof.
  intros sessionId. unfold select_conversation_by, select_conversation.
  destruct sessionId; apply silent_pool_query.
Qed.

Ltac silent_step :=
  match goal with
  | |- silent (update_tracking _ _ _ _ _) => apply silent_update_tracking
  | |- silent (select_conversation_by _) => apply silent_select_conversation_by
  | |- silent (bind _ _) => apply silent_bind; [| intro]
  | |- silent (try_catch _ _) => apply silent_try_catch; [| intro]
  | |- silent (ret _) => apply silent_ret
  | |- silent (respond _) => apply silent_respond
  | |- silent (throw _) => apply silent_throw
  | |- silent (console_error _) => apply silent_console_error
  | |- silent (pool_query _ _) => apply silent_pool_query
  | |- silent (match ?x with _ => _ end) => destruct x
  end.

Lemma silent_authMiddleware : forall cred next,
  (forall user, silent (next user)) -> silent (authMiddleware cred next).
Proof.
  intros cred next Hnext. unfold authMiddleware. repeat silent_step; apply Hnext.
Qed.

Lemma silent_adminMiddleware : forall user next,
  silent next -> silent (adminMiddleware user next).
Proof.
  intros user next Hnext. unfold adminMiddleware. repeat silent_step; exact Hnext.
Qed.

Lemma accounts_silent : forall body, silent (post_signup body) /\ silent (post_login body).
Proof.
  intros body.
  unfold post_signup, post_login, validated, call_hash, call_toLowerCase, call_compare,
         insert_login, select_login.
  split; repeat silent_step.
Qed.

Lemma post_application_silent : forall t user body now,
  silent (post_application t user body now).
Proof.
  intros t user body now.
  destruct t; simpl;
    unfold post_visa_application, post_marriage_application,
           post_birth_certificate_application, post_travel_pass_application,
           validated, insert_application;
    repeat silent_step.
Qed.

Lemma plain_updates_silent : forall t user key body now,
  t <> visa_applications ->
  silent (put_status t user key body now) /\ silent (put_tracking t key body now).
Proof.
  intros t user key body now Hne.
  destruct t; [contradiction Hne; reflexivity | | |]; simpl;
    unfold put_marriage_status, put_birth_certificate_status, put_travel_pass_status,
           put_tracking_plain, select_application, update_application, parse, call_push,
           call_trim;
    split; repeat silent_step.
Qed.

Lemma reads_silent : forall t user key username,
  silent (get_application t user key) /\
  silent (get_application_pdf t user key) /\
  silent (get_by_user t user username).
Proof.
  intros t user key username.
  unfold get_application, get_application_pdf, get_by_user, get_applications_of_user,
         get_travel_pass_applications_of_user, select_application, select_by_user_name.
  repeat split; repeat silent_step.
Qed.

Lemma chat_silent : forall body key sid now,
  silent (post_chat_conversation body now) /\
  silent (post_chat_message body now) /\
  silent (put_chat_close key now) /\
  silent (get_chat_session sid) /\
  silent (get_chat_messages key).
Proof.
  intros body key sid now.
  unfold post_chat_conversation, post_chat_message, put_chat_close, get_chat_session,
         get_chat_messages, select_conversation, select_messages, insert_conversation,
         insert_message, update_conversation.
  repeat split; repeat silent_step.
Qed.

Lemma route_all_silent : forall now op,
  sends_mail op = false -> silent (route_all now op).
Proof.
  intros now op Hop.
  destruct op as [[body | body | t cred body | t cred key body | t cred key body
                   | t cred key | t cred key | t cred username | body]
                  | body | cred key | sid | cred key];
    cbn [route_all route].
  - apply accounts_silent.
  - apply accounts_silent.
  - apply silent_authMiddleware. intros user. apply post_application_silent.
  - apply silent_authMiddleware. intros user. apply silent_adminMiddleware.
    apply plain_updates_silent. intros ->. discriminate.
  - apply silent_authMiddleware. intros user. apply silent_adminMiddleware.
    apply (plain_updates_silent user key body now). intros ->. discriminate.
  - apply silent_authMiddleware. intros user. apply (reads_silent t user key "").
  - apply silent_authMiddleware. intros user. apply (reads_silent t user key "").
  - apply silent_authMiddleware. intros user. apply (reads_silent t user 0 username).
  - apply (chat_silent body 0 "" now).
  - apply (chat_silent body 0 "" now).
  - apply silent_authMiddleware. intros user. apply silent_adminMiddleware.
    apply (chat_silent [] key "" now).
  - apply (chat_silent [] 0 sid now).
  - apply silent_authMiddleware. intros user. apply silent_adminMiddleware.
    apply (chat_silent [] key "" now).
Qed.

(** X13.  Of the account, application and chat routes of [route_all],
    two send mail.  Every request to one of them other than a visa status
    update and a visa tracking update, whatever its answer, leaves the
    outbox as it was; that holds in particular of the marriage,
    birth-certificate and travel-pass status updates. *)
Theorem mail_only_from_visa_updates :
  forall (now : string) (op : Operation) (w : World),
    sends_mail op = false ->
    outbox (snd (serve_all now op w)) = outbox w.
Proof.
  intros now op w Hop. unfold serve_all.
  apply silent_answer. apply route_all_silent. exact Hop.
Qed.

Lemma route_all_reads : forall P now op,
  reads_only op = true -> preserves P (route_all now op).
Proof.
  intros P now op Hop.
  destruct op as [[body | body | t cred body | t cred key body | t cred key body
                   | t cred key | t cred key | t cred username | body]
                  | body | cred key | sid | cred key];
    simpl in Hop; try discriminate; cbn [route_all route].
  - unfold post_login, validated, call_toLowerCase, call_compare, select_login.
    repeat preserve_step; assumption.
  - apply preserves_authMiddleware. intros user. apply (reads_preserve P t user key "").
  - apply preserves_authMiddleware. intros user. apply (reads_preserve P t user key "").
  - apply preserves_authMiddleware. intros user. apply (reads_preserve P t user 0 username).
  - unfold get_chat_session, select_conversation, select_messages.
    repeat preserve_step; assumption.
  - apply preserves_authMiddleware. intros user. apply preserves_adminMiddleware.
    unfold get_chat_messages, select_messages.
    repeat preserve_step; assumption.
Qed.

(** X14.  Login and the GET routes only read.  Whatever they are asked and
    whatever they answer (200, 401, 403, 404 or 500), every table and the
    outbox are afterwards what they were before. *)
Theorem read_routes_write_nothing :
  forall (now : string) (op : Operation) (w : World),
    reads_only op = true ->
    db (snd (serve_all now op w)) = db w /\
    outbox (snd (serve_all now op w)) = outbox w.
Proof.
  intros now op w Hop. unfold serve_all. split.
  - apply (preserves_answer (P := fun s => s = db w));
      [apply route_all_reads; exact Hop | reflexivity].
  - apply silent_answer. apply route_all_silent.
    destruct op as [[] | | | |]; simpl in Hop; try discriminate; reflexivity.
Qed.


(** *** Reading applications *)

Lemma select_where_id_head : forall key l r rest,
  select_where_id key l = r :: rest -> In r l /\ id r = key.
Proof.
  intros key l r rest H. unfold select_where_id in H.
  apply filter_head_In in H. destruct H as [Hin Hid].
  split; [exact Hin | apply Z.eqb_eq; exact Hid].
Qed.

(** X15.  The owner and the administrators read an application.  When a
    row has the requested id and the caller is an administrator or the
    row's owner, the detail route answers 200 with the whole row and the
    PDF route with a document rendered from that row, named after the
    table and the id, whose barcode spells the id; each runs one SELECT and
    writes nothing. *)
Theorem owner_or_admin_reads :
  forall (t : AppTable) (user : Claims) (key : Z) (w : World)
         (application : Application) (others : list Application),
    select_where_id key (table_rows t (db w)) = application :: others ->
    isAdmin user = true \/ claim_username user = user_name application ->
    answer (get_application t user key) w = (json 200 (row_json application), selected t w) /\
    answer (get_application_pdf t user key) w
      = ({| code := 200;
            body := Pdf {| filename := pdf_prefix t ++ String_of key ++ ".pdf";
                           barcode_text := String_of key;
                           rendered := application |} |},
         selected t w).
Proof.
  intros t user key w application others Hsel Hmay.
  assert (Hid : id application = key) by (apply (select_where_id_head _ _ Hsel)).
  assert (Hok : (negb (isAdmin user)
                 && negb (claim_username user =? user_name application)%string)%bool = false).
  { destruct Hmay as [-> | ->]; [reflexivity |].
    rewrite String.eqb_refl. apply andb_false_r. }
  unfold get_application, get_application_pdf, select_application, selected.
  run. rewrite Hsel, Hok, Hid. split; reflexivity.
Qed.

(** X16.  What a list returns.  A list request answered 200 carries the
    applications of exactly one owner (the requested name, lower-cased
    except for travel passes), newest first; and when the caller is not an
    administrator that owner is the caller. *)
Theorem user_list_holds_own_rows :
  forall (t : AppTable) (user : Claims) (username : string) (w : World),
    code (fst (answer (get_by_user t user username) w)) = 200 ->
    body_of (fst (answer (get_by_user t user username) w))
      = Some (JArr (map (list_item t)
                        (rev (select_where_user_name (list_owner t username)
                                                     (table_rows t (db w)))))) /\
    (isAdmin user = false -> list_owner t username = claim_username user).
Proof.
  intros t user username w.
  destruct t; cbn [get_by_user list_owner list_item];
    unfold get_applications_of_user, get_travel_pass_applications_of_user,
           select_by_user_name;
    try (destruct (username =? "")%string; [intros H; discriminate |]);
    match goal with |- context [if ?c then _ else _] => destruct c eqn:E end;
    try (intros H; discriminate);
    intros _; (split; [reflexivity |]); intros Hadmin; rewrite Hadmin in E; simpl in E;
    rewrite ?andb_false_r, ?andb_true_r in E;
    apply negb_false_iff in E; apply String.eqb_eq in E; symmetry; exact E.
Qed.


(** *** Visa status updates: the notification and successive updates *)

Lemma outbox_notified : forall mail w,
  outbox (notified mail w)
  = if (mail_configured && sgMail_accepts env mail)%bool then (outbox w ++ [mail])%list
    else outbox w.
Proof.
  intros mail w. unfold notified.
  destruct mail_configured; [| reflexivity].
  destruct (sgMail_accepts env mail); reflexivity.
Qed.

(** X17.  The notification of a visa status update.  A successful update
    puts exactly one message in the outbox, addressed to the owner of the
    application, when a SendGrid key is configured and the provider accepts
    the message; otherwise it puts none.  Earlier mail is never removed. *)
Theorem visa_status_mail_to_owner :
  forall (user : Claims) (key : Z) (body : list (string * JSON)) (now : string) (w : World)
         (s : string) (application : Application) (others : list Application)
         (h : list JSON),
    get "status" body = Some (JStr s) -> In s validStatuses ->
    select_where_id key (visa (db w)) = application :: others ->
    history_read visa_applications application = Some h ->
    outbox (snd (answer (put_visa_status user key body now) w))
      = (if (mail_configured && sgMail_accepts env (status_mail application s))%bool
         then (outbox w ++ [status_mail application s])%list
         else outbox w) /\
    to (status_mail application s) = user_name application.
Proof.
  intros user key body now w s application others h Hget Hin Hsel Hread.
  rewrite (@put_visa_status_runs user key body now w s application others h
             Hget Hin Hsel Hread).
  cbn [snd]. rewrite outbox_notified. split; reflexivity.
Qed.

Lemma visa_after_update : forall user key body now w s application others h,
  get "status" body = Some (JStr s) -> In s validStatuses ->
  select_where_id key (visa (db w)) = application :: others ->
  history_read visa_applications application = Some h ->
  select_where_id key (visa (db (snd (answer (put_visa_status user key body now) w))))
  = map (set_status_history s
           (JSON_stringify
              (JArr (h ++ [history_entry s (claim_username user) now (status application)])))
           now)
        (application :: others).
Proof.
  intros user key body now w s application others h Hget Hin Hsel Hread.
  rewrite (@put_visa_status_runs user key body now w s application others h
             Hget Hin Hsel Hread).
  cbn [snd]. rewrite db_notified. unfold status_written. cbn [db].
  change (visa (set_rows visa_applications ?l ?s0)) with l.
  cbn [table_rows set_rows visa].
  rewrite select_update_where_id; [| intros r; reflexivity].
  rewrite Hsel. reflexivity.
Qed.

(** X18.  Two visa status updates in a row.  When the codec reads back
    the history the first update wrote, the second update answers with the
    first one's status as [previousStatus], and the row ends with the
    second status and the history it had at the start followed by the two
    entries in order, the second naming the first status as its
    [previousStatus]. *)
Theorem visa_status_updates_chain :
  forall (user1 user2 : Claims) (key : Z) (body1 body2 : list (string * JSON))
         (now1 now2 : string) (w : World) (s1 s2 : string)
         (application : Application) (others : list Application) (h : list JSON),
    get "status" body1 = Some (JStr s1) -> In s1 validStatuses ->
    get "status" body2 = Some (JStr s2) -> In s2 validStatuses ->
    select_where_id key (visa (db w)) = application :: others ->
    history_read visa_applications application = Some h ->
    reads_back
      (JArr (h ++ [history_entry s1 (claim_username user1) now1 (status application)])) ->
    let first := answer (put_visa_status user1 key body1 now1) w in
    let second := answer (put_visa_status user2 key body2 now2) (snd first) in
    code (fst second) = 200 /\
    application_field "status" (fst second) = Some (JStr s2) /\
    application_field "previousStatus" (fst second) = Some (JStr s1) /\
    exists application' others',
      select_where_id key (visa (db (snd second))) = application' :: others' /\
      status application' = s2 /\
      status_history application'
      = Some (JSON_stringify
                (JArr (h ++ [history_entry s1 (claim_username user1) now1 (status application);
                             history_entry s2 (claim_username user2) now2 s1]))).
Proof.
  intros user1 user2 key body1 body2 now1 now2 w s1 s2 application others h
         Hget1 Hin1 Hget2 Hin2 Hsel Hread Hcodec first second.
  assert (Hsel1 := @visa_after_update user1 key body1 now1 w s1 application others h
                     Hget1 Hin1 Hsel Hread).
  fold first in Hsel1. cbn [map] in Hsel1.
  assert (Hread1 := @history_read_written visa_applications s1 now1 application _ Hcodec).
  assert (Hrun2 := @put_visa_status_runs user2 key body2 now2 (snd first) s2 _ _ _
                     Hget2 Hin2 Hsel1 Hread1).
  assert (Hsel2 := @visa_after_update user2 key body2 now2 (snd first) s2 _ _ _
                     Hget2 Hin2 Hsel1 Hread1).
  change (answer (put_visa_status user2 key body2 now2) (snd first)) with second in Hrun2.
  change (answer (put_visa_status user2 key body2 now2) (snd first)) with second in Hsel2.
  cbn [map] in Hsel2.
  split; [rewrite Hrun2; reflexivity |].
  split; [rewrite Hrun2; reflexivity |].
  split; [rewrite Hrun2; reflexivity |].
  eexists. eexists. split; [exact Hsel2 |].
  split; [reflexivity |].
  cbn [status_history set_status_history status]. rewrite <- app_assoc. reflexivity.
Qed.

(** *** Tracking numbers made of white space *)

Lemma carrier_accepted_scalar : forall carrier,
  carrier_accepted carrier = true -> scalar (or_null carrier) = true.
Proof.
  intros [[| b | n | text | items | fields] |] H; try reflexivity;
    try discriminate H; unfold or_null; destruct (truthy _); reflexivity.
Qed.

(** X19.  A tracking number that is only white space, sent with a carrier
    the column takes.  The visa route rejects it with 400 before any query;
    the marriage, birth-certificate and travel-pass routes, which test the
    number before trimming it, accept it, answer 200 and store the empty
    string as the tracking number of every row with the given id. *)
Theorem blank_tracking_number :
  forall (key : Z) (body : list (string * JSON)) (now : string) (w : World) (number : string),
    get "trackingNumber" body = Some (JStr number) ->
    number <> "" -> trim number = "" ->
    carrier_accepted (get "carrier" body) = true ->
    answer (put_tracking visa_applications key body now) w
      = (error 400 "Tracking number is required", w) /\
    (forall t, t <> visa_applications ->
       fst (answer (put_tracking t key body now) w)
         = json 200 (JObj [("success", JBool true); ("carrier", or_null (get "carrier" body))]) /\
       table_rows t (db (snd (answer (put_tracking t key body now) w)))
         = update_where_id key
             (set_tracking "" (sql_text (or_null (get "carrier" body))) now)
             (table_rows t (db w))).
Proof.
  intros key body now w number Hget Hne Hblank Hcarrier.
  apply carrier_accepted_scalar in Hcarrier.
  apply String.eqb_neq in Hne. split.
  - cbn [put_tracking]. unfold put_visa_tracking.
    rewrite Hget. simpl. rewrite Hne, Hblank. reflexivity.
  - intros t Ht.
    destruct t; [contradiction Ht; reflexivity | | |]; cbn [put_tracking];
      unfold put_tracking_plain, update_tracking, update_application;
      rewrite Hcarrier, Hget; simpl;
      rewrite Hne; simpl; run; rewrite Hblank; split; reflexivity.
Qed.


(** *** The chat: messages, sessions, closing *)

Lemma message_body_fields : forall sid body,
  message_body sid body = true ->
  get "sessionId" body = Some (JStr sid) /\ sid <> "" /\
  truthy (get "senderType" body) = true /\ truthy (get "message" body) = true.
Proof.
  intros sid body H. unfold message_body in H.
  destruct (get "sessionId" body) as [[| | | s | |] |]; try discriminate.
  destruct (get "senderType" body) as [[| | | sender | |] |]; try discriminate.
  destruct (get "message" body) as [[| | | text | |] |]; try discriminate.
  apply andb_prop in H. destruct H as [H Htext].
  apply andb_prop in H. destruct H as [H Hsender].
  apply andb_prop in H. destruct H as [Hs Hne].
  apply String.eqb_eq in Hs. subst s.
  repeat split.
  - intros ->. discriminate.
  - simpl in Hsender. simpl.
    destruct (sender =? "")%string eqn:E; [| reflexivity].
    apply String.eqb_eq in E. subst sender. discriminate.
  - exact Htext.
Qed.


(** X20.  A message for a session that has no conversation is answered
    404 'Conversation not found' after the one SELECT: no message is stored
    and no conversation is created. *)
Theorem chat_message_unknown_session :
  forall (body : list (string * JSON)) (now : string) (w : World) (sid : string),
    message_body sid body = true ->
    conversations_of sid (db w) = [] ->
    answer (post_chat_message body now) w =
      (error 404 "Conversation not found",
       {| db := db w; outbox := outbox w; console := console w;
          queries := queries w ++ [SELECT "chat_conversations"] |}).
Proof.
  intros body now w sid Hbody Hnone.
  apply message_body_fields in Hbody. destruct Hbody as [Hsid [Hne [Hsender Htext]]].
  unfold conversations_of in Hnone.
  unfold post_chat_message. rewrite Hsid, Hsender, Htext.
  apply String.eqb_neq in Hne. simpl. rewrite Hne. simpl.
  unfold select_conversation. run. rewrite Hnone. reflexivity.
Qed.



Lemma get_chat_session_runs : forall sid w found more,
  conversations_of sid (db w) = found :: more ->
  answer (get_chat_session sid) w =
    (json 200 (JObj [("conversation", conversation_json found);
                     ("messages", JArr (map message_json (messages_of (conv_id found) (db w))))]),
     {| db := db w; outbox := outbox w; console := console w;
        queries := queries w ++ [SELECT "chat_conversations"; SELECT "chat_messages"] |}).
Proof.
  intros sid w found more Hfound. unfold conversations_of in Hfound.
  unfold get_chat_session, select_conversation, select_messages, messages_of. run.
  rewrite Hfound. simpl. rewrite <- app_assoc. reflexivity.
Qed.


(** X23.  A session nobody opened.  [GET /api/chat/session/:sessionId] for
    a session id without a conversation is answered 200 with
    [{ conversation: null, messages: [] }], not with an error; and right
    after the get-or-create route has opened a session, the same read
    returns the conversation under the id that route answered. *)
Theorem chat_session_read :
  forall (sid : string) (w : World),
    (conversations_of sid (db w) = [] ->
     fst (answer (get_chat_session sid) w)
     = json 200 (JObj [("conversation", JNull); ("messages", JArr [])])) /\
    (forall body now,
        chat_body sid body = true ->
        let opened := answer (post_chat_conversation body now) w in
        code (fst (answer (get_chat_session sid) (snd opened))) = 200 /\
        conversation_id_of (fst (answer (get_chat_session sid) (snd opened)))
        = conversation_id_of (fst opened)).
Proof.
  intros sid w. split.
  - intros Hnone. unfold conversations_of in Hnone.
    unfold get_chat_session, select_conversation. run. rewrite Hnone. reflexivity.
  - intros body now Hbody opened.
    destruct (conversations_of sid (db w)) as [| found more] eqn:Hfound.
    + assert (Hopened := @post_chat_conversation_created body now w sid Hbody Hfound).
      fold opened in Hopened.
      assert (Hconv : conversations_of sid (db (snd opened))
                      = [new_conversation sid body now (db w)]).
      { rewrite Hopened. unfold conversations_of in *. simpl.
        rewrite filter_app, Hfound. simpl. rewrite String.eqb_refl. reflexivity. }
      rewrite (get_chat_session_runs sid (snd opened) Hconv).
      rewrite Hopened. split; reflexivity.
    + assert (Hopened := @post_chat_conversation_found body now w sid found more
                           Hbody Hfound).
      fold opened in Hopened.
      assert (Hconv : conversations_of sid (db (snd opened)) = found :: more).
      { rewrite Hopened. exact Hfound. }
      rewrite (get_chat_session_runs sid (snd opened) Hconv).
      rewrite Hopened. split; reflexivity.
Qed.

Lemma closed_twice : forall now now' c, closed now' (closed now c) = closed now c.
Proof.
  intros now now' c. unfold closed.
  destruct (conv_status c =? "closed")%string eqn:E; simpl; [rewrite E |]; reflexivity.
Qed.

Lemma put_chat_close_runs : forall key now w,
  answer (put_chat_close key now) w =
    (success,
     {| db := set_chat_conversations
                (map (fun c => if conv_id c =? key then closed now c else c)
                     (chat_conversations (db w))) (db w);
        outbox := outbox w; console := console w;
        queries := queries w ++ [UPDATE "chat_conversations"] |}).
Proof. intros key now w. reflexivity. Qed.

(** X24.  Closing a conversation.  The handler answers
    [{ success: true }] whether or not a conversation has the id; it
    deletes nothing: every message stays, as do the ids and sessions of all
    conversations; the conversations with the given id end up ['closed'],
    the others keep their status; an id no conversation has changes no
    table; and closing again, at any later time, changes nothing more. *)
Theorem chat_close_keeps_messages :
  forall (key : Z) (now now' : string) (w : World),
    let shut := answer (put_chat_close key now) w in
    fst shut = success /\
    chat_messages (db (snd shut)) = chat_messages (db w) /\
    map (fun c => (conv_id c, session_id c)) (chat_conversations (db (snd shut)))
      = map (fun c => (conv_id c, session_id c)) (chat_conversations (db w)) /\
    map conv_status (chat_conversations (db (snd shut)))
      = map (fun c => if conv_id c =? key then "closed" else conv_status c)
            (chat_conversations (db w)) /\
    ((forall c, In c (chat_conversations (db w)) -> conv_id c <> key) ->
     db (snd shut) = db w) /\
    db (snd (answer (put_chat_close key now') (snd shut))) = db (snd shut).
Proof.
  intros key now now' w shut. unfold shut. rewrite !put_chat_close_runs.
  cbn [fst snd db].
  split; [reflexivity |].
  split; [reflexivity |].
  split.
  { simpl. rewrite map_map. apply map_ext. intros c.
    destruct (conv_id c =? key); [| reflexivity].
    destruct (closed_keeps now c) as [-> [-> _]]. reflexivity. }
  split.
  { simpl. rewrite map_map. apply map_ext. intros c.
    destruct (conv_id c =? key); [| reflexivity]. apply closed_keeps. }
  split.
  { intros Hnone.
    assert (Hsame : map (fun c => if conv_id c =? key then closed now c else c)
                        (chat_conversations (db w)) = chat_conversations (db w)).
    { induction (chat_conversations (db w)) as [| c l IH]; simpl; [reflexivity |].
      assert (Hc : conv_id c <> key) by (apply Hnone; left; reflexivity).
      apply Z.eqb_neq in Hc. rewrite Hc. rewrite IH; [reflexivity |].
      intros c' Hin. apply Hnone. right. exact Hin. }
    rewrite Hsame. destruct (db w); reflexivity. }
  assert (Hagain : map (fun c => if conv_id c =? key then closed now' c else c)
                       (map (fun c => if conv_id c =? key then closed now c else c)
                            (chat_conversations (db w)))
                   = map (fun c => if conv_id c =? key then closed now c else c)
                         (chat_conversations (db w))).
  { rewrite map_map. apply map_ext. intros c.
    destruct (conv_id c =? key) eqn:E.
    - destruct (closed_keeps now c) as [-> _]. rewrite E. apply closed_twice.
    - rewrite E. reflexivity. }
  simpl. rewrite Hagain. reflexivity.
Qed.


(** *** The analytics series *)

Lemma Set_add_In : forall seen m x, In x (Set_add seen m) <-> In x seen \/ x = m.
Proof.
  intros seen m x. unfold Set_add.
  destruct (existsb (String.eqb m) seen) eqn:E.
  - split; [intros H; left; exact H |].
    intros [H | ->]; [exact H |].
    apply existsb_exists in E. destruct E as [y [Hin Hy]].
    apply String.eqb_eq in Hy. subst y. exact Hin.
  - rewrite in_app_iff. simpl. split.
    + intros [H | [<- | []]]; [left; exact H | right; reflexivity].
    + intros [H | ->]; [left; exact H | right; left; reflexivity].
Qed.

Lemma Set_add_NoDup : forall seen m, NoDup seen -> NoDup (Set_add seen m).
Proof.
  intros seen m H. unfold Set_add.
  destruct (existsb (String.eqb m) seen) eqn:E; [exact H |].
  apply NoDup_snoc; [exact H |].
  intros Hin.
  assert (E' : existsb (String.eqb m) seen = true).
  { apply existsb_exists. exists m. split; [exact Hin | apply String.eqb_refl]. }
  rewrite E in E'. discriminate.
Qed.

Lemma fold_Set_add : forall xs seen,
  NoDup seen ->
  NoDup (fold_left Set_add xs seen) /\
  (forall x, In x (fold_left Set_add xs seen) <-> In x seen \/ In x xs).
Proof.
  induction xs as [| m xs IH]; intros seen Hseen; simpl.
  - split; [exact Hseen |]. intros x. split; [intros H; left; exact H |].
    intros [H | []]. exact H.
  - destruct (IH (Set_add seen m) (Set_add_NoDup m Hseen)) as [Hnd Hin].
    split; [exact Hnd |].
    intros x. rewrite Hin, Set_add_In. split.
    + intros [[H | ->] | H]; [left; exact H | right; left; reflexivity | right; right; exact H].
    + intros [H | [<- | H]]; [left; left; exact H | left; right; reflexivity | right; exact H].
Qed.

Lemma insert_sorted_In : forall m l x, In x (insert_sorted m l) <-> x = m \/ In x l.
Proof.
  intros m l x. induction l as [| y l IH]; simpl.
  - split; [intros [<- | []]; left; reflexivity | intros [-> | []]; left; reflexivity].
  - destruct (String.leb m y); simpl.
    + split; [intros [<- | H]; [left; reflexivity | right; exact H]
             | intros [-> | H]; [left; reflexivity | right; exact H]].
    + rewrite IH. split.
      * intros [<- | [-> | H]];
          [right; left; reflexivity | left; reflexivity | right; right; exact H].
      * intros [-> | [<- | H]];
          [right; left; reflexivity | left; reflexivity | right; right; exact H].
Qed.

Lemma insert_sorted_NoDup : forall m l, NoDup l -> ~ In m l -> NoDup (insert_sorted m l).
Proof.
  intros m l Hl Hm. induction l as [| y l IH]; simpl.
  - constructor; [intros [] | constructor].
  - inversion Hl as [| ? ? Hy Hrest]; subst.
    destruct (String.leb m y).
    + constructor; assumption.
    + constructor.
      * rewrite insert_sorted_In. intros [-> | H]; [apply Hm; left; reflexivity | exact (Hy H)].
      * apply IH; [exact Hrest |]. intros H. apply Hm. right. exact H.
Qed.

Lemma insert_sorted_Sorted : forall m l,
  Sorted (fun a b => String.leb a b = true) l ->
  Sorted (fun a b => String.leb a b = true) (insert_sorted m l).
Proof.
  intros m l H. induction l as [| y l IH]; simpl.
  - constructor; constructor.
  - apply Sorted_inv in H. destruct H as [Hl Hhd].
    destruct (String.leb m y) eqn:E.
    + constructor; [constructor; assumption | constructor; exact E].
    + assert (Hym : String.leb y m = true).
      { destruct (String.leb_total m y) as [H | H]; [rewrite H in E; discriminate | exact H]. }
      constructor; [apply IH; exact Hl |].
      destruct l as [| z l]; simpl.
      * constructor. exact Hym.
      * destruct (String.leb m z); constructor; [exact Hym |].
        inversion Hhd; assumption.
Qed.

Lemma sort_strings_spec : forall l,
  NoDup l ->
  Sorted (fun a b => String.leb a b = true) (sort_strings l) /\
  NoDup (sort_strings l) /\
  (forall x, In x (sort_strings l) <-> In x l).
Proof.
  unfold sort_strings. induction l as [| m l IH]; intros Hl; simpl.
  - repeat split; try constructor; intros H; exact H.
  - inversion Hl as [| ? ? Hm Hrest]; subst.
    destruct (IH Hrest) as [Hs [Hnd Hin]].
    split; [apply insert_sorted_Sorted; exact Hs |].
    split.
    + apply insert_sorted_NoDup; [exact Hnd |]. rewrite Hin. exact Hm.
    + intros x. rewrite insert_sorted_In, Hin. split.
      * intros [-> | H]; [left; reflexivity | right; exact H].
      * intros [<- | H]; [left; reflexivity | right; exact H].
Qed.

Lemma trend_months : forall v m b t,
  map point_month (applicationTrend v m b t) = sort_strings (allMonths [v; m; b; t]).
Proof.
  intros v m b t. unfold applicationTrend. rewrite map_map. simpl. apply map_id.
Qed.

Lemma allMonths_spec : forall v m b t,
  NoDup (allMonths [v; m; b; t]) /\
  (forall x, In x (allMonths [v; m; b; t]) <-> In x (map month (v ++ m ++ b ++ t))).
Proof.
  intros v m b t. unfold allMonths.
  destruct (fold_Set_add (map month (concat [v; m; b; t])) (NoDup_nil string)) as [Hnd Hin].
  split; [exact Hnd |].
  intros x. rewrite Hin. simpl. rewrite app_nil_r.
  split; [intros [[] | H]; exact H | intros H; right; exact H].
Qed.

(** X25.  The months of the combined trend.  [applicationTrend] has one
    point per month that occurs in any of the four series, each month once,
    in ascending order; and each point carries, per type, the count its
    series has for that month (0 when it has none) and their sum as
    [total]. *)
Theorem applicationTrend_months :
  forall (visaTrend marriageTrend birthTrend travelTrend : list MonthCount),
    let points := applicationTrend visaTrend marriageTrend birthTrend travelTrend in
    Sorted (fun a b => String.leb a b = true) (map point_month points) /\
    NoDup (map point_month points) /\
    (forall x, In x (map point_month points) <->
               In x (map month (visaTrend ++ marriageTrend ++ birthTrend ++ travelTrend))) /\
    (forall p, In p points ->
       visa_count p = count_in visaTrend (point_month p) /\
       marriage_count p = count_in marriageTrend (point_month p) /\
       birth_count p = count_in birthTrend (point_month p) /\
       travel_count p = count_in travelTrend (point_month p) /\
       total p = visa_count p + marriage_count p + birth_count p + travel_count p).
Proof.
  intros v m b t points. unfold points. rewrite trend_months.
  destruct (allMonths_spec v m b t) as [Hnd Hin].
  destruct (sort_strings_spec Hnd) as [Hs [Hnd' Hin']].
  split; [exact Hs |]. split; [exact Hnd' |]. split.
  - intros x. rewrite Hin'. apply Hin.
  - intros p Hp. unfold applicationTrend in Hp. apply in_map_iff in Hp.
    destruct Hp as [x [<- _]]. simpl. repeat split.
Qed.

Lemma count_in_absent : forall trend m, ~ In m (map month trend) -> count_in trend m = 0.
Proof.
  induction trend as [| x trend IH]; intros m H; simpl; [reflexivity |].
  destruct (month x =? m)%string eqn:E.
  - apply String.eqb_eq in E. exfalso. apply H. left. exact E.
  - apply IH. intros Hin. apply H. right. exact Hin.
Qed.

Lemma sum_without : forall (M : list string) k c (g : string -> Z),
  ~ In k M ->
  fold_right Z.add 0 (map (fun m => if (k =? m)%string then c else g m) M)
  = fold_right Z.add 0 (map g M).
Proof.
  induction M as [| a M IH]; intros k c g H; simpl; [reflexivity |].
  destruct (k =? a)%string eqn:E.
  - apply String.eqb_eq in E. exfalso. apply H. left. symmetry. exact E.
  - rewrite IH; [reflexivity |]. intros Hin. apply H. right. exact Hin.
Qed.

Lemma sum_with : forall (M : list string) k c (g : string -> Z),
  NoDup M -> In k M -> g k = 0 ->
  fold_right Z.add 0 (map (fun m => if (k =? m)%string then c else g m) M)
  = c + fold_right Z.add 0 (map g M).
Proof.
  induction M as [| a M IH]; intros k c g Hnd Hin Hg; [contradiction |].
  inversion Hnd as [| ? ? Ha Hrest]; subst. simpl.
  destruct (k =? a)%string eqn:E.
  - apply String.eqb_eq in E. subst a.
    rewrite sum_without; [| exact Ha]. rewrite Hg. lia.
  - destruct Hin as [-> | Hin]; [rewrite String.eqb_refl in E; discriminate |].
    rewrite (IH k c g Hrest Hin Hg). lia.
Qed.

Lemma sum_count_in : forall trend (M : list string),
  NoDup M -> NoDup (map month trend) ->
  (forall x, In x (map month trend) -> In x M) ->
  fold_right Z.add 0 (map (count_in trend) M) = sum_counts trend.
Proof.
  induction trend as [| x trend IH]; intros M HM Hnd Hincl.
  - unfold sum_counts. simpl. induction M as [| a M IHM]; simpl; [reflexivity |].
    inversion HM; subst. rewrite IHM; [reflexivity | assumption | intros y []].
  - simpl in Hnd. inversion Hnd as [| ? ? Hx Hrest]; subst.
    unfold sum_counts. simpl.
    change (fold_right Z.add 0 (map count trend)) with (sum_counts trend).
    rewrite <- (IH M HM Hrest); [| intros y Hy; apply Hincl; right; exact Hy].
    apply (@sum_with M (month x) (count x) (count_in trend) HM).
    + apply Hincl. left. reflexivity.
    + apply count_in_absent. exact Hx.
Qed.

Lemma sum_four : forall (M : list string) (f g h k : string -> Z),
  fold_right Z.add 0 (map (fun m => f m + g m + h m + k m) M)
  = fold_right Z.add 0 (map f M) + fold_right Z.add 0 (map g M)
    + fold_right Z.add 0 (map h M) + fold_right Z.add 0 (map k M).
Proof.
  induction M as [| a M IH]; intros f g h k; simpl; [reflexivity |].
  rewrite IH. lia.
Qed.

(** X26.  The combined trend loses and invents nothing.  When each series
    names a month at most once, as a [GROUP BY] result does, the totals of
    [applicationTrend] add up to the counts of the four series together. *)
Theorem applicationTrend_totals :
  forall (visaTrend marriageTrend birthTrend travelTrend : list MonthCount),
    NoDup (map month visaTrend) -> NoDup (map month marriageTrend) ->
    NoDup (map month birthTrend) -> NoDup (map month travelTrend) ->
    sum_totals (applicationTrend visaTrend marriageTrend birthTrend travelTrend)
    = sum_counts visaTrend + sum_counts marriageTrend
      + sum_counts birthTrend + sum_counts travelTrend.
Proof.
  intros v m b t Hv Hm Hb Ht.
  destruct (allMonths_spec v m b t) as [Hnd Hin].
  destruct (sort_strings_spec Hnd) as [_ [Hnd' Hin']].
  unfold sum_totals, applicationTrend. rewrite map_map. simpl.
  rewrite sum_four.
  assert (Hall : forall x, In x (map month (v ++ m ++ b ++ t)) ->
                           In x (sort_strings (allMonths [v; m; b; t]))).
  { intros x Hx. apply Hin'. apply Hin. exact Hx. }
  rewrite !map_app in Hall.
  rewrite (sum_count_in v Hnd' Hv), (sum_count_in m Hnd' Hm),
          (sum_count_in b Hnd' Hb), (sum_count_in t Hnd' Ht); [reflexivity | | | |];
    intros x Hx; apply Hall; rewrite !in_app_iff; auto.
Qed.

Lemma insert_by_count_Permutation : forall a l, Permutation (a :: l) (insert_by_count a l).
Proof.
  intros a l. induction l as [| b l IH]; simpl; [apply Permutation_refl |].
  destruct (snd b <=? snd a); [apply Permutation_refl |].
  apply perm_trans with (b :: a :: l); [apply perm_swap | apply perm_skip; exact IH].
Qed.

Lemma insert_by_count_Sorted : forall a l,
  Sorted (fun x y => snd y <= snd x) l ->
  Sorted (fun x y => snd y <= snd x) (insert_by_count a l).
Proof.
  intros a l H. induction l as [| b l IH]; simpl.
  - constructor; constructor.
  - apply Sorted_inv in H. destruct H as [Hl Hhd].
    destruct (snd b <=? snd a) eqn:E.
    + apply Z.leb_le in E. constructor; [constructor; assumption | constructor; exact E].
    + apply Z.leb_gt in E. constructor; [apply IH; exact Hl |].
      destruct l as [| c l]; simpl.
      * constructor. lia.
      * destruct (snd c <=? snd a); constructor; [lia |].
        inversion Hhd; assumption.
Qed.

Lemma insert_by_count_stable : forall k a l,
  filter (fun x => snd x =? k) (insert_by_count a l)
  = filter (fun x => snd x =? k) (a :: l).
Proof.
  intros k a l. induction l as [| b l IH]; [reflexivity |].
  cbn [insert_by_count]. destruct (snd b <=? snd a) eqn:E; [reflexivity |].
  apply Z.leb_gt in E. cbn [filter] in *. rewrite IH.
  destruct (snd a =? k) eqn:Ea; [| reflexivity].
  apply Z.eqb_eq in Ea.
  assert (Eb : (snd b =? k) = false) by (apply Z.eqb_neq; lia).
  rewrite Eb. reflexivity.
Qed.

Lemma sort_by_count_spec : forall l,
  Permutation l (sort_by_count l) /\
  Sorted (fun x y => snd y <= snd x) (sort_by_count l) /\
  (forall k, filter (fun x => snd x =? k) (sort_by_count l)
             = filter (fun x => snd x =? k) l).
Proof.
  unfold sort_by_count. induction l as [| a l [Hp [Hs Hf]]]; simpl.
  - repeat split; constructor.
  - split; [| split].
    + apply perm_trans with (a :: fold_right insert_by_count [] l);
        [apply perm_skip; exact Hp | apply insert_by_count_Permutation].
    + apply insert_by_count_Sorted. exact Hs.
    + intros k. rewrite insert_by_count_stable. cbn [filter]. rewrite Hf. reflexivity.
Qed.

(** X27.  The ranking of application types.  [applicationTypes] holds the
    four types with their totals, each once, in descending order of count;
    the sort being stable, types with equal counts keep the order Visa,
    Marriage, Birth Certificate, Travel Pass. *)
Theorem applicationTypes_ranked :
  forall (totalVisa totalMarriage totalBirth totalTravel : Z),
    let ranked := applicationTypes totalVisa totalMarriage totalBirth totalTravel in
    let given := types_listed totalVisa totalMarriage totalBirth totalTravel in
    Permutation given ranked /\
    Sorted (fun x y => snd y <= snd x) ranked /\
    (forall k, filter (fun x => snd x =? k) ranked = filter (fun x => snd x =? k) given).
Proof.
  intros v m b t ranked given. apply sort_by_count_spec.
Qed.


(** *** Who can change what *)

(** X28.  A token from signup opens no administrator route.  When the
    token library verifies what it signed, the token a successful signup
    returns is signed over [isAdmin: false], whatever the user name (also
    one that contains [admin]); presented as a bearer token on a status,
    tracking, close or messages route it is answered 403 and the world is
    left as it was. *)
Theorem signup_token_opens_no_admin_route :
  forall (body sanitized : list (string * JSON)) (name plain : string) (w : World),
    express_validator signupValidation body = inr sanitized ->
    get "username" sanitized = Some (JStr name) ->
    get "password" sanitized = Some (JStr plain) ->
    code (fst (answer (post_signup body) w)) = 200 ->
    let payload := {| claim_id := next_key (map user_id (login (db w)));
                      claim_username := toLowerCase name; isAdmin := false |} in
    verifyToken (generateToken payload) = Some payload ->
    generateToken payload <> "" ->
    token_of (fst (answer (post_signup body) w)) = Some (JStr (generateToken payload)) /\
    (forall now op w' cookie,
        credentials_of op
        = Some {| authorization := Some ("Bearer " ++ generateToken payload);
                  cookie_token := cookie |} ->
        admin_only op = true ->
        serve_all now op w' = (error 403 "Admin access required", w')).
Proof.
  intros body sanitized name plain w Hv Hname Hplain Hok payload Hverify Hne.
  assert (Hfresh := @post_signup_fresh body sanitized name plain w Hv Hname Hplain Hok).
  split.
  - rewrite (@post_signup_runs body sanitized name plain w Hv Hname Hplain Hfresh).
    reflexivity.
  - intros now op w' cookie Hcred Hadmin.
    assert (Hauth : authenticated
                      {| authorization := Some ("Bearer " ++ generateToken payload);
                         cookie_token := cookie |} = Some payload).
    { unfold authenticated. rewrite presented_bearer.
      apply String.eqb_neq in Hne. rewrite Hne. exact Hverify. }
    unfold serve_all.
    destruct op as [[body0 | body0 | t c body0 | t c key body0 | t c key body0
                     | t c key | t c key | t c username | body0]
                    | body0 | c key | sid | c key];
      simpl in Hcred; try discriminate; simpl in Hadmin; try discriminate;
      injection Hcred as ->; cbn [route_all route];
      rewrite (authMiddleware_admits _ _ Hauth); reflexivity.
Qed.

Lemma AppTable_eq_dec : forall t t' : AppTable, {t = t'} + {t <> t'}.
Proof. decide equality. Defined.

Lemma other_tables_post_application : forall t t' user body now rows,
  t' <> t ->
  preserves (fun s => table_rows t' s = rows) (post_application t user body now).
Proof.
  intros t t' user body now rows Hne.
  destruct t; simpl;
    unfold post_visa_application, post_marriage_application,
           post_birth_certificate_application, post_travel_pass_application,
           validated, insert_application;
    repeat preserve_step; split_if; try assumption;
    rewrite (table_rows_set_rows_other _ _ Hne); assumption.
Qed.

Lemma applications_kept_by_accounts_and_chat : forall t rows body key sid now,
  preserves (fun s => table_rows t s = rows) (post_signup body) /\
  preserves (fun s => table_rows t s = rows) (post_login body) /\
  preserves (fun s => table_rows t s = rows) (post_chat_conversation body now) /\
  preserves (fun s => table_rows t s = rows) (post_chat_message body now) /\
  preserves (fun s => table_rows t s = rows) (put_chat_close key now) /\
  preserves (fun s => table_rows t s = rows) (get_chat_session sid) /\
  preserves (fun s => table_rows t s = rows) (get_chat_messages key).
Proof.
  intros t rows body key sid now.
  unfold post_signup, post_login, post_chat_conversation, post_chat_message, put_chat_close,
         get_chat_session, get_chat_messages, validated, call_toLowerCase, call_hash,
         call_compare, insert_login, select_login, select_conversation, select_messages,
         insert_conversation, insert_message, update_conversation.
  repeat split; repeat preserve_step; try assumption;
    try (match goal with |- _ (snd (if ?c then _ else _)) = _ => destruct c end;
         cbn [snd]);
    try assumption;
    match goal with
    | H : table_rows _ ?s = _ |- _ => rewrite <- H; destruct t; reflexivity
    end.
Qed.

(** X29.  Only administrators change what an application holds.  A
    request that does not come with a verified administrator token, on
    whatever route of [route_all], leaves each application table as it was
    or appends one ['pending'] row to it: no existing row is changed,
    removed or reordered. *)
Theorem applications_changed_by_admins_only :
  forall (now : string) (op : Operation) (w : World) (t : AppTable),
    caller_is_admin op = false ->
    table_rows t (db (snd (serve_all now op w))) = table_rows t (db w) \/
    exists row,
      status row = "pending" /\
      table_rows t (db (snd (serve_all now op w))) = (table_rows t (db w) ++ [row])%list.
Proof.
  intros now op w t Hcaller. unfold serve_all.
  assert (Hkeep : forall h : Handler Response,
            preserves (fun s => table_rows t s = table_rows t (db w)) h ->
            table_rows t (db (snd (answer h w))) = table_rows t (db w)).
  { intros h Hh.
    apply (preserves_answer (P := fun s => table_rows t s = table_rows t (db w)));
      [exact Hh | reflexivity]. }
  assert (Hguard : forall cred (next : Claims -> Handler Response),
            (forall user, authenticated cred = Some user ->
               table_rows t (db (snd (answer (next user) w))) = table_rows t (db w) \/
               exists row,
                 status row = "pending" /\
                 table_rows t (db (snd (answer (next user) w)))
                 = (table_rows t (db w) ++ [row])%list) ->
            table_rows t (db (snd (answer (authMiddleware cred next) w)))
              = table_rows t (db w) \/
            exists row,
              status row = "pending" /\
              table_rows t (db (snd (answer (authMiddleware cred next) w)))
              = (table_rows t (db w) ++ [row])%list).
  { intros cred next Hnext.
    destruct (authenticated cred) as [user |] eqn:Hauth.
    - rewrite (authMiddleware_admits _ _ Hauth). apply Hnext. reflexivity.
    - destruct (authMiddleware_refuses cred next w Hauth) as [msg ->]. left. reflexivity. }
  unfold caller_is_admin in Hcaller.
  destruct op as [[body | body | t0 cred body | t0 cred key body | t0 cred key body
                   | t0 cred key | t0 cred key | t0 cred username | body]
                  | body | cred key | sid | cred key];
    cbn [route_all route]; simpl in Hcaller.
  - left. apply Hkeep. apply (applications_kept_by_accounts_and_chat t _ body 0 "" now).
  - left. apply Hkeep. apply (applications_kept_by_accounts_and_chat t _ body 0 "" now).
  - apply Hguard. intros user _.
    destruct (AppTable_eq_dec t t0) as [-> | Hne].
    + apply post_application_rows.
    + left. apply Hkeep. apply other_tables_post_application. exact Hne.
  - apply Hguard. intros user Hauth. rewrite Hauth in Hcaller.
    left. unfold adminMiddleware. rewrite Hcaller. reflexivity.
  - apply Hguard. intros user Hauth. rewrite Hauth in Hcaller.
    left. unfold adminMiddleware. rewrite Hcaller. reflexivity.
  - left. apply Hkeep. apply preserves_authMiddleware. intros user.
    apply (reads_preserve _ t0 user key "").
  - left. apply Hkeep. apply preserves_authMiddleware. intros user.
    apply (reads_preserve _ t0 user key "").
  - left. apply Hkeep. apply preserves_authMiddleware. intros user.
    apply (reads_preserve _ t0 user 0 username).
  - left. apply Hkeep. apply (applications_kept_by_accounts_and_chat t _ body 0 "" now).
  - left. apply Hkeep. apply (applications_kept_by_accounts_and_chat t _ body 0 "" now).
  - left. apply Hkeep. apply preserves_authMiddleware. intros user.
    apply preserves_adminMiddleware.
    apply (applications_kept_by_accounts_and_chat t _ [] key "" now).
  - left. apply Hkeep. apply (applications_kept_by_accounts_and_chat t _ [] 0 sid now).
  - left. apply Hkeep. apply preserves_authMiddleware. intros user.
    apply preserves_adminMiddleware.
    apply (applications_kept_by_accounts_and_chat t _ [] key "" now).
Qed.








End Server.

(** The server and the statements of the claims on the reference instances. *)
Abbreviation ref_put_status := (put_status Ref.parse Ref.stringify Ref.env).
Abbreviation ref_serve :=
  (serve Ref.parse Ref.stringify Ref.hash Ref.compare Ref.sign Ref.verify Ref.validator
         Ref.set_expanded Ref.where_session
         Ref.env).
Abbreviation ref_reachable :=
  (reachable Ref.parse Ref.stringify Ref.hash Ref.compare Ref.sign Ref.verify
             Ref.validator Ref.set_expanded Ref.where_session Ref.env).
Abbreviation ref_history_appended := (spec_history_appended Ref.parse Ref.stringify Ref.env).
Abbreviation ref_unknown_id_not_found :=
  (spec_unknown_id_not_found Ref.parse Ref.stringify Ref.env).
Abbreviation ref_returns_old_and_new :=
  (spec_returns_old_and_new Ref.parse Ref.stringify Ref.env).

(** ** Checks of the string helpers and the reference codec *)

Example toLowerCase_mixed : toLowerCase "Admin@Embassy.ORG" = "admin@embassy.org".
Proof. reflexivity. Qed.

Example replace_then_upper : toUpperCase (replace_first "_" " " "under_review") = "UNDER REVIEW".
Proof. reflexivity. Qed.

Example includes_admin : str_includes "admin" "bob.admin@x.org" = true.
Proof. reflexivity. Qed.

Example trim_both : trim "  1Z 999  " = "1Z 999".
Proof. reflexivity. Qed.

Example String_of_42 : String_of 42 = "42".
Proof. reflexivity. Qed.

Example ref_stringify_entry :
  Ref.parse (Ref.stringify (JArr [JObj [("status", JStr "approved"); ("n", JNum (-12))]; JNull]))
  = Some (JArr [JObj [("status", JStr "approved"); ("n", JNum (-12))]; JNull]).
Proof. vm_compute. reflexivity. Qed.

Example ref_parse_spaces : Ref.parse " [ 1 , { } , true ] " = Some (JArr [JNum 1; JObj []; JBool true]).
Proof. vm_compute. reflexivity. Qed.

Example ref_parse_garbage : Ref.parse "{oops" = None.
Proof. vm_compute. reflexivity. Qed.

Example ref_parse_trailing : Ref.parse "[] x" = None.
Proof. vm_compute. reflexivity. Qed.

Example ref_verify_sign :
  Ref.verify (Ref.sign {| claim_id := 7; claim_username := "admin@embassy.org"; isAdmin := true |}
                       "k" "7d") "k"
  = Some {| claim_id := 7; claim_username := "admin@embassy.org"; isAdmin := true |}.
Proof. vm_compute. reflexivity. Qed.

Example ref_verify_other_secret :
  Ref.verify (Ref.sign {| claim_id := 7; claim_username := "a@b.c"; isAdmin := true |} "k" "7d")
             "other" = None.
Proof. vm_compute. reflexivity. Qed.

(** ** The server on the reference instances *)

(** The two enums. *)
Example status_enum_values :
  status_enum visa_applications
    = ["pending"; "under_review"; "approved"; "denied"; "shipped"] /\
  status_enum marriage_applications = status_enum visa_applications /\
  status_enum birth_certificate_applications = status_enum visa_applications /\
  status_enum travel_pass_applications
    = ["pending"; "under_review"; "approved"; "denied"; "issued"; "collected"].
Proof. repeat split; reflexivity. Qed.

(** Witness of C4: ['shipped'] is not a travel-pass status. *)
Lemma invalid_status_rejected_witness :
  (forall s, get "status" [("status", JStr "shipped")] = Some (JStr s) ->
             ~ In s (status_enum travel_pass_applications)) /\
  exists msg,
    answer (ref_put_status travel_pass_applications Ref.admin 1
              [("status", JStr "shipped")] Ref.now)
           (Ref.holding travel_pass_applications
              [Ref.application 1 "alice@example.com" "pending" None])
    = (error 400 msg,
       Ref.holding travel_pass_applications
         [Ref.application 1 "alice@example.com" "pending" None]).
Proof.
  assert (H : forall s, get "status" [("status", JStr "shipped")] = Some (JStr s) ->
                        ~ In s (status_enum travel_pass_applications)).
  { intros s Hs. injection Hs as <-. simpl.
    intros [H | [H | [H | [H | [H | [H | []]]]]]]; discriminate. }
  split; [exact H |].
  exact (proj1 (invalid_status_rejected Ref.parse Ref.stringify Ref.hash Ref.compare
                  Ref.sign Ref.verify Ref.validator Ref.set_expanded Ref.where_session Ref.env travel_pass_applications
                  Ref.admin 1 [("status", JStr "shipped")] Ref.now _ H)).
Defined.

(** Counterexample to C1 as stated.  Approving a pending application with
    no history: the marriage handler leaves the history empty, the
    travel-pass handler appends an entry without [previousStatus], and the
    visa handler answers 500 without writing when the stored history is the
    JSON object [{}]. *)
Lemma history_not_appended_everywhere :
  ~ ref_history_appended marriage_applications Ref.admin 1 Ref.approve Ref.now
      (Ref.holding marriage_applications
         [Ref.application 1 "alice@example.com" "pending" None]) /\
  ~ ref_history_appended travel_pass_applications Ref.admin 1 Ref.approve Ref.now
      (Ref.holding travel_pass_applications
         [Ref.application 1 "alice@example.com" "pending" None]) /\
  ~ ref_history_appended visa_applications Ref.admin 1 Ref.approve Ref.now
      (Ref.holding visa_applications
         [Ref.application 1 "alice@example.com" "pending" (Some "{}")]).
Proof.
  repeat split; intros H;
    specialize (H _ _ eq_refl);
    destruct H as [application' [others' [Hsel [Hlen Hprev]]]];
    vm_compute in Hsel; injection Hsel as <- <-;
    vm_compute in Hlen; vm_compute in Hprev; discriminate.
Qed.

(** Witness of C1, amended: approving Alice's pending visa application. *)
Lemma status_history_appended_witness :
  exists application' others',
    code (fst (answer (ref_put_status visa_applications Ref.admin 1 Ref.approve Ref.now)
                      (Ref.holding visa_applications
                         [Ref.application 1 "alice@example.com" "pending" None])))
    = 200 /\
    select_where_id 1
      (table_rows visa_applications
         (db (snd (answer (ref_put_status visa_applications Ref.admin 1 Ref.approve Ref.now)
                          (Ref.holding visa_applications
                             [Ref.application 1 "alice@example.com" "pending" None])))))
    = application' :: others' /\
    status application' = "approved" /\
    history_read Ref.parse visa_applications application'
    = Some [history_entry "approved" "admin@embassy.org" Ref.now "pending"] /\
    List.length
      ([] ++ [pushed_entry visa_applications "approved" Ref.admin Ref.now
                (Ref.application 1 "alice@example.com" "pending" None)])
    = 1%nat /\
    (visa_applications = visa_applications ->
     previousStatus_of
       (pushed_entry visa_applications "approved" Ref.admin Ref.now
          (Ref.application 1 "alice@example.com" "pending" None))
     = Some (JStr "pending")).
Proof.
  apply (@status_history_appended Ref.parse Ref.stringify Ref.env visa_applications
           Ref.admin 1 Ref.approve Ref.now
           (Ref.holding visa_applications
              [Ref.application 1 "alice@example.com" "pending" None])
           "approved" (Ref.application 1 "alice@example.com" "pending" None) [] []).
  - left. reflexivity.
  - reflexivity.
  - simpl. auto.
  - reflexivity.
  - reflexivity.
  - split; [vm_compute; discriminate | vm_compute; reflexivity].
Defined.

(** Counterexample to C2 as stated: on a table without row 1 the marriage,
    birth-certificate and travel-pass handlers answer 200. *)
Lemma unknown_id_reported_as_success :
  ~ ref_unknown_id_not_found marriage_applications Ref.admin 1 Ref.approve Ref.now
      fresh_world /\
  ~ ref_unknown_id_not_found birth_certificate_applications Ref.admin 1 Ref.approve
      Ref.now fresh_world /\
  ~ ref_unknown_id_not_found travel_pass_applications Ref.admin 1 Ref.approve Ref.now
      fresh_world.
Proof.
  repeat split; intros H; specialize (H eq_refl); vm_compute in H; discriminate.
Qed.

(** Witness of C2, amended: no visa application has id 1 in a fresh world. *)
Lemma visa_status_unknown_id_not_found_witness :
  fst (answer (ref_put_status visa_applications Ref.admin 1 Ref.approve Ref.now) fresh_world)
    = error 404 "Application not found" /\
  db (snd (answer (ref_put_status visa_applications Ref.admin 1 Ref.approve Ref.now)
                  fresh_world)) = db fresh_world.
Proof.
  apply (@visa_status_unknown_id_not_found Ref.parse Ref.stringify Ref.env Ref.admin 1
           Ref.approve Ref.now fresh_world "approved").
  - reflexivity.
  - simpl. auto.
  - reflexivity.
Defined.

(** C3 at a failing input.  A travel-pass application whose stored history
    is the text [{oops]: the handler answers 500 and writes nothing, where
    the visa handler, given the same row, answers 200 and starts a new
    history. *)
Lemma travel_pass_corrupt_history_blocks_update :
  answer (put_travel_pass_status Ref.parse Ref.stringify 1 Ref.approve Ref.now)
         (Ref.holding travel_pass_applications
            [Ref.application 1 "alice@example.com" "pending" (Some "{oops")])
  = (error 500 "Server error",
     {| db := db (Ref.holding travel_pass_applications
                    [Ref.application 1 "alice@example.com" "pending" (Some "{oops")]);
        outbox := [];
        console := ["travel pass status"];
        queries := [SELECT "travel_pass_applications"] |}) /\
  code (fst (answer (put_visa_status Ref.parse Ref.stringify Ref.env Ref.admin 1
                       Ref.approve Ref.now)
                    (Ref.holding visa_applications
                       [Ref.application 1 "alice@example.com" "pending" (Some "{oops")])))
  = 200.
Proof. split; vm_compute; reflexivity. Qed.

(** Witness of C5: Alice asks for Bob's visa applications, by list, by id
    and as a PDF. *)
Lemma non_owner_reads_forbidden_witness :
  answer (get_by_user visa_applications Ref.alice "Bob@Example.com")
         (Ref.holding visa_applications
            [Ref.application 1 "bob@example.com" "approved" None])
  = (error 403 "Access denied",
     Ref.holding visa_applications [Ref.application 1 "bob@example.com" "approved" None]) /\
  answer (get_application visa_applications Ref.alice 1)
         (Ref.holding visa_applications
            [Ref.application 1 "bob@example.com" "approved" None])
  = (error 403 "Access denied",
     selected visa_applications
       (Ref.holding visa_applications
          [Ref.application 1 "bob@example.com" "approved" None])) /\
  answer (get_application_pdf visa_applications Ref.alice 1)
         (Ref.holding visa_applications
            [Ref.application 1 "bob@example.com" "approved" None])
  = (error 403 "Access denied",
     selected visa_applications
       (Ref.holding visa_applications
          [Ref.application 1 "bob@example.com" "approved" None])).
Proof.
  destruct (non_owner_reads_forbidden visa_applications Ref.alice
              (Ref.holding visa_applications
                 [Ref.application 1 "bob@example.com" "approved" None]) eq_refl)
    as [Hlist Hrow].
  split.
  - apply Hlist; [discriminate | vm_compute; discriminate].
  - apply (Hrow 1 (Ref.application 1 "bob@example.com" "approved" None) []).
    + reflexivity.
    + vm_compute. discriminate.
Defined.

(** Witness of C6: approving Alice's visa application while the mail
    provider rejects every message. *)
Lemma mail_failure_swallowed_witness :
  let w := Ref.holding visa_applications
             [Ref.application 1 "alice@example.com" "pending" None] in
  let text :=
    Ref.stringify (JArr [history_entry "approved" "admin@embassy.org" Ref.now "pending"]) in
  answer (put_visa_status Ref.parse Ref.stringify Ref.env_mail_down Ref.admin 1 Ref.approve
            Ref.now) w
  = (visa_status_updated (Ref.application 1 "alice@example.com" "pending" None) "approved",
     {| db := set_rows visa_applications
                (update_where_id 1 (set_status_history "approved" text Ref.now) (visa (db w)))
                (db w);
        outbox := [];
        console := ["Failed to send status update email:"];
        queries := [SELECT "visa_applications"; UPDATE "visa_applications"] |}) /\
  select_where_id 1
    (visa (db (snd (answer (put_visa_status Ref.parse Ref.stringify Ref.env_mail_down
                              Ref.admin 1 Ref.approve Ref.now) w))))
  = [set_status_history "approved" text Ref.now
       (Ref.application 1 "alice@example.com" "pending" None)].
Proof.
  apply (@mail_failure_swallowed Ref.parse Ref.stringify Ref.env_mail_down Ref.admin 1
           Ref.approve Ref.now
           (Ref.holding visa_applications
              [Ref.application 1 "alice@example.com" "pending" None])
           "approved" (Ref.application 1 "alice@example.com" "pending" None) [] []).
  - reflexivity.
  - simpl. auto.
  - reflexivity.
  - reflexivity.
  - reflexivity.
  - reflexivity.
Defined.

(** Counterexample to C7 as stated: the marriage, birth-certificate and
    travel-pass handlers answer a successful update with
    [{ success: true }] and nothing else. *)
Lemma success_without_statuses :
  (~ ref_returns_old_and_new marriage_applications Ref.admin 1 Ref.approve Ref.now
       (Ref.holding marriage_applications
          [Ref.application 1 "alice@example.com" "pending" None]) /\
   ~ ref_returns_old_and_new birth_certificate_applications Ref.admin 1 Ref.approve Ref.now
       (Ref.holding birth_certificate_applications
          [Ref.application 1 "alice@example.com" "pending" None]) /\
   ~ ref_returns_old_and_new travel_pass_applications Ref.admin 1 Ref.approve Ref.now
       (Ref.holding travel_pass_applications
          [Ref.application 1 "alice@example.com" "pending" None])) /\
  fst (answer (ref_put_status marriage_applications Ref.admin 1 Ref.approve Ref.now)
              (Ref.holding marriage_applications
                 [Ref.application 1 "alice@example.com" "pending" None]))
  = json 200 (JObj [("success", JBool true)]).
Proof.
  split; [| vm_compute; reflexivity].
  repeat split; intros H; specialize (H eq_refl);
    destruct H as [application [others [_ [Hnew _]]]];
    vm_compute in Hnew; discriminate.
Qed.

(** Witness of C7, amended. *)
Lemma successful_status_response_witness :
  exists s application others,
    get "status" Ref.approve = Some (JStr s) /\ In s validStatuses /\
    select_where_id 1
      (visa (db (Ref.holding visa_applications
                   [Ref.application 1 "alice@example.com" "pending" None])))
    = application :: others /\
    body_of (fst (answer (ref_put_status visa_applications Ref.admin 1 Ref.approve Ref.now)
                         (Ref.holding visa_applications
                            [Ref.application 1 "alice@example.com" "pending" None])))
    = Some (JObj [("success", JBool true);
                  ("application",
                   JObj [("id", JNum (id application));
                         ("status", JStr s);
                         ("previousStatus", JStr (status application))])]).
Proof.
  apply (successful_status_response Ref.parse Ref.stringify Ref.env Ref.admin 1
           Ref.approve Ref.now).
  vm_compute. reflexivity.
Defined.

(** Witness of C9: the widget says hello twice in session [s-42]. *)
Lemma chat_conversation_idempotent_witness :
  exists cid,
    code (fst (answer (post_chat_conversation Ref.where_session (Ref.hello "s-42" "Ann") Ref.now)
                      fresh_world)) = 200 /\
    code (fst (answer (post_chat_conversation Ref.where_session (Ref.hello "s-42" "Ann B.") "later")
                      (snd (answer (post_chat_conversation Ref.where_session (Ref.hello "s-42" "Ann") Ref.now)
                                   fresh_world)))) = 200 /\
    conversation_id_of
      (fst (answer (post_chat_conversation Ref.where_session (Ref.hello "s-42" "Ann") Ref.now) fresh_world))
    = Some (JNum cid) /\
    conversation_id_of
      (fst (answer (post_chat_conversation Ref.where_session (Ref.hello "s-42" "Ann B.") "later")
                   (snd (answer (post_chat_conversation Ref.where_session (Ref.hello "s-42" "Ann") Ref.now)
                                fresh_world))))
    = Some (JNum cid) /\
    db (snd (answer (post_chat_conversation Ref.where_session (Ref.hello "s-42" "Ann B.") "later")
                    (snd (answer (post_chat_conversation Ref.where_session (Ref.hello "s-42" "Ann") Ref.now)
                                 fresh_world))))
    = db (snd (answer (post_chat_conversation Ref.where_session (Ref.hello "s-42" "Ann") Ref.now)
                      fresh_world)) /\
    (conversations_of "s-42" (db fresh_world) = [] ->
     List.length
       (conversations_of "s-42"
          (db (snd (answer (post_chat_conversation Ref.where_session (Ref.hello "s-42" "Ann B.") "later")
                           (snd (answer (post_chat_conversation Ref.where_session (Ref.hello "s-42" "Ann")
                                           Ref.now) fresh_world))))))
     = 1%nat) /\
    (conversations_of "s-42" (db fresh_world) <> [] ->
     db (snd (answer (post_chat_conversation Ref.where_session (Ref.hello "s-42" "Ann B.") "later")
                     (snd (answer (post_chat_conversation Ref.where_session (Ref.hello "s-42" "Ann") Ref.now)
                                  fresh_world))))
     = db fresh_world).
Proof.
  apply (chat_conversation_idempotent Ref.where_session (Ref.hello "s-42" "Ann") (Ref.hello "s-42" "Ann B.")
           Ref.now "later" fresh_world "s-42"); reflexivity.
Defined.

(** The scenario of the specification: Alice submits a visa application,
    an administrator approves it.  The row then holds one history entry
    from ['pending'] to ['approved'] and one mail went out to Alice. *)
Example submit_then_approve :
  let w1 := snd (ref_serve Ref.now Ref.submit_visa fresh_world) in
  let out := ref_serve "2025-03-02T08:30:00.000Z" Ref.approve_visa w1 in
  fst (ref_serve Ref.now Ref.submit_visa fresh_world)
    = json 200 (JObj [("success", JBool true); ("id", JNum 1)]) /\
  code (fst out) = 200 /\
  map status (visa (db (snd out))) = ["approved"] /\
  map (stored_history Ref.parse) (visa (db (snd out)))
    = [[history_entry "approved" "admin@embassy.org" "2025-03-02T08:30:00.000Z" "pending"]] /\
  map to (outbox (snd out)) = ["alice@example.com"] /\
  map subject (outbox (snd out)) = ["Visa Application Status Update - APPROVED"].
Proof. vm_compute. repeat split; reflexivity. Qed.

(** C8 at a failing input.  Alice submits a marriage application, stored
    as ['pending'].  An administrator then sends
    [PUT /api/marriage-applications/1/tracking] with the tracking number
    [1Z999] and the carrier [{ id: 1, status: 'denied' }].  The body has no
    [status] field and the route runs no membership check; the driver
    expands the object into the text of the UPDATE, the answer is 200 and
    the row's status is ['denied'], with no history entry: a status that
    passed no check, written by a route that is not a status route. *)
Lemma tracking_carrier_writes_status :
  let submit := POST_application marriage_applications (Ref.bearer Ref.alice)
                  [("spouse1_first_name", JStr "Alice"); ("spouse1_last_name", JStr "Martin");
                   ("spouse1_birth_date", JStr "1990-04-12");
                   ("spouse1_nationality", JStr "Central African");
                   ("spouse2_first_name", JStr "Bob"); ("spouse2_last_name", JStr "Ngaro");
                   ("spouse2_birth_date", JStr "1988-11-02");
                   ("spouse2_nationality", JStr "Central African");
                   ("marriage_date", JStr "2024-06-15"); ("marriage_place", JStr "Bangui");
                   ("marriage_country", JStr "Central African Republic");
                   ("marriage_type", JStr "civil");
                   ("certificate_purpose", JStr "Residence permit")] in
  let body := [("trackingNumber", JStr "1Z999");
               ("carrier", JObj [("id", JNum 1); ("status", JStr "denied")])] in
  let w1 := snd (ref_serve Ref.now submit fresh_world) in
  let out := ref_serve "2025-03-02T08:30:00.000Z"
               (PUT_tracking marriage_applications (Ref.bearer Ref.admin) 1 body) w1 in
  ref_reachable (snd out) /\
  map status (marriage (db w1)) = ["pending"] /\
  get "status" body = None /\
  fst out = json 200 (JObj [("success", JBool true);
                            ("carrier", JObj [("id", JNum 1); ("status", JStr "denied")])]) /\
  map status (marriage (db (snd out))) = ["denied"] /\
  map status_history (marriage (db (snd out))) = [None] /\
  map tracking_number (marriage (db (snd out))) = [Some "1Z999"] /\
  map shipping_carrier (marriage (db (snd out))) = [Some "usps"].
Proof.
  intros submit body w1 out. split.
  - apply reachable_serve. apply reachable_serve. apply reachable_start.
  - vm_compute. repeat split; reflexivity.
Qed.

(** The reference token format: [Ref.verify] reads what [Ref.sign] wrote. *)

Lemma digits_uint_acc : forall d p name,
  Ref.digits (Z.pos p) (NilEmpty.string_of_uint d ++ String "." name)
  = (Z.pos (Pos.of_uint_acc d p), String "." name).
Proof.
  induction d as [| d IH | d IH | d IH | d IH | d IH | d IH | d IH | d IH | d IH | d IH];
    intros p name; [reflexivity | | | | | | | | | |];
    cbn [NilEmpty.string_of_uint append Ref.digits Pos.of_uint_acc];
    match goal with
    | |- context [Ref.digit ?c] =>
        let v := eval vm_compute in (Ref.digit c) in change (Ref.digit c) with v
    end;
    cbv iota beta;
    match goal with
    | |- Ref.digits ?acc _ = (Z.pos (Pos.of_uint_acc _ ?q), _) =>
        replace acc with (Z.pos q) by lia
    end;
    apply IH.
Qed.

Lemma digits_uint : forall d name,
  Ref.digits 0 (NilEmpty.string_of_uint d ++ String "." name)
  = (Z.of_N (Pos.of_uint d), String "." name).
Proof.
  induction d as [| d IH | d IH | d IH | d IH | d IH | d IH | d IH | d IH | d IH | d IH];
    intros name; [reflexivity | | | | | | | | | |];
    cbn [NilEmpty.string_of_uint append Ref.digits Pos.of_uint];
    match goal with
    | |- context [Ref.digit ?c] =>
        let v := eval vm_compute in (Ref.digit c) in change (Ref.digit c) with v
    end;
    cbv iota beta;
    first [ apply IH | apply (digits_uint_acc d _ name) ].
Qed.

Lemma number_String_of : forall n name,
  Ref.number (String_of n ++ String "." name) = Some (n, String "." name).
Proof.
  intros n name. unfold String_of.
  destruct n as [| p | p]; [reflexivity | |];
    cbn [Z.to_int NilZero.string_of_int]; unfold NilZero.string_of_uint;
    assert (Hnil := Unsigned.to_uint_nonnil p);
    assert (Hdigits := digits_uint (Pos.to_uint p) name);
    rewrite Unsigned.of_to in Hdigits;
    destruct (Pos.to_uint p) eqn:E; try (exfalso; apply Hnil; reflexivity);
    cbn [NilEmpty.string_of_uint append Ref.number] in *;
    match goal with
    | |- context [Ascii.eqb ?c ?d] =>
        let v := eval vm_compute in (Ascii.eqb c d) in change (Ascii.eqb c d) with v
    end;
    cbv iota beta;
    match goal with
    | |- context [Ref.digit ?c] =>
        let v := eval vm_compute in (Ref.digit c) in change (Ref.digit c) with v
    end;
    cbv iota beta;
    first [ rewrite Hdigits; reflexivity
          | cbn [Ref.digits] in Hdigits |- *; rewrite Hdigits; reflexivity ].
Qed.

Lemma prefix_secret : forall secret rest,
  String.prefix (secret ++ ".") (secret ++ String "." rest) = true.
Proof.
  induction secret as [| c secret IH]; intros rest; simpl.
  - destruct rest; reflexivity.
  - destruct (ascii_dec c c) as [_ | Hne]; [apply IH | contradiction Hne; reflexivity].
Qed.

Lemma skip_secret : forall secret rest,
  String.substring (String.length secret + 1)
                   (String.length (secret ++ String "." rest) - (String.length secret + 1))
                   (secret ++ String "." rest) = rest.
Proof.
  induction secret as [| c secret IH]; intros rest; simpl.
  - rewrite Nat.sub_0_r. apply substring_whole.
  - apply IH.
Qed.

(** [Ref.verify] reads back the claims [Ref.sign] wrote, under the same
    secret. *)
Lemma verify_sign : forall payload secret expiresIn,
  Ref.verify (Ref.sign payload secret expiresIn) secret = Some payload.
Proof.
  intros [key name flag] secret expiresIn. unfold Ref.verify, Ref.sign.
  cbn [claim_id claim_username isAdmin].
  change ("." ++ (if flag then "1" else "0") ++ "." ++ String_of key ++ "." ++ name)
    with (String "." ((if flag then "1" else "0") ++ "." ++ String_of key ++ "." ++ name)).
  rewrite prefix_secret, skip_secret.
  destruct flag; cbn [append]; change (Ascii.eqb "." ".") with true; cbv iota;
    change ("." ++ name) with (String "." name);
    rewrite number_String_of; reflexivity.
Qed.

(** Witness of C10: an account named [admin@embassy.org] signs up, then
    logs in. *)
Lemma tokens_admin_flag_witness :
  let signed_up := answer (post_signup Ref.hash Ref.sign Ref.validator Ref.env
                          (Ref.signup_form "Admin@Embassy.org")) fresh_world in
  let logged_in := answer (post_login Ref.compare Ref.sign Ref.validator Ref.env
                         (Ref.signup_form "admin@embassy.org")) (snd signed_up) in
  (exists token decoded,
     token_of (fst signed_up) = Some (JStr token) /\
     verifyToken Ref.verify Ref.env token = Some decoded /\
     isAdmin decoded = false) /\
  (exists token decoded user,
     token_of (fst logged_in) = Some (JStr token) /\
     verifyToken Ref.verify Ref.env token = Some decoded /\
     In user (login (db (snd signed_up))) /\
     claim_id decoded = user_id user /\
     claim_username decoded = username user /\
     isAdmin decoded = str_includes "admin" (username user)).
Proof.
  intros signed_up logged_in. split.
  - apply (@tokens_admin_flag Ref.hash Ref.compare Ref.sign Ref.verify Ref.validator Ref.env
             (Ref.signup_form "Admin@Embassy.org") fresh_world
             (fun payload => verify_sign payload _ _)).
    vm_compute. reflexivity.
  - apply (@tokens_admin_flag Ref.hash Ref.compare Ref.sign Ref.verify Ref.validator Ref.env
             (Ref.signup_form "admin@embassy.org") (snd signed_up)
             (fun payload => verify_sign payload _ _)).
    vm_compute. reflexivity.
Defined.

(** The same two tokens, verified: the one from signup says
    [isAdmin: false], the one from login [isAdmin: true]. *)
Example admin_only_after_login :
  let signed_up := answer (post_signup Ref.hash Ref.sign Ref.validator Ref.env
                          (Ref.signup_form "Admin@Embassy.org")) fresh_world in
  let logged_in := answer (post_login Ref.compare Ref.sign Ref.validator Ref.env
                         (Ref.signup_form "admin@embassy.org")) (snd signed_up) in
  verifyToken Ref.verify Ref.env (str (token_of (fst signed_up)))
    = Some {| claim_id := 1; claim_username := "admin@embassy.org"; isAdmin := false |} /\
  verifyToken Ref.verify Ref.env (str (token_of (fst logged_in)))
    = Some {| claim_id := 1; claim_username := "admin@embassy.org"; isAdmin := true |}.
Proof. vm_compute. split; reflexivity. Qed.

(** ** More of the server on the reference instances *)

(** The whole server on the reference instances. *)
Abbreviation ref_serve_all :=
  (serve_all Ref.parse Ref.stringify Ref.hash Ref.compare Ref.sign Ref.verify Ref.validator
             Ref.set_expanded Ref.where_session
             Ref.env).
Abbreviation ref_reachable_all :=
  (reachable_all Ref.parse Ref.stringify Ref.hash Ref.compare Ref.sign Ref.verify
                 Ref.validator Ref.set_expanded Ref.where_session Ref.env).

(** Witness of X2: a detail request without header or cookie. *)
Lemma unauthenticated_request_refused_witness :
  exists msg,
    ref_serve_all Ref.now
      (Routed (GET_application visa_applications
                 {| authorization := None; cookie_token := None |} 1))
      fresh_world
    = (error 401 msg, fresh_world).
Proof.
  apply (@unauthenticated_request_refused Ref.parse Ref.stringify Ref.hash Ref.compare
           Ref.sign Ref.verify Ref.validator Ref.set_expanded Ref.where_session Ref.env Ref.now
           (Routed (GET_application visa_applications
                      {| authorization := None; cookie_token := None |} 1))
           {| authorization := None; cookie_token := None |} fresh_world);
    reflexivity.
Defined.

(** Witness of X3: Alice, who is no administrator, tries to close
    conversation 1. *)
Lemma admin_route_refuses_non_admin_witness :
  ref_serve_all Ref.now (PUT_chat_close (Ref.bearer Ref.alice) 1) fresh_world
  = (error 403 "Admin access required", fresh_world).
Proof.
  apply (@admin_route_refuses_non_admin Ref.parse Ref.stringify Ref.hash Ref.compare
           Ref.sign Ref.verify Ref.validator Ref.set_expanded Ref.where_session Ref.env Ref.now
           (PUT_chat_close (Ref.bearer Ref.alice) 1) (Ref.bearer Ref.alice) Ref.alice
           fresh_world); vm_compute; reflexivity.
Defined.

(** Witness of X4: the address of an existing account, in another
    spelling. *)
Lemma signup_duplicate_conflict_witness :
  let taken := snd (answer (post_signup Ref.hash Ref.sign Ref.validator Ref.env
                              (Ref.signup_form "Admin@Embassy.org")) fresh_world) in
  answer (post_signup Ref.hash Ref.sign Ref.validator Ref.env
            (Ref.signup_form "ADMIN@embassy.org")) taken
  = (error 409 "Email already registered",
     {| db := db taken; outbox := outbox taken; console := console taken;
        queries := queries taken ++ [INSERT "login"] |}).
Proof.
  intros taken.
  apply (@signup_duplicate_conflict Ref.hash Ref.sign Ref.validator Ref.env
           (Ref.signup_form "ADMIN@embassy.org") (Ref.signup_form "ADMIN@embassy.org")
           "ADMIN@embassy.org" "S3cret!pass" taken).
  - reflexivity.
  - reflexivity.
  - reflexivity.
  - eexists. split; [left; reflexivity | reflexivity].
Defined.

(** Witness of X5: [Admin@Embassy.org] signs up and logs in as
    [admin@embassy.org]. *)
Lemma signup_then_login_witness :
  let registered := snd (answer (post_signup Ref.hash Ref.sign Ref.validator Ref.env
                                   (Ref.signup_form "Admin@Embassy.org")) fresh_world) in
  let payload := {| claim_id := 1; claim_username := "admin@embassy.org"; isAdmin := true |} in
  code (fst (answer (post_login Ref.compare Ref.sign Ref.validator Ref.env
                       (Ref.signup_form "admin@embassy.org")) registered)) = 200 /\
  token_of (fst (answer (post_login Ref.compare Ref.sign Ref.validator Ref.env
                           (Ref.signup_form "admin@embassy.org")) registered))
    = Some (JStr (generateToken Ref.sign Ref.env payload)) /\
  db (snd (answer (post_login Ref.compare Ref.sign Ref.validator Ref.env
                     (Ref.signup_form "admin@embassy.org")) registered)) = db registered.
Proof.
  apply (@signup_then_login Ref.hash Ref.compare Ref.sign Ref.validator Ref.env
           (Ref.signup_form "Admin@Embassy.org") (Ref.signup_form "Admin@Embassy.org")
           (Ref.signup_form "admin@embassy.org") (Ref.signup_form "admin@embassy.org")
           "Admin@Embassy.org" "admin@embassy.org" "S3cret!pass" fresh_world);
    reflexivity.
Defined.

(** Witness of X6: a wrong password for an existing account. *)
Lemma login_refusal_uniform_witness :
  let registered := snd (answer (post_signup Ref.hash Ref.sign Ref.validator Ref.env
                                   (Ref.signup_form "Admin@Embassy.org")) fresh_world) in
  fst (answer (post_login Ref.compare Ref.sign Ref.validator Ref.env
                 [("username", JStr "admin@embassy.org"); ("password", JStr "guess")])
              registered)
    = error 401 "Invalid credentials" /\
  db (snd (answer (post_login Ref.compare Ref.sign Ref.validator Ref.env
                     [("username", JStr "admin@embassy.org"); ("password", JStr "guess")])
                  registered))
    = db registered.
Proof.
  intros registered.
  apply (@login_refusal_uniform Ref.compare Ref.sign Ref.validator Ref.env
           [("username", JStr "admin@embassy.org"); ("password", JStr "guess")]
           [("username", JStr "admin@embassy.org"); ("password", JStr "guess")]
           "admin@embassy.org" "guess" registered); try reflexivity.
  intros u [<- | []] _. reflexivity.
Defined.

(** A day at the embassy: an account is created, Alice submits a visa
    application, a visitor opens a chat and says hello. *)
Abbreviation ref_day :=
  (snd (ref_serve_all "2025-03-01T10:03:00.000Z"
          (POST_chat_message [("sessionId", JStr "s-42"); ("senderType", JStr "user");
                              ("senderName", JStr "Ann"); ("message", JStr "Hello")])
     (snd (ref_serve_all "2025-03-01T10:02:00.000Z"
             (Routed (POST_chat_conversation (Ref.hello "s-42" "Ann")))
        (snd (ref_serve_all "2025-03-01T10:01:00.000Z" (Routed Ref.submit_visa)
           (snd (ref_serve_all Ref.now
                   (Routed (POST_signup (Ref.signup_form "Admin@Embassy.org")))
                   fresh_world)))))))).

Lemma ref_day_reachable : ref_reachable_all ref_day.
Proof. repeat apply reachable_all_serve. apply reachable_all_start. Qed.

(** Witness of X7: the keys after that day. *)
Lemma reachable_keys_unique_witness :
  map user_id (login (db ref_day)) = [1] /\
  map id (visa (db ref_day)) = [1] /\
  NoDup (map user_id (login (db ref_day))) /\
  NoDup (map conv_id (chat_conversations (db ref_day))) /\
  NoDup (map msg_id (chat_messages (db ref_day))) /\
  (forall t, NoDup (map id (table_rows t (db ref_day)))) /\
  (forall t key, (List.length (select_where_id key (table_rows t (db ref_day))) <= 1)%nat).
Proof.
  split; [vm_compute; reflexivity |]. split; [vm_compute; reflexivity |].
  exact (reachable_keys_unique ref_day_reachable).
Defined.

(** Witness of X8: the account of that day. *)
Lemma reachable_accounts_distinct_witness :
  map username (login (db ref_day)) = ["admin@embassy.org"] /\
  NoDup (map username (login (db ref_day))) /\
  (forall u, In u (login (db ref_day)) -> toLowerCase (username u) = username u) /\
  (forall u name,
      In u (login (db ref_day)) -> toLowerCase name = username u ->
      filter (fun u' => (username u' =? toLowerCase name)%string) (login (db ref_day)) = [u]).
Proof.
  split; [vm_compute; reflexivity |].
  exact (reachable_accounts_distinct ref_day_reachable).
Defined.

(** Witness of X9: the chat of that day. *)
Lemma reachable_chat_consistent_witness :
  map conversation_id (chat_messages (db ref_day)) = [1] /\
  map conv_id (chat_conversations (db ref_day)) = [1] /\
  (forall sid, (List.length (conversations_of sid (db ref_day)) <= 1)%nat) /\
  (forall c, In c (chat_conversations (db ref_day)) ->
             conv_status c = "active" \/ conv_status c = "closed") /\
  (forall m, In m (chat_messages (db ref_day)) ->
             exists c, In c (chat_conversations (db ref_day)) /\ conv_id c = conversation_id m).
Proof.
  split; [vm_compute; reflexivity |]. split; [vm_compute; reflexivity |].
  exact (reachable_chat_consistent ref_day_reachable).
Defined.

(** Witness of X12: Alice submits a visa application to a fresh server and
    reads it. *)
Lemma created_application_reads_back_witness :
  let body := [("visaType", JStr "shortStay"); ("firstName", JStr "Alice");
               ("lastName", JStr "Martin")] in
  let posted := answer (post_application Ref.validator visa_applications Ref.alice body
                          Ref.now) fresh_world in
  exists row,
    fst posted = created 1 /\
    id row = 1 /\
    user_name row = "alice@example.com" /\ status row = "pending" /\
    tracking_number row = None /\ status_history row = None /\
    answer (get_application visa_applications Ref.alice (id row)) (snd posted)
      = (json 200 (row_json row), selected visa_applications (snd posted)).
Proof.
  apply (@created_application_reads_back Ref.validator visa_applications Ref.alice
           [("visaType", JStr "shortStay"); ("firstName", JStr "Alice");
            ("lastName", JStr "Martin")] Ref.now fresh_world); reflexivity.
Defined.

(** Witness of X13: approving a marriage application sends nothing. *)
Lemma mail_only_from_visa_updates_witness :
  let w := Ref.holding marriage_applications
             [Ref.application 1 "alice@example.com" "pending" None] in
  let op := Routed (PUT_status marriage_applications (Ref.bearer Ref.admin) 1 Ref.approve) in
  map status (marriage (db (snd (ref_serve_all Ref.now op w)))) = ["approved"] /\
  outbox (snd (ref_serve_all Ref.now op w)) = outbox w.
Proof.
  intros w op. split; [vm_compute; reflexivity |].
  apply (@mail_only_from_visa_updates Ref.parse Ref.stringify Ref.hash Ref.compare
           Ref.sign Ref.verify Ref.validator Ref.set_expanded Ref.where_session Ref.env Ref.now op w).
  reflexivity.
Defined.

(** Witness of X14: a visitor reads a session. *)
Lemma read_routes_write_nothing_witness :
  db (snd (ref_serve_all Ref.now (GET_chat_session "s-42") ref_day)) = db ref_day /\
  outbox (snd (ref_serve_all Ref.now (GET_chat_session "s-42") ref_day)) = outbox ref_day.
Proof.
  apply (@read_routes_write_nothing Ref.parse Ref.stringify Ref.hash Ref.compare
           Ref.sign Ref.verify Ref.validator Ref.set_expanded Ref.where_session Ref.env Ref.now (GET_chat_session "s-42")
           ref_day).
  reflexivity.
Defined.

(** Witness of X15: Alice reads her application, as JSON and as a PDF. *)
Lemma owner_or_admin_reads_witness :
  let mine := Ref.application 7 "alice@example.com" "approved" None in
  let w := Ref.holding visa_applications [mine] in
  answer (get_application visa_applications Ref.alice 7) w
    = (json 200 (row_json mine), selected visa_applications w) /\
  answer (get_application_pdf visa_applications Ref.alice 7) w
    = ({| code := 200;
          body := Pdf {| filename := "visa-7.pdf"; barcode_text := "7"; rendered := mine |} |},
       selected visa_applications w).
Proof.
  intros mine w.
  apply (@owner_or_admin_reads visa_applications Ref.alice 7 w mine []).
  - reflexivity.
  - right. reflexivity.
Defined.

(** Witness of X16: Alice lists her two applications. *)
Lemma user_list_holds_own_rows_witness :
  let w := Ref.holding visa_applications
             [Ref.application 1 "alice@example.com" "approved" None;
              Ref.application 2 "bob@example.com" "pending" None;
              Ref.application 3 "alice@example.com" "pending" None] in
  body_of (fst (answer (get_by_user visa_applications Ref.alice "Alice@Example.com") w))
    = Some (JArr (map (list_item visa_applications)
                      [Ref.application 3 "alice@example.com" "pending" None;
                       Ref.application 1 "alice@example.com" "approved" None])) /\
  (isAdmin Ref.alice = false ->
   list_owner visa_applications "Alice@Example.com" = claim_username Ref.alice).
Proof.
  intros w.
  apply (@user_list_holds_own_rows visa_applications Ref.alice "Alice@Example.com" w).
  reflexivity.
Defined.

(** Witness of X17: approving Alice's visa application sends her one
    mail. *)
Lemma visa_status_mail_to_owner_witness :
  let mine := Ref.application 1 "alice@example.com" "pending" None in
  let w := Ref.holding visa_applications [mine] in
  outbox (snd (answer (put_visa_status Ref.parse Ref.stringify Ref.env Ref.admin 1
                         Ref.approve Ref.now) w))
    = [status_mail Ref.env mine "approved"] /\
  to (status_mail Ref.env mine "approved") = "alice@example.com".
Proof.
  intros mine w.
  apply (@visa_status_mail_to_owner Ref.parse Ref.stringify Ref.env Ref.admin 1
           Ref.approve Ref.now w "approved" mine [] []).
  - reflexivity.
  - simpl. auto.
  - reflexivity.
  - reflexivity.
Defined.

(** Witness of X18: Alice's application is approved, then shipped. *)
Lemma visa_status_updates_chain_witness :
  let mine := Ref.application 1 "alice@example.com" "pending" None in
  let w := Ref.holding visa_applications [mine] in
  let first := answer (put_visa_status Ref.parse Ref.stringify Ref.env Ref.admin 1
                         Ref.approve Ref.now) w in
  let second := answer (put_visa_status Ref.parse Ref.stringify Ref.env Ref.admin 1
                          [("status", JStr "shipped")] "2025-03-05T09:00:00.000Z")
                       (snd first) in
  code (fst second) = 200 /\
  application_field "status" (fst second) = Some (JStr "shipped") /\
  application_field "previousStatus" (fst second) = Some (JStr "approved") /\
  exists application' others',
    select_where_id 1 (visa (db (snd second))) = application' :: others' /\
    status application' = "shipped" /\
    status_history application'
    = Some (Ref.stringify
              (JArr ([] ++ [history_entry "approved" "admin@embassy.org" Ref.now "pending";
                            history_entry "shipped" "admin@embassy.org"
                                          "2025-03-05T09:00:00.000Z" "approved"]))).
Proof.
  intros mine w.
  apply (@visa_status_updates_chain Ref.parse Ref.stringify Ref.env Ref.admin Ref.admin 1
           Ref.approve [("status", JStr "shipped")] Ref.now "2025-03-05T09:00:00.000Z" w
           "approved" "shipped" mine [] []).
  - reflexivity.
  - simpl. auto.
  - reflexivity.
  - simpl. auto 6.
  - reflexivity.
  - reflexivity.
  - split; [vm_compute; discriminate | vm_compute; reflexivity].
Defined.

(** Witness of X19: three spaces as a tracking number. *)
Lemma blank_tracking_number_witness :
  let w := Ref.holding marriage_applications
             [Ref.application 1 "alice@example.com" "approved" None] in
  let body := [("trackingNumber", JStr "   ")] in
  answer (put_tracking Ref.set_expanded Ref.env visa_applications 1 body Ref.now) w
    = (error 400 "Tracking number is required", w) /\
  (forall t, t <> visa_applications ->
     fst (answer (put_tracking Ref.set_expanded Ref.env t 1 body Ref.now) w)
       = json 200 (JObj [("success", JBool true); ("carrier", or_null (get "carrier" body))]) /\
     table_rows t (db (snd (answer (put_tracking Ref.set_expanded Ref.env t 1 body Ref.now) w)))
       = update_where_id 1 (set_tracking "" (sql_text (or_null (get "carrier" body))) Ref.now)
           (table_rows t (db w))).
Proof.
  intros w body.
  apply (@blank_tracking_number Ref.set_expanded Ref.env 1 body Ref.now w "   ").
  - reflexivity.
  - discriminate.
  - reflexivity.
  - reflexivity.
Defined.

(** Witness of X20: a message for a session nobody opened. *)
Lemma chat_message_unknown_session_witness :
  answer (post_chat_message Ref.where_session
            [("sessionId", JStr "s-7"); ("senderType", JStr "user");
             ("message", JStr "Anyone there?")] Ref.now) fresh_world
  = (error 404 "Conversation not found",
     {| db := db fresh_world; outbox := []; console := [];
        queries := [] ++ [SELECT "chat_conversations"] |}).
Proof.
  apply (@chat_message_unknown_session Ref.where_session
           [("sessionId", JStr "s-7"); ("senderType", JStr "user");
            ("message", JStr "Anyone there?")] Ref.now fresh_world "s-7"); reflexivity.
Defined.



(** Witness of X26: three months of submissions. *)
Lemma applicationTrend_totals_witness :
  let visaTrend := [{| month := "2025-01"; count := 4 |}; {| month := "2025-03"; count := 2 |}] in
  let marriageTrend := [{| month := "2025-02"; count := 1 |}] in
  let birthTrend := [] in
  let travelTrend := [{| month := "2025-01"; count := 3 |}; {| month := "2025-02"; count := 5 |}] in
  map point_month (applicationTrend visaTrend marriageTrend birthTrend travelTrend)
    = ["2025-01"; "2025-02"; "2025-03"] /\
  map total (applicationTrend visaTrend marriageTrend birthTrend travelTrend) = [7; 6; 2] /\
  sum_totals (applicationTrend visaTrend marriageTrend birthTrend travelTrend)
    = sum_counts visaTrend + sum_counts marriageTrend
      + sum_counts birthTrend + sum_counts travelTrend.
Proof.
  intros visaTrend marriageTrend birthTrend travelTrend.
  split; [vm_compute; reflexivity |]. split; [vm_compute; reflexivity |].
  apply (@applicationTrend_totals visaTrend marriageTrend birthTrend travelTrend).
  - repeat constructor; simpl; intuition discriminate.
  - repeat constructor; simpl; intuition discriminate.
  - constructor.
  - repeat constructor; simpl; intuition discriminate.
Defined.

(** Witness of X28: the account [Admin@Embassy.org], fresh from signup,
    tries to approve application 1. *)
Lemma signup_token_opens_no_admin_route_witness :
  let signed_up := answer (post_signup Ref.hash Ref.sign Ref.validator Ref.env
                             (Ref.signup_form "Admin@Embassy.org")) fresh_world in
  let payload := {| claim_id := 1; claim_username := "admin@embassy.org"; isAdmin := false |} in
  let cred := {| authorization := Some ("Bearer " ++ generateToken Ref.sign Ref.env payload);
                 cookie_token := None |} in
  token_of (fst signed_up) = Some (JStr (generateToken Ref.sign Ref.env payload)) /\
  ref_serve_all Ref.now (Routed (PUT_status visa_applications cred 1 Ref.approve))
                (snd signed_up)
  = (error 403 "Admin access required", snd signed_up).
Proof.
  intros signed_up payload cred.
  destruct (@signup_token_opens_no_admin_route Ref.parse Ref.stringify Ref.hash Ref.compare
              Ref.sign Ref.verify Ref.validator Ref.set_expanded Ref.where_session Ref.env
              (Ref.signup_form "Admin@Embassy.org") (Ref.signup_form "Admin@Embassy.org")
              "Admin@Embassy.org" "S3cret!pass" fresh_world
              eq_refl eq_refl eq_refl eq_refl eq_refl)
    as [Htoken Hrefused].
  - vm_compute. discriminate.
  - split; [exact Htoken |].
    apply (Hrefused Ref.now (Routed (PUT_status visa_applications cred 1 Ref.approve))
             (snd signed_up) None); reflexivity.
Defined.

(** Witness of X29: Alice tries to approve her own application. *)
Lemma applications_changed_by_admins_only_witness :
  let w := Ref.holding visa_applications
             [Ref.application 1 "alice@example.com" "pending" None] in
  let op := Routed (PUT_status visa_applications (Ref.bearer Ref.alice) 1 Ref.approve) in
  table_rows visa_applications (db (snd (ref_serve_all Ref.now op w)))
    = table_rows visa_applications (db w) \/
  exists row,
    status row = "pending" /\
    table_rows visa_applications (db (snd (ref_serve_all Ref.now op w)))
    = (table_rows visa_applications (db w) ++ [row])%list.
Proof.
  intros w op.
  apply (@applications_changed_by_admins_only Ref.parse Ref.stringify Ref.hash Ref.compare
           Ref.sign Ref.verify Ref.validator Ref.set_expanded Ref.where_session Ref.env Ref.now op w visa_applications).
  vm_compute. reflexivity.
Defined.

(** Witness of X1: a header with a token that does not verify, beside a
    cookie with an administrator's token. *)
Lemma bearer_header_precedes_cookie_witness :
  let cookie := Some (generateToken Ref.sign Ref.env Ref.admin) in
  let cred := {| authorization := Some "Bearer not-a-token"; cookie_token := cookie |} in
  let next := fun user : Claims => ret (json 200 (JStr (claim_username user))) in
  verifyToken Ref.verify Ref.env (generateToken Ref.sign Ref.env Ref.admin) = Some Ref.admin /\
  presented_token cred = Some "not-a-token" /\
  answer (authMiddleware Ref.verify Ref.env cred next) fresh_world
  = (error 401 "Invalid or expired token", fresh_world).
Proof.
  intros cookie cred next.
  split; [vm_compute; reflexivity |].
  assert (Hne : "not-a-token" <> "") by discriminate.
  assert (H := @bearer_header_precedes_cookie Ref.verify Ref.env "not-a-token" cookie next
                 fresh_world Hne).
  cbv zeta in H. destruct H as [Hpresented [Hrefused _]].
  split; [exact Hpresented | apply Hrefused; reflexivity].
Defined.

(** Witness of X11: an administrator records a UPS tracking number for an
    approved marriage application. *)
Lemma tracking_update_keeps_status_witness :
  let w := Ref.holding marriage_applications
             [Ref.application 1 "alice@example.com" "approved" None] in
  let body := [("trackingNumber", JStr "1Z999"); ("carrier", JStr "ups")] in
  let after := snd (answer (put_tracking Ref.set_expanded Ref.env marriage_applications 1
                              body Ref.now) w) in
  changes_only marriage_applications 1 beside_tracking (db w) (db after) /\
  map status (marriage (db after)) = ["approved"] /\
  map tracking_number (marriage (db after)) = [Some "1Z999"] /\
  map shipping_carrier (marriage (db after)) = [Some "ups"].
Proof.
  intros w body after. split.
  - apply (@tracking_update_keeps_status Ref.set_expanded Ref.env marriage_applications 1
             body Ref.now w).
    reflexivity.
  - vm_compute. repeat split; reflexivity.
Defined.


(** A message whose [sessionId] is the array [[0]].  The driver sends the
    number 0, the database reads a stored session id that does not start
    with digits as 0, and the message is saved in the conversation of
    session [s-42], whose visitor reads it at
    [GET /api/chat/session/s-42]. *)
Example chat_message_numeric_session :
  let body := [("sessionId", JArr [JNum 0]); ("senderType", JStr "user");
               ("message", JStr "Who is there?")] in
  let said := ref_serve_all "2025-03-01T10:05:00.000Z" (POST_chat_message body) ref_day in
  map session_id (addressed Ref.where_session (get "sessionId" body) (db ref_day)) = ["s-42"] /\
  fst said = success /\
  map message (chat_messages (db (snd said))) = ["Hello"; "Who is there?"] /\
  map conversation_id (chat_messages (db (snd said))) = [1; 1] /\
  fst (answer (get_chat_session "s-42") (snd said))
    <> fst (answer (get_chat_session "s-42") ref_day).
Proof. vm_compute. repeat split; try reflexivity. discriminate. Qed.

(** The ranking with a tie: Marriage and Travel Pass keep their order. *)
Example applicationTypes_tie :
  applicationTypes 3 5 1 5
  = [("Marriage", 5); ("Travel Pass", 5); ("Visa", 3); ("Birth Certificate", 1)].
Proof. reflexivity. Qed.

(** A closed conversation still takes a message. *)
Example closed_conversation_takes_message :
  let shut := snd (ref_serve_all "2025-03-01T11:00:00.000Z"
                     (PUT_chat_close (Ref.bearer Ref.admin) 1) ref_day) in
  let said := ref_serve_all "2025-03-01T11:05:00.000Z"
                (POST_chat_message [("sessionId", JStr "s-42"); ("senderType", JStr "user");
                                    ("message", JStr "One more thing")]) shut in
  map conv_status (chat_conversations (db shut)) = ["closed"] /\
  fst said = success /\
  map message (chat_messages (db (snd said))) = ["Hello"; "One more thing"] /\
  map conv_status (chat_conversations (db (snd said))) = ["closed"].
Proof. vm_compute. repeat split; reflexivity. Qed.
